(** * shell_code_roast: a shallow embedding of the interactive shell

    The program is an interactive loop ([main.py], [src/shell.py]) that
    dispatches a line of input to one of five commands ([src/command.py]).
    A Python [str] is modelled by its sequence of code points, a [bytes]
    object by its sequence of octets, a raised exception by a value of
    [exception], and standard output by the list of chunks written to it. *)

From Stdlib Require Import ZArith List String Ascii Bool Lia DecimalString.
Import ListNotations.
Local Open Scope Z_scope.

(** ** Python values *)

Definition str := list Z.
Definition bytes := list Z.

(** A string literal of the source, as a [str]. *)
Definition pystr (s : string) : str :=
  map (fun a => Z.of_N (N_of_ascii a)) (list_ascii_of_string s).

Fixpoint str_eqb (a b : list Z) : bool :=
  match a, b with
  | [], [] => true
  | x :: a', y :: b' => (x =? y) && str_eqb a' b'
  | _, _ => false
  end.

(** The exceptions the program and the library functions it calls can raise.
    [binascii_Error], [UnicodeEncodeError] and [UnicodeDecodeError] are
    subclasses of [ValueError]; the Unicode errors carry the encoding, the
    offending object, the range [start, end) and the reason. *)
Inductive exception :=
| CommandNameConversionError (msg : str)
| ValueError (msg : str)
| binascii_Error (msg : str)
| UnicodeEncodeError (encoding : str) (object : str) (start stop : Z) (reason : str)
| UnicodeDecodeError (encoding : str) (object : bytes) (start stop : Z) (reason : str)
| NotImplementedError (msg : str)
| KeyError (key : str)
| SystemExit (code : Z)
| EOFError.

(** [isinstance(e, ValueError)]. *)
Definition is_ValueError (e : exception) : bool :=
  match e with
  | ValueError _ | binascii_Error _
  | UnicodeEncodeError _ _ _ _ _ | UnicodeDecodeError _ _ _ _ _ => true
  | _ => false
  end.

Definition is_CommandNameConversionError (e : exception) : bool :=
  match e with CommandNameConversionError _ => true | _ => false end.

(** The outcome of a call: a value, or a raised exception. *)
Inductive result (A : Type) :=
| Ok (a : A)
| Raise (e : exception).
Arguments Ok {A} a.
Arguments Raise {A} e.

Definition rbind {A B} (m : result A) (f : A -> result B) : result B :=
  match m with Ok a => f a | Raise e => Raise e end.

Declare Scope py_scope.
Delimit Scope py_scope with py.
Notation "x <- m ;; k" := (rbind m (fun x => k))
  (at level 61, m at next level, right associativity) : py_scope.

(** ** Text methods of [str] *)

Module Unicode.

(** [str.isspace] on one code point: the characters of bidirectional type
    WS, B or S and of category Zs. *)
Definition isspace (c : Z) : bool :=
  ((9 <=? c) && (c <=? 13)) || ((28 <=? c) && (c <=? 32))
  || (c =? 133) || (c =? 160) || (c =? 5760)
  || ((8192 <=? c) && (c <=? 8202))
  || (c =? 8232) || (c =? 8233) || (c =? 8239) || (c =? 8287) || (c =? 12288).

Fixpoint lstrip (s : str) : str :=
  match s with
  | c :: r => if isspace c then lstrip r else s
  | [] => []
  end.

Definition rstrip (s : str) : str := rev (lstrip (rev s)).

(** [s.strip()] *)
Definition strip (s : str) : str := rstrip (lstrip s).

(** [s.split(sep)] for a separator of one character. *)
Fixpoint split (sep : Z) (s : str) : list str :=
  match s with
  | [] => [[]]
  | c :: r =>
      if c =? sep then [] :: split sep r
      else match split sep r with
           | h :: t => (c :: h) :: t
           | [] => [[c]]
           end
  end.

(** [sep.join(parts)] *)
Fixpoint join (sep : str) (parts : list str) : str :=
  match parts with
  | [] => []
  | [p] => p
  | p :: ps => p ++ sep ++ join sep ps
  end.

(** The full upper-case mapping of the Unicode database beyond ASCII is a
    table of the interpreter; it is a parameter. ASCII letters map as
    usual, and no white-space character is cased. *)
Section Upper.
  Variable toupper_full : Z -> list Z.

Definition toupper (c : Z) : list Z :=
    if (97 <=? c) && (c <=? 122) then [c - 32]
    else if (c <? 128) || isspace c then [c]
    else toupper_full c.

  (** [s.upper()] *)
Definition upper (s : str) : str := flat_map toupper s.
End Upper.

End Unicode.


(** ** The character encoding: [str.encode()] and [bytes.decode()]

    Both default to UTF-8 with strict error handling. *)

Module utf8.
Local Open Scope py_scope.

Definition codec_name : str := pystr "utf-8".

Definition is_surrogate (c : Z) : bool := (55296 <=? c) && (c <=? 57343).

(** The octets of one scalar value. *)
Definition encode_char (c : Z) : bytes :=
  if c <? 128 then [c]
  else if c <? 2048 then [192 + c / 64; 128 + c mod 64]
  else if c <? 65536 then
    [224 + c / 4096; 128 + (c / 64) mod 64; 128 + c mod 64]
  else
    [240 + c / 262144; 128 + (c / 4096) mod 64; 128 + (c / 64) mod 64;
     128 + c mod 64].

(** The end of the run of surrogates that starts at [pos]. *)
Fixpoint surrogate_run (pos : Z) (s : str) : Z :=
  match s with
  | c :: r => if is_surrogate c then surrogate_run (pos + 1) r else pos
  | [] => pos
  end.

(** The encoder at position [pos] of [whole]. A surrogate cannot be encoded;
    a number outside the code space is no character of a [str] and is
    refused as well. *)
Fixpoint encode_from (whole : str) (pos : Z) (s : str) : result bytes :=
  match s with
  | [] => Ok []
  | c :: r =>
      if is_surrogate c then
        Raise (UnicodeEncodeError codec_name whole pos (surrogate_run (pos + 1) r)
                 (pystr "surrogates not allowed"))
      else if (c <? 0) || (1114111 <? c) then
        Raise (UnicodeEncodeError codec_name whole pos (pos + 1)
                 (pystr "code point not in range(0x110000)"))
      else
        rest <- encode_from whole (pos + 1) r ;;
        Ok (encode_char c ++ rest)
  end.

(** [s.encode()] *)
Definition encode (s : str) : result bytes := encode_from s 0 s.

Definition is_continuation (b : Z) : bool := (128 <=? b) && (b <? 192).

Definition decode_error (whole : bytes) (start stop : Z) (reason : string)
  : result str :=
  Raise (UnicodeDecodeError codec_name whole start stop (pystr reason)).

(** The decoder at position [pos] of [whole]: shortest forms only, no
    surrogates, nothing above U+10FFFF. *)
Fixpoint decode_from (whole : bytes) (pos : Z) (s : bytes) : result str :=
  let invalid_start := decode_error whole pos (pos + 1) "invalid start byte" in
  let invalid_continuation n :=
    decode_error whole pos (pos + n) "invalid continuation byte" in
  let unexpected_end :=
    decode_error whole pos (Z.of_nat (List.length whole)) "unexpected end of data" in
  match s with
  | [] => Ok []
  | ch :: r1 =>
      if ch <? 128 then
        rest <- decode_from whole (pos + 1) r1 ;; Ok (ch :: rest)
      else if ch <? 194 then invalid_start
      else if ch <? 224 then
        match r1 with
        | [] => unexpected_end
        | ch2 :: r2 =>
            if negb (is_continuation ch2) then invalid_continuation 1
            else
              rest <- decode_from whole (pos + 2) r2 ;;
              Ok ((ch - 192) * 64 + (ch2 - 128) :: rest)
        end
      else if ch <? 240 then
        match r1 with
        | [] => unexpected_end
        | ch2 :: r2 =>
            if negb (is_continuation ch2)
               || (if ch2 <? 160 then ch =? 224 else ch =? 237)
            then invalid_continuation 1
            else
              match r2 with
              | [] => unexpected_end
              | ch3 :: r3 =>
                  if negb (is_continuation ch3) then invalid_continuation 2
                  else
                    rest <- decode_from whole (pos + 3) r3 ;;
                    Ok ((ch - 224) * 4096 + (ch2 - 128) * 64 + (ch3 - 128)
                          :: rest)
              end
        end
      else if ch <? 245 then
        match r1 with
        | [] => unexpected_end
        | ch2 :: r2 =>
            if negb (is_continuation ch2)
               || (if ch2 <? 144 then ch =? 240 else ch =? 244)
            then invalid_continuation 1
            else
              match r2 with
              | [] => unexpected_end
              | ch3 :: r3 =>
                  if negb (is_continuation ch3) then invalid_continuation 2
                  else
                    match r3 with
                    | [] => unexpected_end
                    | ch4 :: r4 =>
                        if negb (is_continuation ch4)
                        then invalid_continuation 3
                        else
                          rest <- decode_from whole (pos + 4) r4 ;;
                          Ok ((ch - 240) * 262144 + (ch2 - 128) * 4096
                              + (ch3 - 128) * 64 + (ch4 - 128) :: rest)
                    end
              end
        end
      else invalid_start
  end.

(** [b.decode()] *)
Definition decode (b : bytes) : result str := decode_from b 0 b.

End utf8.

(** ** Library functions on [bytes]

    The codecs of [binascii] and [base64] are not part of the repository;
    they are modelled here after the CPython 3.10 library the program is
    written for, with the default arguments the program calls them with. *)

(** A character of ASCII. *)
Definition is_ascii (c : Z) : bool := (0 <=? c) && (c <? 128).

(** An argument that is [bytes | str], as the decoders accept it. *)
Inductive data :=
| Str (s : str)
| Bytes (b : bytes).

(** [table[i]] for a table given as a [bytes] literal. *)
Definition item (table : bytes) (i : Z) : Z := nth (Z.to_nat i) table 0.

(** The index of [c] in [table], as the reverse tables of the library hold it. *)
Fixpoint index_from (i : Z) (c : Z) (table : bytes) : option Z :=
  match table with
  | [] => None
  | x :: r => if x =? c then Some i else index_from (i + 1) c r
  end.

Definition index (c : Z) (table : bytes) : option Z := index_from 0 c table.

(** [int.from_bytes(b, 'big')] and [n.to_bytes(5, 'big')], [struct.pack('!I', n)]. *)
Definition from_bytes (b : bytes) : Z := fold_left (fun acc x => acc * 256 + x) b 0.

Definition to_bytes5 (n : Z) : bytes :=
  [n / 4294967296 mod 256; n / 16777216 mod 256; n / 65536 mod 256;
   n / 256 mod 256; n mod 256].

Definition packI (n : Z) : bytes :=
  [n / 16777216 mod 256; n / 65536 mod 256; n / 256 mod 256; n mod 256].

(** [b[:-n]] for [n > 0]. *)
Definition drop_last (n : nat) (b : bytes) : bytes := firstn (List.length b - n) b.

(** ['%d' % n] for [n >= 0]. *)
Definition decimal (n : Z) : str :=
  pystr (NilZero.string_of_uint (N.to_uint (Z.to_N n))).

Module binascii.
Local Open Scope py_scope.

Definition hexdigits : bytes := pystr "0123456789abcdef".

(** [binascii.hexlify(data)] *)
Fixpoint hexlify (s : bytes) : bytes :=
  match s with
  | [] => []
  | c :: r => item hexdigits (c / 16) :: item hexdigits (c mod 16) :: hexlify r
  end.

(** The value of a digit in base 36, and 37 for any other character. *)
Definition digit_value (c : Z) : Z :=
  if (48 <=? c) && (c <=? 57) then c - 48
  else if (97 <=? c) && (c <=? 122) then c - 87
  else if (65 <=? c) && (c <=? 90) then c - 55
  else 37.

(** The argument converter of [a2b_hex]: bytes as they are, a [str] only when
    it is ASCII. *)
Definition ascii_buffer (d : data) : result bytes :=
  match d with
  | Bytes b => Ok b
  | Str s =>
      if forallb is_ascii s then Ok s
      else Raise (ValueError
                    (pystr "string argument should contain only ASCII characters"))
  end.

Fixpoint a2b_hex_pairs (s : bytes) : result bytes :=
  match s with
  | top :: bot :: r =>
      if (16 <=? digit_value top) || (16 <=? digit_value bot) then
        Raise (binascii_Error (pystr "Non-hexadecimal digit found"))
      else
        rest <- a2b_hex_pairs r ;;
        Ok (digit_value top * 16 + digit_value bot :: rest)
  | _ => Ok []
  end.

(** [binascii.unhexlify(hexstr)] *)
Definition unhexlify (d : data) : result bytes :=
  s <- ascii_buffer d ;;
  if Z.odd (Z.of_nat (List.length s)) then
    Raise (binascii_Error (pystr "Odd-length string"))
  else a2b_hex_pairs s.

Definition table_b2a_base64 : bytes :=
  pystr "ABCDEFGHIJKLMNOPQRSTUVWXYZabcdefghijklmnopqrstuvwxyz0123456789+/".

Definition BASE64_PAD : Z := 61.

(** [binascii.b2a_base64(data, newline=False)]: three octets give four
    characters; one or two octets left over give two or three characters and
    the padding. *)
Fixpoint b2a_base64 (s : bytes) : bytes :=
  let t := item table_b2a_base64 in
  match s with
  | [] => []
  | [a] => [t (a / 4); t (a mod 4 * 16); BASE64_PAD; BASE64_PAD]
  | [a; b] =>
      [t (a / 4); t (a mod 4 * 16 + b / 16); t (b mod 16 * 4); BASE64_PAD]
  | a :: b :: c :: r =>
      t (a / 4) :: t (a mod 4 * 16 + b / 16) :: t (b mod 16 * 4 + c / 64)
        :: t (c mod 64) :: b2a_base64 r
  end.

(** The loop of [binascii.a2b_base64] (not strict): characters outside the
    alphabet are skipped, a pad sequence that completes a quad ends the
    decoding, [n] counts the octets written so far. *)
Fixpoint a2b_base64_loop (s : bytes) (quad_pos leftchar pads n : Z)
  : result bytes :=
  match s with
  | [] =>
      if quad_pos =? 0 then Ok []
      else if quad_pos =? 1 then
        Raise (binascii_Error
                 (pystr "Invalid base64-encoded string: number of data characters ("
                  ++ decimal (n / 3 * 4 + 1)
                  ++ pystr ") cannot be 1 more than a multiple of 4"))
      else Raise (binascii_Error (pystr "Incorrect padding"))
  | this_ch :: r =>
      if this_ch =? BASE64_PAD then
        if (2 <=? quad_pos) && (4 <=? quad_pos + (pads + 1)) then Ok []
        else
          a2b_base64_loop r quad_pos leftchar
            (if 2 <=? quad_pos then pads + 1 else pads) n
      else
        match index this_ch table_b2a_base64 with
        | None => a2b_base64_loop r quad_pos leftchar pads n
        | Some v =>
            if quad_pos =? 0 then a2b_base64_loop r 1 v 0 n
            else if quad_pos =? 1 then
              rest <- a2b_base64_loop r 2 (v mod 16) 0 (n + 1) ;;
              Ok (leftchar * 4 + v / 16 :: rest)
            else if quad_pos =? 2 then
              rest <- a2b_base64_loop r 3 (v mod 4) 0 (n + 1) ;;
              Ok (leftchar * 16 + v / 4 :: rest)
            else
              rest <- a2b_base64_loop r 0 0 0 (n + 1) ;;
              Ok (leftchar * 64 + v :: rest)
        end
  end.

(** [binascii.a2b_base64(data)] *)
Definition a2b_base64 (s : bytes) : result bytes := a2b_base64_loop s 0 0 0 0.

End binascii.

Module base64.
Local Open Scope py_scope.

(** [_bytes_from_decode_data(s)] *)
Definition _bytes_from_decode_data (d : data) : result bytes :=
  match d with
  | Str s =>
      if forallb is_ascii s then Ok s
      else Raise (ValueError
                    (pystr "string argument should contain only ASCII characters"))
  | Bytes b => Ok b
  end.

(** [b64encode(s)] and [b64decode(s)] *)
Definition b64encode (s : bytes) : bytes := binascii.b2a_base64 s.

Definition b64decode (d : data) : result bytes :=
  s <- _bytes_from_decode_data d ;;
  binascii.a2b_base64 s.

(** [bytes.upper]: ASCII letters only. *)
Definition bytes_upper (s : bytes) : bytes :=
  map (fun c => if (97 <=? c) && (c <=? 122) then c - 32 else c) s.

(** [b16encode(s)] and [b16decode(s)] *)
Definition b16encode (s : bytes) : bytes := bytes_upper (binascii.hexlify s).

Definition is_base16_digit (c : Z) : bool :=
  ((48 <=? c) && (c <=? 57)) || ((65 <=? c) && (c <=? 70)).

Definition b16decode (d : data) : result bytes :=
  s <- _bytes_from_decode_data d ;;
  if negb (forallb is_base16_digit s) then
    Raise (binascii_Error (pystr "Non-base16 digit found"))
  else binascii.unhexlify (Bytes s).

Definition _b32alphabet : bytes := pystr "ABCDEFGHIJKLMNOPQRSTUVWXYZ234567".
Definition _b32hexalphabet : bytes := pystr "0123456789ABCDEFGHIJKLMNOPQRSTUV".

(** The eight characters of one quantum of forty bits. *)
Definition b32_quantum (alphabet : bytes) (c : Z) : bytes :=
  map (fun k => item alphabet (c / 2 ^ (5 * k) mod 32)) [7; 6; 5; 4; 3; 2; 1; 0].

(** [_b32encode(alphabet, s)]: the last quantum is padded with zero octets,
    and the characters that stand for padding only are replaced by [=]. *)
Fixpoint _b32encode (alphabet : bytes) (s : bytes) : bytes :=
  let q l := b32_quantum alphabet (from_bytes l) in
  match s with
  | [] => []
  | [a] => firstn 2 (q [a; 0; 0; 0; 0]) ++ pystr "======"
  | [a; b] => firstn 4 (q [a; b; 0; 0; 0]) ++ pystr "===="
  | [a; b; c] => firstn 5 (q [a; b; c; 0; 0]) ++ pystr "==="
  | [a; b; c; d] => firstn 7 (q [a; b; c; d; 0]) ++ pystr "="
  | a :: b :: c :: d :: e :: r => q [a; b; c; d; e] ++ _b32encode alphabet r
  end.

Fixpoint lstrip_pad (s : bytes) : bytes :=
  match s with
  | c :: r => if c =? 61 then lstrip_pad r else s
  | [] => []
  end.

(** [s.rstrip(b'=')] *)
Definition rstrip_pad (s : bytes) : bytes := rev (lstrip_pad (rev s)).

(** The accumulator of one quantum: [acc = (acc << 5) + b32rev[c]]. *)
Fixpoint b32_acc (alphabet : bytes) (acc : Z) (quanta : bytes) : result Z :=
  match quanta with
  | [] => Ok acc
  | c :: r =>
      match index c alphabet with
      | Some v => b32_acc alphabet (acc * 32 + v) r
      | None => Raise (binascii_Error (pystr "Non-base32 digit found"))
      end
  end.

(** The loop over the quanta of eight characters (the last one may be
    shorter): the octets decoded and the accumulator of the last quantum. *)
Fixpoint b32_quanta (alphabet : bytes) (s : bytes) (last : Z)
  : result (bytes * Z) :=
  match s with
  | [] => Ok ([], last)
  | a :: b :: c :: d :: e :: f :: g :: h :: r =>
      acc <- b32_acc alphabet 0 [a; b; c; d; e; f; g; h] ;;
      rest <- b32_quanta alphabet r acc ;;
      Ok (to_bytes5 acc ++ fst rest, snd rest)
  | quanta =>
      acc <- b32_acc alphabet 0 quanta ;;
      Ok (to_bytes5 acc, acc)
  end.

(** The last, partial quantum: the octets that stand for padding only are
    removed from the end of [decoded]. *)
Definition b32_last (decoded : bytes) (acc padchars : Z) : result bytes :=
  if negb (existsb (Z.eqb padchars) [0; 1; 3; 4; 6]) then
    Raise (binascii_Error (pystr "Incorrect padding"))
  else if negb (padchars =? 0) && negb (Nat.eqb (List.length decoded) 0) then
    let last := to_bytes5 (acc * 2 ^ (5 * padchars)) in
    let leftover := (43 - 5 * padchars) / 8 in
    Ok (drop_last 5 decoded ++ firstn (Z.to_nat leftover) last)
  else Ok decoded.

(** [_b32decode(alphabet, s)] *)
Definition _b32decode (alphabet : bytes) (d : data) : result bytes :=
  s <- _bytes_from_decode_data d ;;
  if negb (Z.of_nat (List.length s) mod 8 =? 0) then
    Raise (binascii_Error (pystr "Incorrect padding"))
  else
    let l := Z.of_nat (List.length s) in
    let s' := rstrip_pad s in
    let padchars := l - Z.of_nat (List.length s') in
    r <- b32_quanta alphabet s' 0 ;;
    b32_last (fst r) (snd r) padchars.

Definition b32encode (s : bytes) : bytes := _b32encode _b32alphabet s.
Definition b32decode (d : data) : result bytes := _b32decode _b32alphabet d.
Definition b32hexencode (s : bytes) : bytes := _b32encode _b32hexalphabet s.
Definition b32hexdecode (d : data) : result bytes := _b32decode _b32hexalphabet d.

(** The five characters of a word of thirty-two bits:
    [chars2[word // 614125] + chars2[word // 85 % 7225] + chars[word % 85]]
    with [chars2[k] = chars[k // 85] + chars[k % 85]]. *)
Definition word85 (chars : Z -> Z) (word : Z) : bytes :=
  let hi := word / 614125 in
  let mid := word / 85 mod 7225 in
  [chars (hi / 85); chars (hi mod 85); chars (mid / 85); chars (mid mod 85);
   chars (word mod 85)].

Definition chunk85 (chars : Z -> Z) (foldnuls : bool) (word : Z) : bytes :=
  if foldnuls && (word =? 0) then pystr "z" else word85 chars word.

(** The last chunk when the input was padded with [padding] zero octets. *)
Definition last85 (chars : Z -> Z) (foldnuls : bool) (padding : nat) (word : Z)
  : bytes :=
  let chunk := chunk85 chars foldnuls word in
  let chunk := if str_eqb chunk (pystr "z") then repeat (chars 0) 5 else chunk in
  drop_last padding chunk.

(** [_85encode(b, chars, chars2, pad=False, foldnuls, foldspaces=False)] *)
Fixpoint _85encode (chars : Z -> Z) (foldnuls : bool) (b : bytes) : bytes :=
  match b with
  | [] => []
  | [a] => last85 chars foldnuls 3 (from_bytes [a; 0; 0; 0])
  | [a; b] => last85 chars foldnuls 2 (from_bytes [a; b; 0; 0])
  | [a; b; c] => last85 chars foldnuls 1 (from_bytes [a; b; c; 0])
  | a :: b :: c :: d :: r =>
      chunk85 chars foldnuls (from_bytes [a; b; c; d])
        ++ _85encode chars foldnuls r
  end.

(** [a85encode(b)] *)
Definition a85encode (b : bytes) : bytes := _85encode (fun i => 33 + i) true b.

Definition a85_ignorechars : bytes := [32; 9; 10; 13; 11].

(** The loop of [a85decode] over [b + b'u' * 4]: [curr] holds the digits of
    the group being read. The result is the decoded octets and the digits
    left in [curr]. *)
Fixpoint a85_loop (s : bytes) (curr : bytes) : result (bytes * bytes) :=
  match s with
  | [] => Ok ([], curr)
  | x :: r =>
      if (33 <=? x) && (x <=? 117) then
        let curr := curr ++ [x] in
        if Nat.eqb (List.length curr) 5 then
          let acc := fold_left (fun acc x => 85 * acc + (x - 33)) curr 0 in
          if 4294967295 <? acc then
            Raise (ValueError (pystr "Ascii85 overflow"))
          else
            rest <- a85_loop r [] ;;
            Ok (packI acc ++ fst rest, snd rest)
        else a85_loop r curr
      else if x =? 122 then
        match curr with
        | _ :: _ => Raise (ValueError (pystr "z inside Ascii85 5-tuple"))
        | [] =>
            rest <- a85_loop r curr ;;
            Ok ([0; 0; 0; 0] ++ fst rest, snd rest)
        end
      else if existsb (Z.eqb x) a85_ignorechars then a85_loop r curr
      else Raise (ValueError (pystr "Non-Ascii85 digit found: " ++ [x]))
  end.

(** [a85decode(b)] *)
Definition a85decode (d : data) : result bytes :=
  b <- _bytes_from_decode_data d ;;
  r <- a85_loop (b ++ pystr "uuuu") [] ;;
  let result := fst r in
  let padding := (4 - List.length (snd r))%nat in
  if negb (Nat.eqb padding 0) then Ok (drop_last padding result)
  else Ok result.

Definition _b85alphabet : bytes :=
  pystr "0123456789ABCDEFGHIJKLMNOPQRSTUVWXYZabcdefghijklmnopqrstuvwxyz!#$%&()*+-;<=>?@^_`{|}~".

(** [b85encode(b)] *)
Definition b85encode (b : bytes) : bytes :=
  _85encode (item _b85alphabet) false b.

(** [acc = acc * 85 + _b85dec[c]] over one chunk that starts at [i]; [j] is
    the position in the chunk. *)
Fixpoint b85_acc (i j : Z) (acc : Z) (chunk : bytes) : result Z :=
  match chunk with
  | [] => Ok acc
  | c :: r =>
      match index c _b85alphabet with
      | Some v => b85_acc i (j + 1) (acc * 85 + v) r
      | None =>
          Raise (ValueError (pystr "bad base85 character at position "
                             ++ decimal (i + j)))
      end
  end.

(** The loop of [b85decode] over the chunks of five characters. *)
Fixpoint b85_chunks (i : Z) (b : bytes) : result bytes :=
  match b with
  | c0 :: c1 :: c2 :: c3 :: c4 :: r =>
      acc <- b85_acc i 0 0 [c0; c1; c2; c3; c4] ;;
      if 4294967295 <? acc then
        Raise (ValueError (pystr "base85 overflow in hunk starting at byte "
                           ++ decimal i))
      else
        rest <- b85_chunks (i + 5) r ;;
        Ok (packI acc ++ rest)
  | _ => Ok []
  end.

(** [b85decode(b)] *)
Definition b85decode (d : data) : result bytes :=
  b <- _bytes_from_decode_data d ;;
  let padding := Z.to_nat ((- Z.of_nat (List.length b)) mod 5) in
  r <- b85_chunks 0 (b ++ repeat 126 padding) ;;
  if negb (Nat.eqb padding 0) then Ok (drop_last padding r) else Ok r.

End base64.

(** ** hashlib

    The digest functions are library code as well. MD5 is modelled in full
    (RFC 1321), since the documented example of the program is an MD5
    digest; the other constructors are a parameter of the model (see
    [Interpreter] below). *)

Module hashlib.

(** The constructors the program imports. *)
Inductive constructor :=
| blake2b | blake2s | md5 | sha1 | sha224 | sha256 | sha384
| sha3_224 | sha3_256 | sha3_384 | sha3_512 | sha512.

Definition mask32 (x : Z) : Z := x mod 4294967296.

Definition rotl32 (x : Z) (c : Z) : Z :=
  mask32 (Z.lor (Z.shiftl x c) (Z.shiftr x (32 - c))).

Definition not32 (x : Z) : Z := Z.lxor x 4294967295.

Definition md5_K : list Z :=
  [3614090360; 3905402710; 606105819; 3250441966; 4118548399; 1200080426;
   2821735955; 4249261313; 1770035416; 2336552879; 4294925233; 2304563134;
   1804603682; 4254626195; 2792965006; 1236535329; 4129170786; 3225465664;
   643717713; 3921069994; 3593408605; 38016083; 3634488961; 3889429448;
   568446438; 3275163606; 4107603335; 1163531501; 2850285829; 4243563512;
   1735328473; 2368359562; 4294588738; 2272392833; 1839030562; 4259657740;
   2763975236; 1272893353; 4139469664; 3200236656; 681279174; 3936430074;
   3572445317; 76029189; 3654602809; 3873151461; 530742520; 3299628645;
   4096336452; 1126891415; 2878612391; 4237533241; 1700485571; 2399980690;
   4293915773; 2240044497; 1873313359; 4264355552; 2734768916; 1309151649;
   4149444226; 3174756917; 718787259; 3951481745].

Definition md5_s : list Z :=
  [7; 12; 17; 22; 7; 12; 17; 22; 7; 12; 17; 22; 7; 12; 17; 22;
   5; 9; 14; 20; 5; 9; 14; 20; 5; 9; 14; 20; 5; 9; 14; 20;
   4; 11; 16; 23; 4; 11; 16; 23; 4; 11; 16; 23; 4; 11; 16; 23;
   6; 10; 15; 21; 6; 10; 15; 21; 6; 10; 15; 21; 6; 10; 15; 21].

(** A little-endian word of thirty-two bits, and its octets. *)
Definition le_word (b : bytes) : Z :=
  fold_right (fun x acc => x + 256 * acc) 0 b.

Definition le_bytes (n : nat) (x : Z) : bytes :=
  map (fun k => x / 2 ^ (8 * Z.of_nat k) mod 256) (seq 0 n).

Fixpoint words (n : nat) (b : bytes) : list Z :=
  match n with
  | O => []
  | S n' => le_word (firstn 4 b) :: words n' (skipn 4 b)
  end.

(** One of the sixty-four operations on the state [(A, B, C, D)]. *)
Definition md5_step (M : list Z) (st : Z * Z * Z * Z) (i : Z) : Z * Z * Z * Z :=
  let '(A, B, C, D) := st in
  let '(F, g) :=
    if i <? 16 then (Z.lor (Z.land B C) (Z.land (not32 B) D), i)
    else if i <? 32 then
      (Z.lor (Z.land D B) (Z.land (not32 D) C), (5 * i + 1) mod 16)
    else if i <? 48 then (Z.lxor (Z.lxor B C) D, (3 * i + 5) mod 16)
    else (Z.lxor C (Z.lor B (not32 D)), (7 * i) mod 16) in
  let F := mask32 (F + A + item md5_K i + item M g) in
  (D, mask32 (B + rotl32 F (item md5_s i)), B, C).

Definition md5_block (st : Z * Z * Z * Z) (block : bytes) : Z * Z * Z * Z :=
  let '(a0, b0, c0, d0) := st in
  let M := words 16 block in
  let '(A, B, C, D) :=
    fold_left (md5_step M) (map Z.of_nat (seq 0 64)) st in
  (mask32 (a0 + A), mask32 (b0 + B), mask32 (c0 + C), mask32 (d0 + D)).

Fixpoint md5_blocks (n : nat) (st : Z * Z * Z * Z) (b : bytes) : Z * Z * Z * Z :=
  match n with
  | O => st
  | S n' => md5_blocks n' (md5_block st (firstn 64 b)) (skipn 64 b)
  end.

(** The message followed by the bit 1, zeros up to 56 modulo 64, and the
    length in bits as a little-endian word of sixty-four bits. *)
Definition md5_pad (b : bytes) : bytes :=
  let len := Z.of_nat (List.length b) in
  b ++ [128] ++ repeat 0 (Z.to_nat ((55 - len) mod 64))
    ++ le_bytes 8 (8 * len mod 18446744073709551616).

(** [md5(data).digest()] *)
Definition md5_digest (b : bytes) : bytes :=
  let padded := md5_pad b in
  let '(A, B, C, D) :=
    md5_blocks (List.length padded / 64)
      (1732584193, 4023233417, 2562383102, 271733878) padded in
  le_bytes 4 A ++ le_bytes 4 B ++ le_bytes 4 C ++ le_bytes 4 D.

End hashlib.

(** What the interpreter supplies and this development does not reproduce:
    the upper-case mapping of the Unicode database beyond ASCII, and the
    digest functions of [hashlib] other than MD5. *)
Class Interpreter := {
  toupper_full : Z -> list Z;
  library_digest : hashlib.constructor -> bytes -> bytes
}.

(** An interpreter that knows no cased character beyond ASCII and whose
    other digests are empty; it only serves to run the model on inputs that
    use neither. *)
Definition ascii_interpreter : Interpreter :=
  {| toupper_full := fun c => [c]; library_digest := fun _ _ => [] |}.

(** ** Formatting *)

(** [repr(s)] of a [str] of letters, digits and underscores. *)
Definition str_repr (s : str) : str := [39] ++ s ++ [39].

(** ['%0*x' % (width, n)] *)
Definition hex_fixed (width : nat) (n : Z) : str :=
  map (fun k => item binascii.hexdigits (n / 16 ^ Z.of_nat k mod 16))
      (rev (seq 0 width)).

(** [repr(b)] of a [bytes] object, as [print(b)] writes it. *)
Definition bytes_repr (b : bytes) : str :=
  let quote :=
    if existsb (Z.eqb 39) b && negb (existsb (Z.eqb 34) b) then 34 else 39 in
  let escape c :=
    if (c =? quote) || (c =? 92) then [92; c]
    else if c =? 9 then pystr "\t"
    else if c =? 10 then pystr "\n"
    else if c =? 13 then pystr "\r"
    else if (c <? 32) || (127 <=? c) then pystr "\x" ++ hex_fixed 2 c
    else [c] in
  [98; quote] ++ flat_map escape b ++ [quote].

(** [str(e)] of an exception. *)
Definition exception_str (e : exception) : str :=
  match e with
  | CommandNameConversionError msg | ValueError msg | binascii_Error msg
  | NotImplementedError msg => msg
  | KeyError key => key
  | SystemExit code => decimal code
  | EOFError => []
  | UnicodeEncodeError encoding object start stop reason =>
      if stop =? start + 1 then
        let c := nth (Z.to_nat start) object 0 in
        pystr "'" ++ encoding ++ pystr "' codec can't encode character '"
        ++ (if c <=? 255 then pystr "\x" ++ hex_fixed 2 c
            else if c <=? 65535 then pystr "\u" ++ hex_fixed 4 c
            else pystr "\U" ++ hex_fixed 8 c)
        ++ pystr "' in position " ++ decimal start ++ pystr ": " ++ reason
      else
        pystr "'" ++ encoding ++ pystr "' codec can't encode characters in position "
        ++ decimal start ++ pystr "-" ++ decimal (stop - 1) ++ pystr ": " ++ reason
  | UnicodeDecodeError encoding object start stop reason =>
      if stop =? start + 1 then
        pystr "'" ++ encoding ++ pystr "' codec can't decode byte 0x"
        ++ hex_fixed 2 (nth (Z.to_nat start) object 0)
        ++ pystr " in position " ++ decimal start ++ pystr ": " ++ reason
      else
        pystr "'" ++ encoding ++ pystr "' codec can't decode bytes in position "
        ++ decimal start ++ pystr "-" ++ decimal (stop - 1) ++ pystr ": " ++ reason
  end.

(** ** Standard output

    A call writes chunks to standard output and then returns or raises. *)

Definition IO (A : Type) : Type := (list str * result A)%type.

Definition ret {A} (a : A) : IO A := ([], Ok a).

Definition raise {A} (e : exception) : IO A := ([], Raise e).

Definition lift {A} (r : result A) : IO A := ([], r).

Definition bind {A B} (m : IO A) (f : A -> IO B) : IO B :=
  match m with
  | (out, Ok a) => let '(out', r) := f a in (out ++ out', r)
  | (out, Raise e) => (out, Raise e)
  end.

(** [print(s)]: the text and a line feed. *)
Definition print (s : str) : IO unit := ([s ++ [10]], Ok tt).

Declare Scope io_scope.
Delimit Scope io_scope with io.
Notation "x <- m ;; k" := (bind m (fun x => k))
  (at level 61, m at next level, right associativity) : io_scope.
Notation "m ;; k" := (bind m (fun _ => k))
  (at level 61, right associativity) : io_scope.

(** [table[key]] and [key in table.keys()] for a [dict] with [str] keys, kept
    in insertion order. *)
Fixpoint getitem {A} (table : list (str * A)) (key : str) : result A :=
  match table with
  | [] => Raise (KeyError (str_repr key))
  | (k, v) :: r => if str_eqb k key then Ok v else getitem r key
  end.

Definition keys {A} (table : list (str * A)) : list str := map fst table.

Definition contains (ks : list str) (key : str) : bool := existsb (str_eqb key) ks.

(** [str(table.keys())] *)
Definition dict_keys_str (ks : list str) : str :=
  pystr "dict_keys([" ++ Unicode.join (pystr ", ") (map str_repr ks) ++ pystr "])".

(** [a, b = argv] *)
Definition unpack2 (argv : list str) : result (str * str) :=
  match argv with
  | [a; b] => Ok (a, b)
  | [] | [_] =>
      Raise (ValueError (pystr "not enough values to unpack (expected 2, got "
                         ++ decimal (Z.of_nat (List.length argv)) ++ pystr ")"))
  | _ => Raise (ValueError (pystr "too many values to unpack (expected 2)"))
  end.

(** * src/command.py *)

Inductive CommandName := HELP | EXIT | ENCODE | DECODE | HASH.

(** [CommandName.__members__], in the order of definition. *)
Definition CommandName_members : list (str * CommandName) :=
  [(pystr "HELP", HELP); (pystr "EXIT", EXIT); (pystr "ENCODE", ENCODE);
   (pystr "DECODE", DECODE); (pystr "HASH", HASH)].

Definition CommandName_name (n : CommandName) : str :=
  match n with
  | HELP => pystr "HELP"
  | EXIT => pystr "EXIT"
  | ENCODE => pystr "ENCODE"
  | DECODE => pystr "DECODE"
  | HASH => pystr "HASH"
  end.

(** [str(name)], as an f-string formats a member. *)
Definition CommandName_str (n : CommandName) : str :=
  pystr "CommandName." ++ CommandName_name n.

Definition CommandName_eqb (a b : CommandName) : bool :=
  match a, b with
  | HELP, HELP | EXIT, EXIT | ENCODE, ENCODE | DECODE, DECODE | HASH, HASH => true
  | _, _ => false
  end.

(** The dataclasses. [DecodeCommand] and [EncodeCommand] annotate
    [DOCUMENTATION] without [ClassVar], so it is a field of the instance
    too, with the class attribute as its default. *)
Inductive Command :=
| HelpCommand (name : CommandName)
| ExitCommand (name : CommandName)
| DecodeCommand (name : CommandName) (DOCUMENTATION : str)
| EncodeCommand (name : CommandName) (DOCUMENTATION : str)
| HashCommand (name : CommandName).

Definition get_name (c : Command) : CommandName :=
  match c with
  | HelpCommand n | ExitCommand n | DecodeCommand n _ | EncodeCommand n _
  | HashCommand n => n
  end.

Definition HelpCommand_DOCUMENTATION : str := pystr "

To encode/Decode:
    Encode/Decode <Text> <Algorithm>
    Encode/Decode only for help.
To hash:
    Hash <Text> <Algorithm>
    Hash only for help.

    ".

Definition DecodeCommand_ALGORITHMS : list (str * (data -> result bytes)) :=
  [(pystr "A85", base64.a85decode);
   (pystr "BASE16", base64.b16decode);
   (pystr "BASE32", base64.b32decode);
   (pystr "BASE32HEX", base64.b32hexdecode);
   (pystr "BASE64", base64.b64decode);
   (pystr "BASE85", base64.b85decode);
   (pystr "HEXLIFY", binascii.unhexlify)].

Definition DecodeCommand_DOCUMENTATION : str :=
  pystr "Syntax: Decode <InputText> < "
  ++ Unicode.join (pystr " | ") (keys DecodeCommand_ALGORITHMS) ++ pystr " >".

Definition EncodeCommand_ALGORITHMS : list (str * (bytes -> bytes)) :=
  [(pystr "A85", base64.a85encode);
   (pystr "BASE16", base64.b16encode);
   (pystr "BASE32", base64.b32encode);
   (pystr "BASE32HEX", base64.b32hexencode);
   (pystr "BASE64", base64.b64encode);
   (pystr "BASE85", base64.b85encode);
   (pystr "HEXLIFY", binascii.hexlify)].

Definition EncodeCommand_DOCUMENTATION : str :=
  pystr "Syntax: Encode <InputText> < "
  ++ Unicode.join (pystr " | ") (keys EncodeCommand_ALGORITHMS) ++ pystr " > ".

Definition HashCommand_ALGORITHMS : list (str * hashlib.constructor) :=
  [(pystr "BLAKE2B", hashlib.blake2b);
   (pystr "BLAKE2S", hashlib.blake2s);
   (pystr "MD5", hashlib.md5);
   (pystr "SHA1", hashlib.sha1);
   (pystr "SHA224", hashlib.sha224);
   (pystr "SHA256", hashlib.sha256);
   (pystr "SHA384", hashlib.sha384);
   (pystr "SHA3_224", hashlib.sha3_224);
   (pystr "SHA3_256", hashlib.sha3_256);
   (pystr "SHA3_384", hashlib.sha3_384);
   (pystr "SHA3_512", hashlib.sha3_512);
   (pystr "SHA512", hashlib.sha512)].

Definition HashCommand_DOCUMENTATION : str :=
  pystr "Syntax: Hash <InputText> < "
  ++ Unicode.join (pystr " | ") (keys HashCommand_ALGORITHMS) ++ pystr " >".

(** [command_factory(name)] *)
Definition command_factory (name : CommandName) : result Command :=
  if CommandName_eqb name EXIT then Ok (ExitCommand name)
  else if CommandName_eqb name HELP then Ok (HelpCommand name)
  else if CommandName_eqb name ENCODE then
    Ok (EncodeCommand name EncodeCommand_DOCUMENTATION)
  else if CommandName_eqb name DECODE then
    Ok (DecodeCommand name DecodeCommand_DOCUMENTATION)
  else if CommandName_eqb name HASH then Ok (HashCommand name)
  else Raise (NotImplementedError
                (pystr "Command not implemented: " ++ CommandName_str name)).

Section Program.
Context {python : Interpreter}.
Local Open Scope io_scope.

(** [s.upper()] *)
Definition upper (s : str) : str := Unicode.upper toupper_full s.

(** [hashing_fn(data).hexdigest()] *)
Definition hexdigest (h : hashlib.constructor) (b : bytes) : str :=
  binascii.hexlify
    (match h with
     | hashlib.md5 => hashlib.md5_digest b
     | _ => library_digest h b
     end).

(** [str_to_command_name(name)] *)
Definition str_to_command_name (name : str) : result CommandName :=
  if negb (contains (keys CommandName_members) (upper name)) then
    Raise (CommandNameConversionError (pystr "Invalid command name: " ++ name))
  else getitem CommandName_members (upper name).

(** [HelpCommand._validate_argv] *)
Definition HelpCommand_validate_argv (name : CommandName) (argv : list str)
  : result unit :=
  if negb (Nat.eqb (List.length argv) 0) then
    Raise (ValueError (pystr "This command takes no arguments: "
                       ++ CommandName_str name))
  else Ok tt.

Definition HelpCommand_execute (name : CommandName) (argv : list str) : IO unit :=
  lift (HelpCommand_validate_argv name argv) ;;
  print HelpCommand_DOCUMENTATION.

(** [ExitCommand._validate_argv] *)
Definition ExitCommand_validate_argv (name : CommandName) (argv : list str)
  : result unit :=
  if negb (Nat.eqb (List.length argv) 0) then
    Raise (ValueError (pystr "This command takes no arguments: "
                       ++ CommandName_str name))
  else Ok tt.

(** [ExitCommand.execute]; [exit(0)] raises [SystemExit(0)]. *)
Definition ExitCommand_execute (name : CommandName) (argv : list str) : IO unit :=
  lift (ExitCommand_validate_argv name argv) ;;
  print (pystr "Exiting...") ;;
  raise (SystemExit 0).

(** [DecodeCommand._validate_argv] *)
Definition DecodeCommand_validate_argv (name : CommandName) (argv : list str)
  : result unit :=
  (if negb (Nat.eqb (List.length argv) 2) then
     Raise (ValueError (pystr "This command takes exactly 2 arguments: "
                        ++ CommandName_str name))
   else
   p <- unpack2 argv ;;
   let algorithm := snd p in
   let available_algorithms := keys DecodeCommand_ALGORITHMS in
   if negb (contains (keys DecodeCommand_ALGORITHMS)
              (Unicode.strip (upper algorithm))) then
     Raise (ValueError (pystr "Invalid algorithm name: " ++ algorithm ++ pystr ";"
                        ++ pystr "Available algorithms: "
                        ++ dict_keys_str available_algorithms))
   else Ok tt)%py.

Definition DecodeCommand_execute (name : CommandName) (argv : list str) : IO unit :=
  if Nat.eqb (List.length argv) 0 then print DecodeCommand_DOCUMENTATION
  else
    lift (DecodeCommand_validate_argv name argv) ;;
    p <- lift (unpack2 argv) ;;
    let '(input_data, algorithm) := p in
    func_ <- lift (getitem DecodeCommand_ALGORITHMS
                     (Unicode.strip (upper algorithm))) ;;
    decoded <- lift (func_ (Str input_data)) ;;
    text <- lift (utf8.decode decoded) ;;
    print text.

(** [EncodeCommand._validate_argv] *)
Definition EncodeCommand_validate_argv (name : CommandName) (argv : list str)
  : result unit :=
  (if negb (Nat.eqb (List.length argv) 2) then
     Raise (ValueError (pystr "This command takes exactly 2 arguments: "
                        ++ CommandName_str name))
   else
   p <- unpack2 argv ;;
   let algorithm := snd p in
   let available_algorithms := keys EncodeCommand_ALGORITHMS in
   if negb (contains available_algorithms (Unicode.strip (upper algorithm))) then
     Raise (ValueError (pystr "Invalid algorithm name: " ++ algorithm ++ pystr ";"
                        ++ pystr "Available algorithms: "
                        ++ dict_keys_str available_algorithms))
   else Ok tt)%py.

Definition EncodeCommand_execute (name : CommandName) (argv : list str) : IO unit :=
  if Nat.eqb (List.length argv) 0 then print EncodeCommand_DOCUMENTATION
  else
    lift (EncodeCommand_validate_argv name argv) ;;
    p <- lift (unpack2 argv) ;;
    let '(input_data, algorithm) := p in
    func_ <- lift (getitem EncodeCommand_ALGORITHMS
                     (Unicode.strip (upper algorithm))) ;;
    input_data_bytes <- lift (utf8.encode input_data) ;;
    print (bytes_repr (func_ input_data_bytes)).

(** [HashCommand._validate_argv]: the name is upper-cased, not stripped. *)
Definition HashCommand_validate_argv (name : CommandName) (argv : list str)
  : result unit :=
  (if negb (Nat.eqb (List.length argv) 2) then
     Raise (ValueError (pystr "This command takes exactly 2 arguments: "
                        ++ CommandName_str name))
   else
   p <- unpack2 argv ;;
   let algorithm := snd p in
   if negb (contains (keys HashCommand_ALGORITHMS) (upper algorithm)) then
     Raise (ValueError (pystr "Invalid algorithm name: " ++ algorithm
                        ++ pystr "; Available algorithms: "
                        ++ dict_keys_str (keys HashCommand_ALGORITHMS)))
   else Ok tt)%py.

Definition HashCommand_execute (name : CommandName) (argv : list str) : IO unit :=
  if Nat.eqb (List.length argv) 0 then print HashCommand_DOCUMENTATION
  else
    lift (HashCommand_validate_argv name argv) ;;
    p <- lift (unpack2 argv) ;;
    let '(input_data, algorithm) := p in
    input_data_bytes <- lift (utf8.encode input_data) ;;
    hashing_fn <- lift (getitem HashCommand_ALGORITHMS
                          (Unicode.strip (upper algorithm))) ;;
    print (hexdigest hashing_fn input_data_bytes).

(** [command.execute(argv)], by the class of the instance. *)
Definition execute (c : Command) (argv : list str) : IO unit :=
  match c with
  | HelpCommand name => HelpCommand_execute name argv
  | ExitCommand name => ExitCommand_execute name argv
  | DecodeCommand name _ => DecodeCommand_execute name argv
  | EncodeCommand name _ => EncodeCommand_execute name argv
  | HashCommand name => HashCommand_execute name argv
  end.

(** * src/shell.py *)

Record Shell := { supported_commands : list (CommandName * Command) }.

(** The dict comprehension of [Shell.__init__]. *)
Fixpoint build_commands (names : list CommandName)
  : result (list (CommandName * Command)) :=
  match names with
  | [] => Ok []
  | name :: r =>
      (c <- command_factory name ;;
       rest <- build_commands r ;;
       Ok ((name, c) :: rest))%py
  end.

Definition Shell_init : result Shell :=
  (cmds <- build_commands (map snd CommandName_members) ;;
   Ok {| supported_commands := cmds |})%py.

(** [self.supported_commands[command_name]] *)
Fixpoint lookup_command (table : list (CommandName * Command)) (n : CommandName)
  : result Command :=
  match table with
  | [] => Raise (KeyError (pystr "<" ++ CommandName_str n ++ pystr ": "
                           ++ str_repr (CommandName_name n) ++ pystr ">"))
  | (k, c) :: r => if CommandName_eqb k n then Ok c else lookup_command r n
  end.

(** The argument list that [_parse_cmd] builds from a line. *)
Definition parse_argv (cmd : str) : list str :=
  map Unicode.strip (tl (Unicode.split 32 cmd)).

(** [Shell._parse_cmd(cmd)] *)
Definition _parse_cmd (cmd : str) : result (CommandName * list str) :=
  let input_elements := Unicode.split 32 cmd in
  let binary := upper (Unicode.strip (hd [] input_elements)) in
  let argv := map Unicode.strip (tl input_elements) in
  (command_name <- str_to_command_name binary ;;
   Ok (command_name, argv))%py.

(** [Shell.execute_command(cmd)] *)
Definition execute_command (self : Shell) (cmd : str) : IO unit :=
  p <- lift (_parse_cmd cmd) ;;
  let '(command_name, argv) := p in
  c <- lift (lookup_command (supported_commands self) command_name) ;;
  execute c argv.

(** The colour codes of [colorama.Fore]. *)
Definition Fore_YELLOW : str := 27 :: pystr "[33m".
Definition Fore_CYAN : str := 27 :: pystr "[36m".
Definition Fore_WHITE : str := 27 :: pystr "[37m".

Definition prompt : str :=
  pystr "  " ++ Fore_YELLOW ++ pystr "[*] " ++ Fore_CYAN ++ pystr "-> " ++ Fore_WHITE.

(** [Shell.enter_command_to_execute()], run on the lines that standard
    input still holds. [input] writes the prompt and returns the next line,
    or raises [EOFError] when there is none. The loop has no [break]: the
    call ends only by an exception that the handler does not catch, and the
    result is what was written and that exception. *)
Fixpoint enter_command_to_execute (self : Shell) (stdin : list str)
  : list str * exception :=
  match stdin with
  | [] => ([prompt], EOFError)
  | user_input :: rest =>
      match execute_command self user_input with
      | (out, Ok _) =>
          let '(out', e) := enter_command_to_execute self rest in
          (prompt :: out ++ out', e)
      | (out, Raise error) =>
          if is_CommandNameConversionError error || is_ValueError error then
            let '(out', e) := enter_command_to_execute self rest in
            (prompt :: out ++ [exception_str error ++ [10]] ++ out', e)
          else (prompt :: out, error)
      end
  end.

(** * main.py *)

Definition DOC : str :=
  pystr "

" ++ Fore_YELLOW ++ pystr "

Original Author: Hossin azmoud (Moody0101)
Date: 10/18/2022
LICENCE: MIT
Language: " ++ Fore_CYAN ++ pystr "Python3.10 " ++ Fore_YELLOW ++ pystr "
Descripion: A tool to hash, encode, decode text.
command: hash, encode, decode, help, exit
Usage:
    To encode/Decode:
        Encode/Decode <Text> <Algorithm>
        Encode/Decode only for help.
    To hash:
        Hash <Text> <Algorithm>
        Hash only for help.
".

(** [main()]: what the process writes and the exception that ends it. The
    call of [enter_command_to_execute] never returns, so the body of the
    outer [while True] runs once. *)
Definition main (stdin : list str) : list str * exception :=
  match Shell_init with
  | Ok shell =>
      let '(out, e) := enter_command_to_execute shell stdin in
      ((DOC ++ [10]) :: out, e)
  | Raise e => ([DOC ++ [10]], e)
  end.

(** The exit status of the process: that of [SystemExit], and 1 after a
    traceback. *)
Definition exit_status (e : exception) : Z :=
  match e with
  | SystemExit code => code
  | _ => 1
  end.

End Program.

(** ** Definitions and tactics used by the proofs *)

Ltac decide_tests :=
  repeat match goal with
    | |- context [Z.ltb ?a ?b] => destruct (Z.ltb_spec a b); try lia
    | |- context [Z.leb ?a ?b] => destruct (Z.leb_spec a b); try lia
    | |- context [Z.eqb ?a ?b] => destruct (Z.eqb_spec a b); try lia
    end.

Ltac same_char c :=
  match goal with
  | |- rbind _ (fun r => Ok (?e :: r)) = _ => replace e with c by lia; reflexivity
  end.

Definition octet (b : Z) : Prop := 0 <= b < 256.
Definition octets (b : bytes) : Prop := Forall octet b.

(** A boolean test that holds on [0 .. n-1], checked by running it. *)
Definition below (n : nat) (P : Z -> bool) : bool :=
  forallb P (map Z.of_nat (seq 0 n)).

Ltac zdiv := Z.div_mod_to_equations; lia.

Definition hex_ok (c : Z) : bool :=
  let top := item binascii.hexdigits (c / 16) in
  let bot := item binascii.hexdigits (c mod 16) in
  (binascii.digit_value top <? 16) && (binascii.digit_value bot <? 16)
  && (binascii.digit_value top * 16 + binascii.digit_value bot =? c).

Definition b16_ok (c : Z) : bool :=
  match base64.bytes_upper (binascii.hexlify [c]) with
  | [top; bot] =>
      base64.is_base16_digit top && base64.is_base16_digit bot
      && (binascii.digit_value top <? 16) && (binascii.digit_value bot <? 16)
      && (binascii.digit_value top * 16 + binascii.digit_value bot =? c)
  | _ => false
  end.

Definition sextet_ok (i : Z) : bool :=
  let ch := item binascii.table_b2a_base64 i in
  negb (ch =? binascii.BASE64_PAD)
  && match index ch binascii.table_b2a_base64 with Some j => j =? i | None => false end.

(** The characters of the encoding before the padding, and the number of
    pad characters. *)
Fixpoint b32_body (alphabet : bytes) (s : bytes) : bytes :=
  let q l := base64.b32_quantum alphabet (from_bytes l) in
  match s with
  | [] => []
  | [a] => firstn 2 (q [a; 0; 0; 0; 0])
  | [a; b] => firstn 4 (q [a; b; 0; 0; 0])
  | [a; b; c] => firstn 5 (q [a; b; c; 0; 0])
  | [a; b; c; d] => firstn 7 (q [a; b; c; d; 0])
  | a :: b :: c :: d :: e :: r => q [a; b; c; d; e] ++ b32_body alphabet r
  end.

Fixpoint b32_npad (s : bytes) : nat :=
  match s with
  | [] => 0
  | [_] => 6
  | [_; _] => 4
  | [_; _; _] => 3
  | [_; _; _; _] => 1
  | _ :: _ :: _ :: _ :: _ :: r => b32_npad r
  end.

Ltac norm_pow :=
  change (2 ^ (5 * 7)) with 34359738368 in *;
  change (2 ^ (5 * 6)) with 1073741824 in *;
  change (2 ^ (5 * 5)) with 33554432 in *;
  change (2 ^ (5 * 4)) with 1048576 in *;
  change (2 ^ (5 * 3)) with 32768 in *;
  change (2 ^ (5 * 2)) with 1024 in *;
  change (2 ^ (5 * 1)) with 32 in *;
  change (2 ^ (5 * 0)) with 1 in *.

Ltac from_bytes_arith := unfold from_bytes; cbn [fold_left]; zdiv.

Definition alphabet_ok (alphabet : bytes) (i : Z) : bool :=
  negb (item alphabet i =? 61)
  && match index (item alphabet i) alphabet with
     | Some j => j =? i
     | None => false
     end.

Definition b85_ok (i : Z) : bool :=
  match index (item base64._b85alphabet i) base64._b85alphabet with
  | Some j => j =? i
  | None => false
  end.

(** The resolution of a command token as the specification words it: the
    token is upper-cased and trimmed before the lookup. *)
Definition trimmed_lookup {python : Interpreter} (token : str) : result CommandName :=
  let key := Unicode.strip (upper token) in
  if contains (keys CommandName_members) key then getitem CommandName_members key
  else Raise (CommandNameConversionError (pystr "Invalid command name: " ++ token)).

(** The class a command instance belongs to, named by the command it serves. *)
Definition class_of (c : Command) : CommandName :=
  match c with
  | HelpCommand _ => HELP
  | ExitCommand _ => EXIT
  | DecodeCommand _ _ => DECODE
  | EncodeCommand _ _ => ENCODE
  | HashCommand _ => HASH
  end.

(** One turn of the loop of [enter_command_to_execute] followed by the rest
    of the session [k]: the handler prints a [CommandNameConversionError] or
    a [ValueError] and the loop goes on; any other exception ends it. *)
Definition loop_turn (turn : IO unit) (k : list str * exception)
  : list str * exception :=
  match turn with
  | (out, Ok _) => (prompt :: out ++ fst k, snd k)
  | (out, Raise error) =>
      if is_CommandNameConversionError error || is_ValueError error
      then (prompt :: out ++ [exception_str error ++ [10]] ++ fst k, snd k)
      else (prompt :: out, error)
  end.

(** A string of white space only. *)
Definition blank (s : str) : Prop := Forall (fun c => Unicode.isspace c = true) s.

(** A call that raises, if it raises at all, a [ValueError] (or an instance
    of a subclass). *)
Definition only_ValueError {A} (r : result A) : Prop :=
  match r with
  | Ok _ => True
  | Raise e => is_ValueError e = true
  end.

(** What a command may do when it does not return: raise a [ValueError]
    before it has printed anything. *)
Definition fails_with_ValueError {A} (m : IO A) : Prop :=
  match m with
  | (_, Ok _) => True
  | (out, Raise e) => out = [] /\ is_ValueError e = true
  end.

(** The lines that run the exit command with no argument. *)
Definition exit_line {python : Interpreter} (line : str) : bool :=
  match _parse_cmd line with
  | Ok (EXIT, []) => true
  | _ => false
  end.

(** A lower-case hexadecimal digit, and the test that both digits of an
    octet are such. *)
Definition is_lower_hex (c : Z) : bool := existsb (Z.eqb c) (pystr "0123456789abcdef").

Definition hex_lower_ok (c : Z) : bool :=
  is_lower_hex (item binascii.hexdigits (c / 16))
  && is_lower_hex (item binascii.hexdigits (c mod 16)).

(** A text of ASCII characters only. *)
Definition ascii_text (s : list Z) : Prop := Forall (fun c => is_ascii c = true) s.

(** The number of space characters of a line. *)
Definition spaces (line : str) : nat := count_occ Z.eq_dec line 32.

(** A text with no space character. *)
Definition spaceless (s : str) : Prop := ~ In 32 s.

(** A visible character of ASCII, and one that [repr] of a [bytes] object
    writes as it is between single quotes. *)
Definition graphic (c : Z) : bool := (33 <=? c) && (c <=? 126).

Definition plain (c : Z) : bool := graphic c && negb (c =? 39) && negb (c =? 92).

(** The command token of a line as [_parse_cmd] hands it to
    [str_to_command_name]: [binary = input_elements[0].strip().upper()]. *)
Definition binary {python : Interpreter} (cmd : str) : str :=
  upper (Unicode.strip (hd [] (Unicode.split 32 cmd))).

(** A call that either prints once and returns, or prints nothing and raises
    a [ValueError]. *)
Definition prints_once (m : IO unit) : Prop :=
  match m with
  | (out, Ok _) => exists s, out = [s ++ [10]]
  | (out, Raise e) => out = [] /\ is_ValueError e = true
  end.

(** A text whose characters all pass the test [P]. *)
Definition made_of (P : Z -> bool) (s : list Z) : Prop :=
  Forall (fun c => P c = true) s.

(** A Unicode scalar value: a code point that is no surrogate. *)
Definition scalar (c : Z) : bool :=
  (0 <=? c) && (c <=? 1114111) && negb (utf8.is_surrogate c).

(** A lower-case hexadecimal letter. *)
Definition is_lower_hex_letter (c : Z) : bool := (97 <=? c) && (c <=? 102).

(** The upper-case form of an ASCII text. *)
Definition ascii_upper (s : str) : str :=
  map (fun c => if (97 <=? c) && (c <=? 122) then c - 32 else c) s.

(** A text that does not start with white space. *)
Definition starts_clean (s : str) : Prop :=
  match s with
  | [] => True
  | c :: _ => Unicode.isspace c = false
  end.

(** What [repr] writes for one visible character between the quotes [q]. *)
Definition quoted (q c : Z) : list Z :=
  if (c =? q) || (c =? 92) then [92; c] else [c].

(** The quote [repr] chooses for a [bytes] object. *)
Definition quote_of (b : bytes) : Z :=
  if existsb (Z.eqb 39) b && negb (existsb (Z.eqb 34) b) then 34 else 39.

(** The shell that [Shell()] constructs. *)
Definition session_shell : Shell :=
  {| supported_commands :=
       [(HELP, HelpCommand HELP); (EXIT, ExitCommand EXIT);
        (ENCODE, EncodeCommand ENCODE EncodeCommand_DOCUMENTATION);
        (DECODE, DecodeCommand DECODE DecodeCommand_DOCUMENTATION);
        (HASH, HashCommand HASH)] |}.

Ltac spaceless_literal :=
  let H := fresh in
  intros H; cbn in H; repeat (destruct H as [H|H]; [discriminate H|]); exact H.

(** Membership of a character in an alphabet, as the reverse tables of the
    decoders decide it. *)
Definition in_alphabet (alphabet : bytes) (c : Z) : bool :=
  match index c alphabet with
  | Some _ => true
  | None => false
  end.

(** A character that [a2b_base64] reads: the padding character or a digit of
    the alphabet. *)
Definition base64_read (c : Z) : bool :=
  (c =? binascii.BASE64_PAD) || in_alphabet binascii.table_b2a_base64 c.

(** A malformed Base64 payload in the words of the specification: a payload
    with an invalid character, one that is neither a digit of the alphabet
    nor the padding character. *)
Definition invalid_base64_characters (payload : str) : bool :=
  negb (forallb base64_read payload).

(** A hexadecimal digit, as [a2b_hex] reads it. *)
Definition is_hex_digit (c : Z) : bool := binascii.digit_value c <? 16.

(** A character that [a85decode] reads: a digit, [z] or white space. *)
Definition a85_read (c : Z) : bool :=
  ((33 <=? c) && (c <=? 117)) || (c =? 122)
  || existsb (Z.eqb c) base64.a85_ignorechars.

(** The message of [a2b_base64] for [n] digits, one more than a multiple of
    four. *)
Definition base64_count_message (n : Z) : str :=
  pystr "Invalid base64-encoded string: number of data characters ("
  ++ decimal n ++ pystr ") cannot be 1 more than a multiple of 4".

(** [Shell.enter_command_to_execute()] on a standard input whose reads may
    fail: each element of [reads] is what one call of [input] does, return a
    line or raise (a [UnicodeDecodeError] for a line that cannot be decoded,
    say). The call of [input] stands before the [try], so what it raises is
    not caught, whatever its class. *)
Fixpoint enter_command_to_execute_reading {python : Interpreter} (self : Shell)
  (reads : list (result str)) : list str * exception :=
  match reads with
  | [] => ([prompt], EOFError)
  | Raise error :: _ => ([prompt], error)
  | Ok user_input :: rest =>
      match execute_command self user_input with
      | (out, Ok _) =>
          let '(out', e) := enter_command_to_execute_reading self rest in
          (prompt :: out ++ out', e)
      | (out, Raise error) =>
          if is_CommandNameConversionError error || is_ValueError error then
            let '(out', e) := enter_command_to_execute_reading self rest in
            (prompt :: out ++ [exception_str error ++ [10]] ++ out', e)
          else (prompt :: out, error)
      end
  end.

(** [main()] on such an input. *)
Definition main_reading {python : Interpreter} (reads : list (result str))
  : list str * exception :=
  match Shell_init with
  | Ok shell =>
      let '(out, e) := enter_command_to_execute_reading shell reads in
      ((DOC ++ [10]) :: out, e)
  | Raise e => ([DOC ++ [10]], e)
  end.

(** * Properties *)

(** ** The character encoding round-trips *)

Module utf8_facts.
Import utf8.

Lemma decode_encode_char w p c rest :
  0 <= c <= 1114111 -> is_surrogate c = false ->
  exists p',
    decode_from w p (encode_char c ++ rest)
    = rbind (decode_from w p' rest) (fun r => Ok (c :: r)).
Proof.
  intros Hc Hs. unfold is_surrogate in Hs.
  apply andb_false_iff in Hs.
  rewrite Z.leb_gt, Z.leb_gt in Hs.
  unfold encode_char.
  destruct (Z.ltb_spec c 128).
  { exists (p + 1). cbn [app decode_from].
    destruct (Z.ltb_spec c 128); [reflexivity | lia]. }
  destruct (Z.ltb_spec c 2048).
  { exists (p + 2). cbn [app decode_from]. unfold is_continuation.
    pose proof (Z.div_mod c 64 ltac:(lia)).
    pose proof (Z.mod_pos_bound c 64 ltac:(lia)).
    decide_tests; cbn [negb orb andb]; try lia; same_char c. }
  destruct (Z.ltb_spec c 65536).
  { exists (p + 3). cbn [app decode_from]. unfold is_continuation.
    pose proof (Z.div_mod c 64 ltac:(lia)).
    pose proof (Z.mod_pos_bound c 64 ltac:(lia)).
    pose proof (Z.div_mod (c / 64) 64 ltac:(lia)).
    pose proof (Z.mod_pos_bound (c / 64) 64 ltac:(lia)).
    assert (c / 4096 = c / 64 / 64) by (rewrite Z.div_div by lia; reflexivity).
    decide_tests; cbn [negb orb andb]; try lia; same_char c. }
  exists (p + 4). cbn [app decode_from]. unfold is_continuation.
  pose proof (Z.div_mod c 64 ltac:(lia)).
  pose proof (Z.mod_pos_bound c 64 ltac:(lia)).
  pose proof (Z.div_mod (c / 64) 64 ltac:(lia)).
  pose proof (Z.mod_pos_bound (c / 64) 64 ltac:(lia)).
  pose proof (Z.div_mod (c / 4096) 64 ltac:(lia)).
  pose proof (Z.mod_pos_bound (c / 4096) 64 ltac:(lia)).
  assert (c / 4096 = c / 64 / 64) by (rewrite Z.div_div by lia; reflexivity).
  assert (c / 262144 = c / 4096 / 64) by (rewrite Z.div_div by lia; reflexivity).
  decide_tests; cbn [negb orb andb]; try lia; same_char c.
Qed.

Lemma decode_encode_from s :
  forall w p b, encode_from w p s = Ok b ->
  forall w' p', decode_from w' p' b = Ok s.
Proof.
  induction s as [|c r IH]; intros w p b H w' p'.
  - cbn in H. injection H as <-. reflexivity.
  - cbn [encode_from] in H.
    destruct (is_surrogate c) eqn:Hs; [discriminate|].
    destruct ((c <? 0) || (1114111 <? c)) eqn:Hr; [discriminate|].
    apply orb_false_iff in Hr. rewrite !Z.ltb_ge in Hr.
    destruct (encode_from w (p + 1) r) as [rest|e] eqn:Hrest; [|discriminate].
    cbn in H. injection H as <-.
    destruct (decode_encode_char w' p' c rest ltac:(lia) Hs) as [q ->].
    rewrite (IH _ _ _ Hrest). reflexivity.
Qed.

(** Text that [encode] accepts is what [decode] gives back. *)
Lemma decode_encode s b : encode s = Ok b -> decode b = Ok s.
Proof. intros H. exact (decode_encode_from s s 0 b H b 0). Qed.

(** The encoder only produces octets. *)
Lemma encode_char_octets c :
  0 <= c <= 1114111 -> Forall (fun b => 0 <= b < 256) (encode_char c).
Proof.
  intros Hc. unfold encode_char.
  pose proof (Z.mod_pos_bound c 64 ltac:(lia)).
  pose proof (Z.mod_pos_bound (c / 64) 64 ltac:(lia)).
  pose proof (Z.mod_pos_bound (c / 4096) 64 ltac:(lia)).
  assert (0 <= c / 64 < 32 \/ 2048 <= c) by
    (destruct (Z.ltb_spec c 2048); [left; split; [apply Z.div_pos; lia | apply Z.div_lt_upper_bound; lia] | right; lia]).
  assert (0 <= c / 4096 < 16 \/ 65536 <= c) by
    (destruct (Z.ltb_spec c 65536); [left; split; [apply Z.div_pos; lia | apply Z.div_lt_upper_bound; lia] | right; lia]).
  assert (0 <= c / 262144 < 8) by
    (split; [apply Z.div_pos; lia | apply Z.div_lt_upper_bound; lia]).
  decide_tests; repeat constructor; lia.
Qed.

Lemma encode_from_octets s :
  forall w p b, encode_from w p s = Ok b -> Forall (fun x => 0 <= x < 256) b.
Proof.
  induction s as [|c r IH]; intros w p b H.
  - cbn in H. injection H as <-. constructor.
  - cbn [encode_from] in H.
    destruct (is_surrogate c) eqn:Hs; [discriminate|].
    destruct ((c <? 0) || (1114111 <? c)) eqn:Hr; [discriminate|].
    apply orb_false_iff in Hr. rewrite !Z.ltb_ge in Hr.
    destruct (encode_from w (p + 1) r) as [rest|e] eqn:Hrest; [|discriminate].
    cbn in H. injection H as <-.
    apply Forall_app. split; [apply encode_char_octets; lia | eauto].
Qed.

Lemma encode_octets s b : encode s = Ok b -> Forall (fun x => 0 <= x < 256) b.
Proof. apply encode_from_octets. Qed.

End utf8_facts.

(** ** Facts shared by the codecs *)

Lemma below_spec n P :
  below n P = true -> forall i, 0 <= i < Z.of_nat n -> P i = true.
Proof.
  unfold below. rewrite forallb_forall. intros H i Hi.
  apply H. apply in_map_iff. exists (Z.to_nat i). split; [lia|].
  apply in_seq. lia.
Qed.

Section ListInduction.
  Context {A : Type} (P : list A -> Prop).

Lemma list_ind3 :
    P [] -> (forall a, P [a]) -> (forall a b, P [a; b]) ->
    (forall a b c r, P r -> P (a :: b :: c :: r)) ->
    forall l, P l.
  Proof.
    intros H0 H1 H2 H3. fix IH 1.
    intros [|a [|b [|c r]]]; [exact H0 | apply H1 | apply H2 | apply H3, IH].
  Qed.

Lemma list_ind4 :
    P [] -> (forall a, P [a]) -> (forall a b, P [a; b]) ->
    (forall a b c, P [a; b; c]) ->
    (forall a b c d r, P r -> P (a :: b :: c :: d :: r)) ->
    forall l, P l.
  Proof.
    intros H0 H1 H2 H3 H4. fix IH 1.
    intros [|a [|b [|c [|d r]]]]; [exact H0 | apply H1 | apply H2 | apply H3 | apply H4, IH].
  Qed.

Lemma list_ind5 :
    P [] -> (forall a, P [a]) -> (forall a b, P [a; b]) ->
    (forall a b c, P [a; b; c]) -> (forall a b c d, P [a; b; c; d]) ->
    (forall a b c d e r, P r -> P (a :: b :: c :: d :: e :: r)) ->
    forall l, P l.
  Proof.
    intros H0 H1 H2 H3 H4 H5. fix IH 1.
    intros [|a [|b [|c [|d [|e r]]]]]; [exact H0 | apply H1 | apply H2 | apply H3 | apply H4 | apply H5, IH].
  Qed.
End ListInduction.

Lemma octets_cons a r : octets (a :: r) <-> octet a /\ octets r.
Proof. unfold octets. split; [intros H; inversion H; auto | intros [? ?]; constructor; auto]. Qed.

(** ** Hexadecimal: [hexlify]/[unhexlify] and [b16encode]/[b16decode] *)

Module hex_facts.
Import binascii base64.

Lemma hex_ok_all c : octet c -> hex_ok c = true.
Proof. apply (below_spec 256). vm_compute. reflexivity. Qed.

Lemma a2b_hex_pairs_hexlify s : octets s -> a2b_hex_pairs (hexlify s) = Ok s.
Proof.
  induction 1 as [|c r Hc _ IH]; [reflexivity|].
  cbn [hexlify a2b_hex_pairs].
  pose proof (hex_ok_all c Hc) as H. unfold hex_ok in H.
  apply andb_prop in H as [H H3]. apply andb_prop in H as [H1 H2].
  apply Z.ltb_lt in H1, H2. apply Z.eqb_eq in H3.
  destruct (Z.leb_spec 16 (digit_value (item hexdigits (c / 16)))); [lia|].
  destruct (Z.leb_spec 16 (digit_value (item hexdigits (c mod 16)))); [lia|].
  cbn [orb]. rewrite IH. cbn [rbind]. rewrite H3. reflexivity.
Qed.

Lemma hexlify_length s : List.length (hexlify s) = (2 * List.length s)%nat.
Proof. induction s; cbn [hexlify List.length]; lia. Qed.

Lemma unhexlify_hexlify s : octets s -> unhexlify (Bytes (hexlify s)) = Ok s.
Proof.
  intros H. unfold unhexlify. cbn [ascii_buffer rbind].
  rewrite hexlify_length.
  replace (Z.odd (Z.of_nat (2 * List.length s))) with false.
  - apply a2b_hex_pairs_hexlify, H.
  - symmetry. rewrite Nat2Z.inj_mul. apply Z.odd_even.
Qed.

Lemma b16_ok_all c : octet c -> b16_ok c = true.
Proof. apply (below_spec 256). vm_compute. reflexivity. Qed.

Lemma b16encode_cons c r :
  b16encode (c :: r) = bytes_upper (hexlify [c]) ++ b16encode r.
Proof. reflexivity. Qed.

Lemma b16_digits s : octets s -> forallb is_base16_digit (b16encode s) = true.
Proof.
  induction 1 as [|c r Hc _ IH]; [reflexivity|].
  rewrite b16encode_cons, forallb_app, IH.
  pose proof (b16_ok_all c Hc) as H. unfold b16_ok in H.
  destruct (bytes_upper (hexlify [c])) as [|t [|b [|]]]; try discriminate.
  repeat (apply andb_prop in H as [H ?]).
  cbn [forallb]. rewrite H, H3. reflexivity.
Qed.

Lemma a2b_hex_pairs_b16 s : octets s -> a2b_hex_pairs (b16encode s) = Ok s.
Proof.
  induction 1 as [|c r Hc _ IH]; [reflexivity|].
  rewrite b16encode_cons.
  pose proof (b16_ok_all c Hc) as H. unfold b16_ok in H.
  destruct (bytes_upper (hexlify [c])) as [|t [|b [|]]]; try discriminate.
  repeat (apply andb_prop in H as [H ?]).
  cbn [app a2b_hex_pairs].
  apply Z.ltb_lt in H1, H2. apply Z.eqb_eq in H0.
  destruct (Z.leb_spec 16 (digit_value t)); [lia|].
  destruct (Z.leb_spec 16 (digit_value b)); [lia|].
  cbn [orb]. rewrite IH. cbn [rbind]. rewrite H0. reflexivity.
Qed.

Lemma b16encode_length s : List.length (b16encode s) = (2 * List.length s)%nat.
Proof. unfold b16encode, bytes_upper. rewrite length_map. apply hexlify_length. Qed.

Lemma b16decode_b16encode s : octets s -> b16decode (Bytes (b16encode s)) = Ok s.
Proof.
  intros H. unfold b16decode. cbn [_bytes_from_decode_data rbind].
  rewrite (b16_digits s H). cbn [negb].
  unfold unhexlify. cbn [ascii_buffer rbind].
  rewrite b16encode_length.
  replace (Z.odd (Z.of_nat (2 * List.length s))) with false.
  - apply a2b_hex_pairs_b16, H.
  - symmetry. rewrite Nat2Z.inj_mul. apply Z.odd_even.
Qed.

End hex_facts.

(** ** Base64 *)

Module b64_facts.
Import binascii base64.

Lemma sextet_ok_all i : 0 <= i < 64 -> sextet_ok i = true.
Proof. apply (below_spec 64). vm_compute. reflexivity. Qed.

Lemma sextet_not_pad i :
  0 <= i < 64 -> (item table_b2a_base64 i =? BASE64_PAD) = false.
Proof.
  intros Hi. pose proof (sextet_ok_all i Hi) as H. unfold sextet_ok in H.
  apply andb_prop in H as [H _]. now apply negb_true_iff in H.
Qed.

Lemma sextet_index i :
  0 <= i < 64 -> index (item table_b2a_base64 i) table_b2a_base64 = Some i.
Proof.
  intros Hi. pose proof (sextet_ok_all i Hi) as H. unfold sextet_ok in H.
  apply andb_prop in H as [_ H].
  destruct (index _ _) as [j|]; [|discriminate].
  apply Z.eqb_eq in H. now subst.
Qed.

(** One step of the decoding loop on a character of the alphabet. *)
Lemma loop_sextet i r q l p n :
  0 <= i < 64 ->
  a2b_base64_loop (item table_b2a_base64 i :: r) q l p n
  = if q =? 0 then a2b_base64_loop r 1 i 0 n
    else if q =? 1 then
      rbind (a2b_base64_loop r 2 (i mod 16) 0 (n + 1))
            (fun rest => Ok (l * 4 + i / 16 :: rest))
    else if q =? 2 then
      rbind (a2b_base64_loop r 3 (i mod 4) 0 (n + 1))
            (fun rest => Ok (l * 16 + i / 4 :: rest))
    else
      rbind (a2b_base64_loop r 0 0 0 (n + 1))
            (fun rest => Ok (l * 64 + i :: rest)).
Proof.
  intros Hi. cbn [a2b_base64_loop].
  rewrite (sextet_not_pad i Hi), (sextet_index i Hi). reflexivity.
Qed.

Lemma a2b_b2a s :
  octets s -> forall n, a2b_base64_loop (b2a_base64 s) 0 0 0 n = Ok s.
Proof.
  induction s as [|a|a b|a b c r IH] using list_ind3; intros Hs n.
  - reflexivity.
  - apply octets_cons in Hs as [Ha _]. unfold octet in Ha.
    cbn [b2a_base64].
    rewrite loop_sextet by zdiv. cbn [Z.eqb].
    rewrite loop_sextet by zdiv. cbn [Z.eqb Pos.eqb rbind].
    cbn. f_equal. f_equal. zdiv.
  - apply octets_cons in Hs as [Ha Hs]. apply octets_cons in Hs as [Hb _].
    unfold octet in Ha, Hb.
    cbn [b2a_base64].
    rewrite loop_sextet by zdiv. cbn [Z.eqb].
    rewrite loop_sextet by zdiv. cbn [Z.eqb Pos.eqb rbind].
    rewrite loop_sextet by zdiv. cbn [Z.eqb Pos.eqb rbind].
    cbn. f_equal. f_equal; [zdiv|]. f_equal. zdiv.
  - apply octets_cons in Hs as [Ha Hs]. apply octets_cons in Hs as [Hb Hs].
    apply octets_cons in Hs as [Hc Hs].
    unfold octet in Ha, Hb, Hc.
    cbn [b2a_base64].
    rewrite loop_sextet by zdiv. cbn [Z.eqb].
    rewrite loop_sextet by zdiv. cbn [Z.eqb Pos.eqb rbind].
    rewrite loop_sextet by zdiv. cbn [Z.eqb Pos.eqb rbind].
    rewrite loop_sextet by zdiv. cbn [Z.eqb Pos.eqb rbind].
    rewrite (IH Hs). cbn [rbind].
    f_equal. f_equal; [zdiv|]. f_equal; [zdiv|]. f_equal. zdiv.
Qed.

Lemma b64decode_b64encode s : octets s -> b64decode (Bytes (b64encode s)) = Ok s.
Proof. intros H. apply (a2b_b2a s H 0). Qed.

End b64_facts.

(** ** Base32, for either alphabet *)

Module b32_facts.
Import base64.

Lemma lstrip_pad_repeat k l : lstrip_pad (repeat 61 k ++ l) = lstrip_pad l.
Proof. induction k; [reflexivity|]. cbn. exact IHk. Qed.

Lemma rstrip_pad_body body k :
  Forall (fun c => (c =? 61) = false) body ->
  rstrip_pad (body ++ repeat 61 k) = body.
Proof.
  intros H. unfold rstrip_pad.
  rewrite rev_app_distr, rev_repeat, lstrip_pad_repeat.
  apply Forall_rev in H.
  destruct (rev body) as [|c r] eqn:E.
  - cbn. apply (f_equal (@rev Z)) in E. rewrite rev_involutive in E. now subst.
  - cbn [lstrip_pad]. inversion H as [|? ? Hc _]; subst. rewrite Hc.
    rewrite <- E. apply rev_involutive.
Qed.

Lemma quantum_value n :
  0 <= n < 1099511627776 ->
  (((((((0 * 32 + n / 2 ^ (5 * 7) mod 32) * 32 + n / 2 ^ (5 * 6) mod 32) * 32
       + n / 2 ^ (5 * 5) mod 32) * 32 + n / 2 ^ (5 * 4) mod 32) * 32
     + n / 2 ^ (5 * 3) mod 32) * 32 + n / 2 ^ (5 * 2) mod 32) * 32
   + n / 2 ^ (5 * 1) mod 32) * 32 + n / 2 ^ (5 * 0) mod 32 = n.
Proof.
  intros Hn.
  change (2 ^ (5 * 7)) with 34359738368. change (2 ^ (5 * 6)) with 1073741824.
  change (2 ^ (5 * 5)) with 33554432. change (2 ^ (5 * 4)) with 1048576.
  change (2 ^ (5 * 3)) with 32768. change (2 ^ (5 * 2)) with 1024.
  change (2 ^ (5 * 1)) with 32. change (2 ^ (5 * 0)) with 1.
  zdiv.
Qed.

Lemma to_bytes5_from_bytes a b c d e :
  octet a -> octet b -> octet c -> octet d -> octet e ->
  to_bytes5 (from_bytes [a; b; c; d; e]) = [a; b; c; d; e].
Proof.
  unfold octet, to_bytes5, from_bytes. cbn [fold_left]. intros.
  repeat f_equal; zdiv.
Qed.

Lemma Forall_firstn_of {A} (P : A -> Prop) n l :
  Forall P l -> Forall P (firstn n l).
Proof.
  intros H. revert n. induction H; intros [|n]; cbn; constructor; auto.
Qed.

Lemma last_6 acc :
  b32_last (to_bytes5 acc) acc 6 = Ok (firstn 1 (to_bytes5 (acc * 1073741824))).
Proof. reflexivity. Qed.

Lemma last_4 acc :
  b32_last (to_bytes5 acc) acc 4 = Ok (firstn 2 (to_bytes5 (acc * 1048576))).
Proof. reflexivity. Qed.

Lemma last_3 acc :
  b32_last (to_bytes5 acc) acc 3 = Ok (firstn 3 (to_bytes5 (acc * 32768))).
Proof. reflexivity. Qed.

Lemma last_1 acc :
  b32_last (to_bytes5 acc) acc 1 = Ok (firstn 4 (to_bytes5 (acc * 32))).
Proof. reflexivity. Qed.

Lemma drop_last_app n (x y : bytes) :
  (n <= List.length y)%nat -> drop_last n (x ++ y) = x ++ drop_last n y.
Proof.
  intros H. unfold drop_last. rewrite length_app.
  replace (List.length x + List.length y - n)%nat
    with (List.length x + (List.length y - n))%nat by lia.
  apply firstn_app_2.
Qed.

Lemma tail_6 n :
  0 <= n < 1099511627776 -> n mod 1073741824 = 0 ->
  ((0 * 32 + n / 34359738368 mod 32) * 32 + n / 1073741824 mod 32) * 1073741824
  = n.
Proof. intros. zdiv. Qed.

Lemma tail_4 n :
  0 <= n < 1099511627776 -> n mod 1048576 = 0 ->
  ((((0 * 32 + n / 34359738368 mod 32) * 32 + n / 1073741824 mod 32) * 32
    + n / 33554432 mod 32) * 32 + n / 1048576 mod 32) * 1048576 = n.
Proof. intros. zdiv. Qed.

Lemma tail_3 n :
  0 <= n < 1099511627776 -> n mod 32768 = 0 ->
  (((((0 * 32 + n / 34359738368 mod 32) * 32 + n / 1073741824 mod 32) * 32
     + n / 33554432 mod 32) * 32 + n / 1048576 mod 32) * 32
   + n / 32768 mod 32) * 32768 = n.
Proof. intros. zdiv. Qed.

Lemma tail_1 n :
  0 <= n < 1099511627776 -> n mod 32 = 0 ->
  (((((((0 * 32 + n / 34359738368 mod 32) * 32 + n / 1073741824 mod 32) * 32
       + n / 33554432 mod 32) * 32 + n / 1048576 mod 32) * 32
     + n / 32768 mod 32) * 32 + n / 1024 mod 32) * 32 + n / 32 mod 32) * 32 = n.
Proof. intros. zdiv. Qed.

Section Alphabet.
  Variable alphabet : bytes.
  Hypothesis alphabet_index :
    forall i, 0 <= i < 32 -> index (item alphabet i) alphabet = Some i.
  Hypothesis alphabet_not_pad :
    forall i, 0 <= i < 32 -> (item alphabet i =? 61) = false.

Lemma encode_split s : _b32encode alphabet s = b32_body alphabet s ++ repeat 61 (b32_npad s).
  Proof.
    induction s as [|a|a b|a b c|a b c d|a b c d e r IH] using list_ind5;
      try reflexivity.
    cbn [_b32encode b32_body b32_npad].
    rewrite IH. apply app_assoc.
  Qed.

Lemma quantum_not_pad n :
    Forall (fun c => (c =? 61) = false) (b32_quantum alphabet n).
  Proof.
    unfold b32_quantum. apply Forall_map, Forall_forall. intros k _.
    apply alphabet_not_pad, Z.mod_pos_bound. lia.
  Qed.

Lemma body_not_pad s : Forall (fun c => (c =? 61) = false) (b32_body alphabet s).
  Proof.
    induction s as [|a|a b|a b c|a b c d|a b c d e r IH] using list_ind5;
       cbn [b32_body];
      try (apply Forall_firstn_of, quantum_not_pad).
    - constructor.
    - apply Forall_app. split; [apply quantum_not_pad | exact IH].
  Qed.

Lemma body_length s :
    exists k, (List.length (b32_body alphabet s) + b32_npad s = 8 * k)%nat.
  Proof.
    induction s as [|a|a b|a b c|a b c d|a b c d e r [k IH]] using list_ind5;
      
      try (exists 1%nat; reflexivity).
    - exists 0%nat. reflexivity.
    - exists (S k). cbn [b32_body b32_npad]. rewrite length_app.
      change (List.length (b32_quantum alphabet (from_bytes [a; b; c; d; e])))
        with 8%nat. lia.
  Qed.

Lemma acc_cons i acc r :
    0 <= i < 32 ->
    b32_acc alphabet acc (item alphabet i :: r) = b32_acc alphabet (acc * 32 + i) r.
  Proof. intros Hi. cbn [b32_acc]. now rewrite alphabet_index. Qed.

  (** A full quantum read by the loop. *)
Lemma quanta_full a b c d e rest last :
    octet a -> octet b -> octet c -> octet d -> octet e ->
    b32_quanta alphabet (b32_quantum alphabet (from_bytes [a; b; c; d; e]) ++ rest) last
    = rbind (b32_quanta alphabet rest (from_bytes [a; b; c; d; e]))
        (fun r => Ok ([a; b; c; d; e] ++ fst r, snd r)).
  Proof.
    intros Ha Hb Hc Hd He.
    assert (Hn : 0 <= from_bytes [a; b; c; d; e] < 1099511627776)
      by (unfold octet, from_bytes in *; cbn [fold_left]; lia).
    set (n := from_bytes [a; b; c; d; e]) in *.
    unfold b32_quantum. cbn [map app b32_quanta].
    rewrite !acc_cons by (apply Z.mod_pos_bound; lia).
    cbn [b32_acc rbind].
    rewrite (quantum_value n Hn).
    unfold n at 2. rewrite to_bytes5_from_bytes by assumption.
    reflexivity.
  Qed.

Lemma quanta_body s :
    octets s -> forall last, exists D A,
      b32_quanta alphabet (b32_body alphabet s) last = Ok (D, A)
      /\ b32_last D A (Z.of_nat (b32_npad s)) = Ok s
      /\ (b32_npad s = 0%nat \/ (5 <= List.length D)%nat).
  Proof.
    induction s as [|a|a b|a b c|a b c d|a b c d e r IH] using list_ind5;
      intros Hs last.
    - exists [], last. repeat split; auto.
    - apply octets_cons in Hs as [Ha _]. unfold octet in Ha.
       cbn [b32_body b32_quantum map firstn b32_quanta].
      rewrite !acc_cons by (apply Z.mod_pos_bound; lia).
      cbn [b32_acc rbind]. eexists _, _. split; [reflexivity|].
      split; [|right; cbn; lia].
      change (Z.of_nat (b32_npad [a])) with 6. rewrite last_6. norm_pow. rewrite tail_6 by from_bytes_arith.
      rewrite to_bytes5_from_bytes by (unfold octet; lia). reflexivity.
    - apply octets_cons in Hs as [Ha Hs]. apply octets_cons in Hs as [Hb _].
      unfold octet in Ha, Hb.
       cbn [b32_body b32_quantum map firstn b32_quanta].
      rewrite !acc_cons by (apply Z.mod_pos_bound; lia).
      cbn [b32_acc rbind]. eexists _, _. split; [reflexivity|].
      split; [|right; cbn; lia].
      change (Z.of_nat (b32_npad [a; b])) with 4. rewrite last_4. norm_pow. rewrite tail_4 by from_bytes_arith.
      rewrite to_bytes5_from_bytes by (unfold octet; lia). reflexivity.
    - apply octets_cons in Hs as [Ha Hs]. apply octets_cons in Hs as [Hb Hs].
      apply octets_cons in Hs as [Hc _].
      unfold octet in Ha, Hb, Hc.
       cbn [b32_body b32_quantum map firstn b32_quanta].
      rewrite !acc_cons by (apply Z.mod_pos_bound; lia).
      cbn [b32_acc rbind]. eexists _, _. split; [reflexivity|].
      split; [|right; cbn; lia].
      change (Z.of_nat (b32_npad [a; b; c])) with 3. rewrite last_3. norm_pow. rewrite tail_3 by from_bytes_arith.
      rewrite to_bytes5_from_bytes by (unfold octet; lia). reflexivity.
    - apply octets_cons in Hs as [Ha Hs]. apply octets_cons in Hs as [Hb Hs].
      apply octets_cons in Hs as [Hc Hs]. apply octets_cons in Hs as [Hd _].
      unfold octet in Ha, Hb, Hc, Hd.
       cbn [b32_body b32_quantum map firstn b32_quanta].
      rewrite !acc_cons by (apply Z.mod_pos_bound; lia).
      cbn [b32_acc rbind]. eexists _, _. split; [reflexivity|].
      split; [|right; cbn; lia].
      change (Z.of_nat (b32_npad [a; b; c; d])) with 1. rewrite last_1. norm_pow. rewrite tail_1 by from_bytes_arith.
      rewrite to_bytes5_from_bytes by (unfold octet; lia). reflexivity.
    - apply octets_cons in Hs as [Ha Hs]. apply octets_cons in Hs as [Hb Hs].
      apply octets_cons in Hs as [Hc Hs]. apply octets_cons in Hs as [Hd Hs].
      apply octets_cons in Hs as [He Hs].
       cbn [b32_body b32_npad].
      rewrite quanta_full by assumption.
      destruct (IH Hs (from_bytes [a; b; c; d; e])) as (D & A & H1 & H2 & H3).
      rewrite H1. cbn [rbind fst snd].
      exists ([a; b; c; d; e] ++ D), A. split; [reflexivity|].
      split; [|right; rewrite length_app; cbn; lia].
      revert H2. unfold b32_last.
      destruct (negb (existsb _ _)); [discriminate|].
      destruct H3 as [H3|H3].
      + rewrite H3. cbn [Z.of_nat Z.eqb negb andb].
        intros [= ->]. reflexivity.
      + generalize (Z.of_nat (b32_npad r)). intros p.
        destruct (p =? 0); cbn [negb andb].
        * intros [= ->]. reflexivity.
        * rewrite length_app.
          destruct (Nat.eqb_spec (List.length D) 0); [lia|].
          destruct (Nat.eqb_spec (List.length [a; b; c; d; e] + List.length D) 0);
            [lia|].
          cbn [negb]. intros [= <-].
          rewrite (drop_last_app 5 [a; b; c; d; e]) by exact H3.
          reflexivity.
  Qed.

Theorem b32_decode_encode s : octets s -> _b32decode alphabet (Bytes (_b32encode alphabet s)) = Ok s.
  Proof.
    intros Hs. unfold _b32decode. cbn [_bytes_from_decode_data rbind].
    rewrite encode_split.
    destruct (body_length s) as [k Hk].
    rewrite (rstrip_pad_body _ _ (body_not_pad s)).
    rewrite length_app, repeat_length, Hk.
    replace (Z.of_nat (8 * k) mod 8 =? 0) with true
      by (symmetry; apply Z.eqb_eq; rewrite Nat2Z.inj_mul, Z.mul_comm;
          apply Z.mod_mul; lia).
    cbn [negb].
    replace (Z.of_nat (8 * k) - Z.of_nat (List.length (b32_body alphabet s)))
      with (Z.of_nat (b32_npad s)) by lia.
    destruct (quanta_body s Hs 0) as (D & A & H1 & H2 & _).
    rewrite H1. exact H2.
  Qed.
End Alphabet.

Lemma alphabet_ok_index alphabet :
  below 32 (alphabet_ok alphabet) = true ->
  forall i, 0 <= i < 32 -> index (item alphabet i) alphabet = Some i.
Proof.
  intros H i Hi. pose proof (below_spec 32 _ H i Hi) as Hok.
  unfold alphabet_ok in Hok. apply andb_prop in Hok as [_ Hok].
  destruct (index _ _) as [j|]; [|discriminate].
  apply Z.eqb_eq in Hok. now subst.
Qed.

Lemma alphabet_ok_not_pad alphabet :
  below 32 (alphabet_ok alphabet) = true ->
  forall i, 0 <= i < 32 -> (item alphabet i =? 61) = false.
Proof.
  intros H i Hi. pose proof (below_spec 32 _ H i Hi) as Hok.
  unfold alphabet_ok in Hok. apply andb_prop in Hok as [Hok _].
  now apply negb_true_iff in Hok.
Qed.

Lemma b32decode_b32encode s : octets s -> b32decode (Bytes (b32encode s)) = Ok s.
Proof.
  apply (b32_decode_encode _b32alphabet).
  - apply alphabet_ok_index. vm_compute. reflexivity.
  - apply alphabet_ok_not_pad. vm_compute. reflexivity.
Qed.

Lemma b32hexdecode_b32hexencode s :
  octets s -> b32hexdecode (Bytes (b32hexencode s)) = Ok s.
Proof.
  apply (b32_decode_encode _b32hexalphabet).
  - apply alphabet_ok_index. vm_compute. reflexivity.
  - apply alphabet_ok_not_pad. vm_compute. reflexivity.
Qed.

End b32_facts.

(** ** Ascii85 and base85 *)

Module b85_facts.
Import base64.

Lemma digits85 w :
  0 <= w < 4294967296 ->
  0 <= w / 614125 / 85 < 85 /\ 0 <= (w / 614125) mod 85 < 85
  /\ 0 <= (w / 85 mod 7225) / 85 < 85 /\ 0 <= (w / 85 mod 7225) mod 85 < 85
  /\ 0 <= w mod 85 < 85.
Proof. intros. zdiv. Qed.

Lemma value85 w :
  0 <= w < 4294967296 ->
  ((((0 * 85 + w / 614125 / 85) * 85 + (w / 614125) mod 85) * 85
    + (w / 85 mod 7225) / 85) * 85 + (w / 85 mod 7225) mod 85) * 85 + w mod 85
  = w.
Proof. intros. zdiv. Qed.

(** The digits kept when the last word is cut, followed by the largest
    digit: the value stays within the same octets. *)
Lemma cut3 w :
  0 <= w < 4294967296 ->
  ((((0 * 85 + w / 614125 / 85) * 85 + (w / 614125) mod 85) * 85 + 84) * 85
   + 84) * 85 + 84 = w - w mod 614125 + 614124.
Proof. intros. zdiv. Qed.

Lemma cut2 w :
  0 <= w < 4294967296 ->
  ((((0 * 85 + w / 614125 / 85) * 85 + (w / 614125) mod 85) * 85
    + (w / 85 mod 7225) / 85) * 85 + 84) * 85 + 84 = w - w mod 7225 + 7224.
Proof. intros. zdiv. Qed.

Lemma cut1 w :
  0 <= w < 4294967296 ->
  ((((0 * 85 + w / 614125 / 85) * 85 + (w / 614125) mod 85) * 85
    + (w / 85 mod 7225) / 85) * 85 + (w / 85 mod 7225) mod 85) * 85 + 84
  = w - w mod 85 + 84.
Proof. intros. zdiv. Qed.

Lemma byte_at x k q b :
  0 < k -> 0 <= b < 256 ->
  (q * 256 + b) * k <= x < (q * 256 + b + 1) * k ->
  x / k mod 256 = b.
Proof.
  intros Hk Hb Hx.
  replace (x / k) with (q * 256 + b).
  - rewrite Z.add_comm, Z.mod_add by lia. apply Z.mod_small. lia.
  - apply Z.div_unique with (r := x - (q * 256 + b) * k); nia.
Qed.

Lemma packI_from_bytes a b c d :
  octet a -> octet b -> octet c -> octet d ->
  packI (from_bytes [a; b; c; d]) = [a; b; c; d].
Proof.
  unfold octet, packI, from_bytes. cbn [fold_left]. intros.
  repeat (apply (f_equal2 (@cons Z)); [zdiv|]). reflexivity.
Qed.

Lemma a85_digit d r curr :
  0 <= d < 85 ->
  a85_loop (33 + d :: r) curr
  = if Nat.eqb (List.length (curr ++ [33 + d])) 5 then
      if 4294967295 <? fold_left (fun acc x => 85 * acc + (x - 33)) (curr ++ [33 + d]) 0
      then Raise (ValueError (pystr "Ascii85 overflow"))
      else rbind (a85_loop r [])
             (fun rest =>
                Ok (packI (fold_left (fun acc x => 85 * acc + (x - 33))
                             (curr ++ [33 + d]) 0) ++ fst rest, snd rest))
    else a85_loop r (curr ++ [33 + d]).
Proof.
  intros Hd. cbn [a85_loop].
  destruct (Z.leb_spec 33 (33 + d)); [|lia].
  destruct (Z.leb_spec (33 + d) 117); [|lia].
  reflexivity.
Qed.

Lemma a85_value w :
  0 <= w < 4294967296 ->
  85 * (85 * (85 * (85 * (85 * 0 + (33 + w / 614125 / 85 - 33))
                    + (33 + (w / 614125) mod 85 - 33))
              + (33 + (w / 85 mod 7225) / 85 - 33))
        + (33 + (w / 85 mod 7225) mod 85 - 33)) + (33 + w mod 85 - 33) = w.
Proof. intros. zdiv. Qed.

(** A word of five digits read by the loop of [a85decode]. *)
Lemma a85_word w rest :
  0 <= w < 4294967296 ->
  a85_loop (word85 (fun i => 33 + i) w ++ rest) []
  = rbind (a85_loop rest []) (fun r => Ok (packI w ++ fst r, snd r)).
Proof.
  intros Hw. destruct (digits85 w Hw) as (H0 & H1 & H2 & H3 & H4).
  unfold word85. cbv beta zeta. cbn [app].
  repeat (rewrite a85_digit by assumption; cbn [app List.length Nat.eqb]).
  cbn [fold_left].
  rewrite (a85_value w Hw).
  destruct (Z.ltb_spec 4294967295 w); [lia|]. reflexivity.
Qed.

Lemma a85_chunk w rest :
  0 <= w < 4294967296 ->
  a85_loop (chunk85 (fun i => 33 + i) true w ++ rest) []
  = rbind (a85_loop rest []) (fun r => Ok (packI w ++ fst r, snd r)).
Proof.
  intros Hw. unfold chunk85. cbn [andb].
  destruct (Z.eqb_spec w 0) as [->|_]; [reflexivity|].
  apply a85_word, Hw.
Qed.

Lemma last85_a85 p w :
  last85 (fun i => 33 + i) true p w
  = firstn (5 - p) (word85 (fun i => 33 + i) w).
Proof.
  unfold last85, chunk85. cbn [andb].
  destruct (Z.eqb_spec w 0) as [->|_]; [reflexivity|].
  unfold word85. cbv beta zeta. cbn [str_eqb pystr list_ascii_of_string map].
  rewrite andb_false_r. reflexivity.
Qed.

Lemma a85_cut3 w :
  0 <= w < 4294967296 ->
  85 * (85 * (85 * (85 * (85 * 0 + (33 + w / 614125 / 85 - 33))
                    + (33 + (w / 614125) mod 85 - 33))
              + (33 + 84 - 33)) + (33 + 84 - 33)) + (33 + 84 - 33)
  = w - w mod 614125 + 614124.
Proof. intros. zdiv. Qed.

Lemma a85_cut2 w :
  0 <= w < 4294967296 ->
  85 * (85 * (85 * (85 * (85 * 0 + (33 + w / 614125 / 85 - 33))
                    + (33 + (w / 614125) mod 85 - 33))
              + (33 + (w / 85 mod 7225) / 85 - 33))
        + (33 + 84 - 33)) + (33 + 84 - 33)
  = w - w mod 7225 + 7224.
Proof. intros. zdiv. Qed.

Lemma a85_cut1 w :
  0 <= w < 4294967296 ->
  85 * (85 * (85 * (85 * (85 * 0 + (33 + w / 614125 / 85 - 33))
                    + (33 + (w / 614125) mod 85 - 33))
              + (33 + (w / 85 mod 7225) / 85 - 33))
        + (33 + (w / 85 mod 7225) mod 85 - 33)) + (33 + 84 - 33)
  = w - w mod 85 + 84.
Proof. intros. zdiv. Qed.

Lemma a85_loop_encode s :
  octets s ->
  exists D C,
    a85_loop (a85encode s ++ pystr "uuuu") [] = Ok (D, C)
    /\ (4 - List.length C <= List.length D)%nat
    /\ (if negb (Nat.eqb (4 - List.length C) 0)
        then drop_last (4 - List.length C) D else D) = s.
Proof.
  unfold a85encode.
  induction s as [|a|a b|a b c|a b c d r IH] using list_ind4; intros Hs.
  - exists [], (pystr "uuuu"). repeat split; cbn; lia.
  - apply octets_cons in Hs as [Ha _]. unfold octet in Ha.
    cbn [_85encode]. rewrite last85_a85.
    assert (Hw : 0 <= from_bytes [a; 0; 0; 0] < 4294967296)
      by (unfold from_bytes; cbn [fold_left]; lia).
    destruct (digits85 _ Hw) as (H0 & H1 & H2 & H3 & H4).
    assert (Hw' : from_bytes [a; 0; 0; 0] = a * 16777216)
      by (unfold from_bytes; cbn [fold_left]; lia).
    set (w := from_bytes [a; 0; 0; 0]) in *.
    unfold word85. cbv beta zeta.
    change (pystr "uuuu") with [33 + 84; 33 + 84; 33 + 84; 33 + 84].
    cbn [Nat.sub firstn app].
    repeat (rewrite a85_digit by (assumption || lia);
            cbn [app List.length Nat.eqb]).
    cbn [fold_left].
    rewrite (a85_cut3 w Hw).
    pose proof (Z.mod_pos_bound w 614125 ltac:(lia)) as Hm.
    assert (Hacc : w <= w - w mod 614125 + 614124 < w + 614125) by lia.
    set (acc := w - w mod 614125 + 614124) in *.
    destruct (Z.ltb_spec 4294967295 acc); [lia|].
    exists (packI acc), [117]. split; [reflexivity|].
    split; [cbn; lia|].
    unfold packI, drop_last. cbn [List.length Nat.sub Nat.eqb negb firstn].
    f_equal. apply (byte_at acc 16777216 0 a); lia.
  - apply octets_cons in Hs as [Ha Hs]. apply octets_cons in Hs as [Hb _].
    unfold octet in Ha, Hb.
    cbn [_85encode]. rewrite last85_a85.
    assert (Hw : 0 <= from_bytes [a; b; 0; 0] < 4294967296)
      by (unfold from_bytes; cbn [fold_left]; lia).
    destruct (digits85 _ Hw) as (H0 & H1 & H2 & H3 & H4).
    assert (Hw' : from_bytes [a; b; 0; 0] = (a * 256 + b) * 65536)
      by (unfold from_bytes; cbn [fold_left]; lia).
    set (w := from_bytes [a; b; 0; 0]) in *.
    unfold word85. cbv beta zeta.
    change (pystr "uuuu") with [33 + 84; 33 + 84; 33 + 84; 33 + 84].
    cbn [Nat.sub firstn app].
    repeat (rewrite a85_digit by (assumption || lia);
            cbn [app List.length Nat.eqb]).
    cbn [fold_left].
    rewrite (a85_cut2 w Hw).
    pose proof (Z.mod_pos_bound w 7225 ltac:(lia)) as Hm.
    assert (Hacc : w <= w - w mod 7225 + 7224 < w + 7225) by lia.
    set (acc := w - w mod 7225 + 7224) in *.
    destruct (Z.ltb_spec 4294967295 acc); [lia|].
    exists (packI acc), [117; 117]. split; [reflexivity|].
    split; [cbn; lia|].
    unfold packI, drop_last. cbn [List.length Nat.sub Nat.eqb negb firstn].
    f_equal; [apply (byte_at acc 16777216 0 a); lia|].
    f_equal. apply (byte_at acc 65536 a b); lia.
  - apply octets_cons in Hs as [Ha Hs]. apply octets_cons in Hs as [Hb Hs].
    apply octets_cons in Hs as [Hc _].
    unfold octet in Ha, Hb, Hc.
    cbn [_85encode]. rewrite last85_a85.
    assert (Hw : 0 <= from_bytes [a; b; c; 0] < 4294967296)
      by (unfold from_bytes; cbn [fold_left]; lia).
    destruct (digits85 _ Hw) as (H0 & H1 & H2 & H3 & H4).
    assert (Hw' : from_bytes [a; b; c; 0] = ((a * 256 + b) * 256 + c) * 256)
      by (unfold from_bytes; cbn [fold_left]; lia).
    set (w := from_bytes [a; b; c; 0]) in *.
    unfold word85. cbv beta zeta.
    change (pystr "uuuu") with [33 + 84; 33 + 84; 33 + 84; 33 + 84].
    cbn [Nat.sub firstn app].
    repeat (rewrite a85_digit by (assumption || lia);
            cbn [app List.length Nat.eqb]).
    cbn [fold_left].
    rewrite (a85_cut1 w Hw).
    pose proof (Z.mod_pos_bound w 85 ltac:(lia)) as Hm.
    assert (Hacc : w <= w - w mod 85 + 84 < w + 85) by lia.
    set (acc := w - w mod 85 + 84) in *.
    destruct (Z.ltb_spec 4294967295 acc); [lia|].
    exists (packI acc), [117; 117; 117]. split; [reflexivity|].
    split; [cbn; lia|].
    unfold packI, drop_last. cbn [List.length Nat.sub Nat.eqb negb firstn].
    f_equal; [apply (byte_at acc 16777216 0 a); lia|].
    f_equal; [apply (byte_at acc 65536 a b); lia|].
    f_equal. apply (byte_at acc 256 (a * 256 + b) c); lia.
  - apply octets_cons in Hs as [Ha Hs]. apply octets_cons in Hs as [Hb Hs].
    apply octets_cons in Hs as [Hc Hs]. apply octets_cons in Hs as [Hd Hs].
    cbn [_85encode]. rewrite <- app_assoc.
    assert (Hw : 0 <= from_bytes [a; b; c; d] < 4294967296)
      by (unfold octet, from_bytes in *; cbn [fold_left]; lia).
    rewrite (a85_chunk _ _ Hw).
    destruct (IH Hs) as (D & C & H1 & H2 & H3).
    rewrite H1. cbn [rbind fst snd].
    rewrite packI_from_bytes by assumption.
    exists ([a; b; c; d] ++ D), C. split; [reflexivity|].
    split; [rewrite length_app; lia|].
    destruct (negb (Nat.eqb (4 - List.length C) 0)).
    + rewrite b32_facts.drop_last_app by exact H2. now rewrite H3.
    + now rewrite H3.
Qed.

Theorem a85decode_a85encode s : octets s -> a85decode (Bytes (a85encode s)) = Ok s.
Proof.
  intros Hs. unfold a85decode. cbn [_bytes_from_decode_data rbind].
  destruct (a85_loop_encode s Hs) as (D & C & H1 & _ & H3).
  rewrite H1. cbn [rbind fst snd].
  destruct (negb (Nat.eqb (4 - List.length C) 0)); now rewrite H3.
Qed.

Lemma b85_index d :
  0 <= d < 85 -> index (item _b85alphabet d) _b85alphabet = Some d.
Proof.
  intros Hd. pose proof (below_spec 85 b85_ok eq_refl d Hd) as H.
  unfold b85_ok in H. destruct (index _ _) as [j|]; [|discriminate].
  apply Z.eqb_eq in H. now subst.
Qed.

Lemma b85_acc_digit i j acc d r :
  0 <= d < 85 ->
  b85_acc i j acc (item _b85alphabet d :: r) = b85_acc i (j + 1) (acc * 85 + d) r.
Proof. intros Hd. cbn [b85_acc]. now rewrite b85_index. Qed.

Lemma b85_acc_tilde i j acc r :
  b85_acc i j acc (126 :: r) = b85_acc i (j + 1) (acc * 85 + 84) r.
Proof. reflexivity. Qed.

Lemma b85_word i w rest :
  0 <= w < 4294967296 ->
  b85_chunks i (word85 (item _b85alphabet) w ++ rest)
  = rbind (b85_chunks (i + 5) rest) (fun r => Ok (packI w ++ r)).
Proof.
  intros Hw. destruct (digits85 w Hw) as (H0 & H1 & H2 & H3 & H4).
  unfold word85. cbv zeta. cbn [app b85_chunks].
  rewrite !b85_acc_digit by assumption.
  cbn [b85_acc rbind]. rewrite (value85 w Hw).
  destruct (Z.ltb_spec 4294967295 w); [lia|]. reflexivity.
Qed.

Lemma last85_b85 p w :
  last85 (item _b85alphabet) false p w
  = firstn (5 - p) (word85 (item _b85alphabet) w).
Proof.
  unfold last85, chunk85. cbn [andb].
  unfold word85. cbv zeta. cbn [str_eqb pystr list_ascii_of_string map].
  rewrite andb_false_r. reflexivity.
Qed.

Lemma pad5 n :
  Z.to_nat ((- Z.of_nat (5 + n)) mod 5) = Z.to_nat ((- Z.of_nat n) mod 5).
Proof.
  f_equal. rewrite Nat2Z.inj_add.
  replace (- (Z.of_nat 5 + Z.of_nat n)) with (- Z.of_nat n + (-1) * 5) by lia.
  apply Z.mod_add. lia.
Qed.

Lemma b85_chunks_encode s :
  octets s -> forall i,
  exists R,
    b85_chunks i
      (b85encode s
       ++ repeat 126 (Z.to_nat ((- Z.of_nat (List.length (b85encode s))) mod 5)))
    = Ok R
    /\ (Z.to_nat ((- Z.of_nat (List.length (b85encode s))) mod 5)
        <= List.length R)%nat
    /\ (if negb (Nat.eqb
                   (Z.to_nat ((- Z.of_nat (List.length (b85encode s))) mod 5)) 0)
        then drop_last
               (Z.to_nat ((- Z.of_nat (List.length (b85encode s))) mod 5)) R
        else R) = s.
Proof.
  unfold b85encode.
  induction s as [|a|a b|a b c|a b c d r IH] using list_ind4; intros Hs i.
  - exists []. repeat split; cbn; lia.
  - apply octets_cons in Hs as [Ha _]. unfold octet in Ha.
    cbn [_85encode]. rewrite last85_b85.
    assert (Hw : 0 <= from_bytes [a; 0; 0; 0] < 4294967296)
      by (unfold from_bytes; cbn [fold_left]; lia).
    destruct (digits85 _ Hw) as (H0 & H1 & H2 & H3 & H4).
    assert (Hw' : from_bytes [a; 0; 0; 0] = a * 16777216)
      by (unfold from_bytes; cbn [fold_left]; lia).
    set (w := from_bytes [a; 0; 0; 0]) in *.
    unfold word85. cbv zeta.
    cbn [Nat.sub firstn app List.length].
    change (Z.to_nat ((- Z.of_nat 2) mod 5)) with 3%nat.
    cbn [repeat app b85_chunks].
    rewrite !b85_acc_digit by assumption. rewrite !b85_acc_tilde.
    cbn [b85_acc rbind].
    rewrite (cut3 w Hw).
    pose proof (Z.mod_pos_bound w 614125 ltac:(lia)) as Hm.
    assert (Hacc : w <= w - w mod 614125 + 614124 < w + 614125) by lia.
    set (acc := w - w mod 614125 + 614124) in *.
    destruct (Z.ltb_spec 4294967295 acc); [lia|].
    exists (packI acc). split; [reflexivity|].
    split; [cbn; lia|].
    unfold packI, drop_last. cbn [List.length Nat.sub Nat.eqb negb firstn].
    f_equal. apply (byte_at acc 16777216 0 a); lia.
  - apply octets_cons in Hs as [Ha Hs]. apply octets_cons in Hs as [Hb _].
    unfold octet in Ha, Hb.
    cbn [_85encode]. rewrite last85_b85.
    assert (Hw : 0 <= from_bytes [a; b; 0; 0] < 4294967296)
      by (unfold from_bytes; cbn [fold_left]; lia).
    destruct (digits85 _ Hw) as (H0 & H1 & H2 & H3 & H4).
    assert (Hw' : from_bytes [a; b; 0; 0] = (a * 256 + b) * 65536)
      by (unfold from_bytes; cbn [fold_left]; lia).
    set (w := from_bytes [a; b; 0; 0]) in *.
    unfold word85. cbv zeta.
    cbn [Nat.sub firstn app List.length].
    change (Z.to_nat ((- Z.of_nat 3) mod 5)) with 2%nat.
    cbn [repeat app b85_chunks].
    rewrite !b85_acc_digit by assumption. rewrite !b85_acc_tilde.
    cbn [b85_acc rbind].
    rewrite (cut2 w Hw).
    pose proof (Z.mod_pos_bound w 7225 ltac:(lia)) as Hm.
    assert (Hacc : w <= w - w mod 7225 + 7224 < w + 7225) by lia.
    set (acc := w - w mod 7225 + 7224) in *.
    destruct (Z.ltb_spec 4294967295 acc); [lia|].
    exists (packI acc). split; [reflexivity|].
    split; [cbn; lia|].
    unfold packI, drop_last. cbn [List.length Nat.sub Nat.eqb negb firstn].
    f_equal; [apply (byte_at acc 16777216 0 a); lia|].
    f_equal. apply (byte_at acc 65536 a b); lia.
  - apply octets_cons in Hs as [Ha Hs]. apply octets_cons in Hs as [Hb Hs].
    apply octets_cons in Hs as [Hc _].
    unfold octet in Ha, Hb, Hc.
    cbn [_85encode]. rewrite last85_b85.
    assert (Hw : 0 <= from_bytes [a; b; c; 0] < 4294967296)
      by (unfold from_bytes; cbn [fold_left]; lia).
    destruct (digits85 _ Hw) as (H0 & H1 & H2 & H3 & H4).
    assert (Hw' : from_bytes [a; b; c; 0] = ((a * 256 + b) * 256 + c) * 256)
      by (unfold from_bytes; cbn [fold_left]; lia).
    set (w := from_bytes [a; b; c; 0]) in *.
    unfold word85. cbv zeta.
    cbn [Nat.sub firstn app List.length].
    change (Z.to_nat ((- Z.of_nat 4) mod 5)) with 1%nat.
    cbn [repeat app b85_chunks].
    rewrite !b85_acc_digit by assumption. rewrite !b85_acc_tilde.
    cbn [b85_acc rbind].
    rewrite (cut1 w Hw).
    pose proof (Z.mod_pos_bound w 85 ltac:(lia)) as Hm.
    assert (Hacc : w <= w - w mod 85 + 84 < w + 85) by lia.
    set (acc := w - w mod 85 + 84) in *.
    destruct (Z.ltb_spec 4294967295 acc); [lia|].
    exists (packI acc). split; [reflexivity|].
    split; [cbn; lia|].
    unfold packI, drop_last. cbn [List.length Nat.sub Nat.eqb negb firstn].
    f_equal; [apply (byte_at acc 16777216 0 a); lia|].
    f_equal; [apply (byte_at acc 65536 a b); lia|].
    f_equal. apply (byte_at acc 256 (a * 256 + b) c); lia.
  - apply octets_cons in Hs as [Ha Hs]. apply octets_cons in Hs as [Hb Hs].
    apply octets_cons in Hs as [Hc Hs]. apply octets_cons in Hs as [Hd Hs].
    cbn [_85encode]. unfold chunk85. cbn [andb].
    rewrite length_app.
    change (List.length (word85 (item _b85alphabet) (from_bytes [a; b; c; d])))
      with 5%nat.
    rewrite pad5. rewrite <- app_assoc.
    assert (Hw : 0 <= from_bytes [a; b; c; d] < 4294967296)
      by (unfold octet, from_bytes in *; cbn [fold_left]; lia).
    rewrite (b85_word _ _ _ Hw).
    destruct (IH Hs (i + 5)) as (R & H1 & H2 & H3).
    rewrite H1. cbn [rbind].
    rewrite packI_from_bytes by assumption.
    exists ([a; b; c; d] ++ R). split; [reflexivity|].
    split; [rewrite length_app; lia|].
    destruct (negb (Nat.eqb _ 0)).
    + rewrite b32_facts.drop_last_app by exact H2. now rewrite H3.
    + now rewrite H3.
Qed.

Theorem b85decode_b85encode s : octets s -> b85decode (Bytes (b85encode s)) = Ok s.
Proof.
  intros Hs. unfold b85decode. cbn [_bytes_from_decode_data rbind].
  destruct (b85_chunks_encode s Hs 0) as (R & H1 & _ & H3).
  rewrite H1. cbn [rbind]. destruct (negb (Nat.eqb _ 0)); now rewrite H3.
Qed.

End b85_facts.

(** ** The decoders fail with a [ValueError] only *)

Module error_facts.
Import binascii base64.

Lemma only_bind {A B} (m : result A) (f : A -> result B) :
  only_ValueError m -> (forall a, m = Ok a -> only_ValueError (f a)) ->
  only_ValueError (rbind m f).
Proof. destruct m as [a|e]; cbn; auto. Qed.

Lemma only_Ok {A} (a : A) : only_ValueError (Ok a).
Proof. exact I. Qed.

Lemma only_bytes_from_decode_data d : only_ValueError (_bytes_from_decode_data d).
Proof. destruct d as [s|b]; cbn; [destruct (forallb _ s)|]; exact eq_refl || exact I. Qed.

Lemma only_ascii_buffer d : only_ValueError (ascii_buffer d).
Proof. destruct d as [s|b]; cbn; [destruct (forallb _ s)|]; exact eq_refl || exact I. Qed.

Lemma only_a2b_hex_pairs : forall s, only_ValueError (a2b_hex_pairs s).
Proof.
  fix IH 1. intros [|top [|bot r]]; cbn [a2b_hex_pairs]; try exact I.
  destruct (_ || _); [reflexivity|].
  apply only_bind; [apply IH | intros; exact I].
Qed.

Lemma only_unhexlify d : only_ValueError (unhexlify d).
Proof.
  unfold unhexlify. apply only_bind; [apply only_ascii_buffer|].
  intros s _. destruct (Z.odd _); [reflexivity | apply only_a2b_hex_pairs].
Qed.

Lemma only_b16decode d : only_ValueError (b16decode d).
Proof.
  unfold b16decode. apply only_bind; [apply only_bytes_from_decode_data|].
  intros s _. destruct (negb _); [reflexivity | apply only_unhexlify].
Qed.

Lemma only_a2b_base64_loop s :
  forall q l p n, only_ValueError (a2b_base64_loop s q l p n).
Proof.
  induction s as [|ch r IH]; intros q l p n; cbn [a2b_base64_loop].
  - destruct (q =? 0); [exact I|]. destruct (q =? 1); reflexivity.
  - destruct (ch =? BASE64_PAD).
    + destruct (_ && _); [exact I | apply IH].
    + destruct (index ch table_b2a_base64); [|apply IH].
      destruct (q =? 0); [apply IH|].
      destruct (q =? 1); [apply only_bind; [apply IH | intros; exact I]|].
      destruct (q =? 2); apply only_bind; try apply IH; intros; exact I.
Qed.

Lemma only_b64decode d : only_ValueError (b64decode d).
Proof.
  unfold b64decode. apply only_bind; [apply only_bytes_from_decode_data|].
  intros s _. apply only_a2b_base64_loop.
Qed.

Lemma only_b32_acc alphabet q : forall acc, only_ValueError (b32_acc alphabet acc q).
Proof.
  induction q as [|c r IH]; intros acc; cbn [b32_acc]; [exact I|].
  destruct (index c alphabet); [apply IH | reflexivity].
Qed.

Lemma only_b32_quanta alphabet :
  forall s last, only_ValueError (b32_quanta alphabet s last).
Proof.
  fix IH 1.
  intros [|a [|b [|c [|d [|e [|f [|g [|h r]]]]]]]] last; cbn [b32_quanta];
    try exact I;
    (apply only_bind; [apply only_b32_acc|]); intros acc _; try exact I.
  apply only_bind; [apply IH | intros; exact I].
Qed.

Lemma only_b32_last decoded acc padchars :
  only_ValueError (b32_last decoded acc padchars).
Proof.
  unfold b32_last. destruct (negb (existsb _ _)); [reflexivity|].
  destruct (_ && _); exact I.
Qed.

Lemma only_b32decode alphabet d : only_ValueError (_b32decode alphabet d).
Proof.
  unfold _b32decode. apply only_bind; [apply only_bytes_from_decode_data|].
  intros s _. destruct (negb _); [reflexivity|].
  apply only_bind; [apply only_b32_quanta|]. intros r _. apply only_b32_last.
Qed.

Lemma only_a85_loop s : forall curr, only_ValueError (a85_loop s curr).
Proof.
  induction s as [|x r IH]; intros curr; cbn [a85_loop]; [exact I|].
  destruct (_ && _).
  - destruct (Nat.eqb _ 5); [|apply IH].
    destruct (4294967295 <? _); [reflexivity|].
    apply only_bind; [apply IH | intros; exact I].
  - destruct (x =? 122).
    + destruct curr; [|reflexivity].
      apply only_bind; [apply IH | intros; exact I].
    + destruct (existsb _ _); [apply IH | reflexivity].
Qed.

Lemma only_a85decode d : only_ValueError (a85decode d).
Proof.
  unfold a85decode. apply only_bind; [apply only_bytes_from_decode_data|].
  intros s _. apply only_bind; [apply only_a85_loop|].
  intros r _. destruct (negb _); exact I.
Qed.

Lemma only_b85_acc i chunk : forall j acc, only_ValueError (b85_acc i j acc chunk).
Proof.
  induction chunk as [|c r IH]; intros j acc; cbn [b85_acc]; [exact I|].
  destruct (index c _b85alphabet); [apply IH | reflexivity].
Qed.

Lemma only_b85_chunks : forall b i, only_ValueError (b85_chunks i b).
Proof.
  fix IH 1.
  intros [|c0 [|c1 [|c2 [|c3 [|c4 r]]]]] i; cbn [b85_chunks]; try exact I.
  apply only_bind; [apply only_b85_acc|]. intros acc _.
  destruct (4294967295 <? acc); [reflexivity|].
  apply only_bind; [apply IH | intros; exact I].
Qed.

Lemma only_b85decode d : only_ValueError (b85decode d).
Proof.
  unfold b85decode. apply only_bind; [apply only_bytes_from_decode_data|].
  intros s _. apply only_bind; [apply only_b85_chunks|].
  intros r _. destruct (negb _); exact I.
Qed.

Lemma only_utf8_encode_from w s : forall p, only_ValueError (utf8.encode_from w p s).
Proof.
  induction s as [|c r IH]; intros p; cbn [utf8.encode_from]; [exact I|].
  destruct (utf8.is_surrogate c); [reflexivity|].
  destruct (_ || _); [reflexivity|].
  apply only_bind; [apply IH | intros; exact I].
Qed.

Lemma only_utf8_encode s : only_ValueError (utf8.encode s).
Proof. apply only_utf8_encode_from. Qed.

Lemma only_utf8_decode_from w :
  forall n s p, (List.length s <= n)%nat -> only_ValueError (utf8.decode_from w p s).
Proof.
  induction n as [|n IH]; intros s p Hn.
  - destruct s; [exact I | cbn in Hn; lia].
  - destruct s as [|ch r1]; [exact I|].
    cbn [utf8.decode_from]. unfold utf8.decode_error.
    repeat match goal with
      | |- only_ValueError (if ?b then _ else _) => destruct b
      | |- only_ValueError (Raise _) => reflexivity
      | |- only_ValueError (rbind _ _) =>
          apply only_bind; [apply IH; cbn [List.length] in *; lia | intros; exact I]
      | |- only_ValueError (match ?l with [] => _ | _ :: _ => _ end) =>
          destruct l
      end.
Qed.

Lemma only_utf8_decode b : only_ValueError (utf8.decode b).
Proof. apply (only_utf8_decode_from b (List.length b)). lia. Qed.

End error_facts.

(** ** The encoders write ASCII, which the decoders read as [str] too *)

Module text_facts.
Import binascii base64.

Lemma ascii_text_forallb s : ascii_text s <-> forallb is_ascii s = true.
Proof. unfold ascii_text. now rewrite Forall_forall, forallb_forall. Qed.

Lemma item_ascii table i : ascii_text table -> is_ascii (item table i) = true.
Proof.
  intros H. unfold item.
  destruct (nth_in_or_default (Z.to_nat i) table 0) as [Hin| ->]; [|reflexivity].
  unfold ascii_text in H. rewrite Forall_forall in H. now apply H.
Qed.

Lemma ascii_text_literal s : forallb is_ascii s = true -> ascii_text s.
Proof. apply ascii_text_forallb. Qed.

Lemma ascii_text_app a b : ascii_text a -> ascii_text b -> ascii_text (a ++ b).
Proof. intros. apply Forall_app. now split. Qed.

Lemma ascii_text_firstn n s : ascii_text s -> ascii_text (firstn n s).
Proof. apply b32_facts.Forall_firstn_of. Qed.

Lemma hexlify_ascii s : ascii_text (hexlify s).
Proof.
  induction s as [|c r IH]; cbn [hexlify]; [constructor|].
  repeat constructor; try (apply item_ascii, ascii_text_literal; reflexivity).
  exact IH.
Qed.

Lemma bytes_upper_ascii s : ascii_text s -> ascii_text (bytes_upper s).
Proof.
  unfold bytes_upper. induction 1 as [|c r Hc _ IH]; cbn [map]; constructor; [|exact IH].
  unfold is_ascii in *.
  destruct (Z.leb_spec 97 c); destruct (Z.leb_spec c 122); cbn [andb]; try exact Hc.
  apply andb_true_iff. rewrite Z.leb_le, Z.ltb_lt. lia.
Qed.

Lemma b16encode_ascii s : ascii_text (b16encode s).
Proof. apply bytes_upper_ascii, hexlify_ascii. Qed.

Lemma b64encode_ascii s : ascii_text (b64encode s).
Proof.
  unfold b64encode.
  induction s as [|a|a b|a b c r IH] using list_ind3; cbn [b2a_base64];
    repeat constructor;
    try (apply item_ascii, ascii_text_literal; reflexivity).
  exact IH.
Qed.

Lemma b32_quantum_ascii alphabet n :
  ascii_text alphabet -> ascii_text (b32_quantum alphabet n).
Proof.
  intros H. unfold b32_quantum. apply Forall_map, Forall_forall.
  intros k _. now apply item_ascii.
Qed.

Lemma b32encode_ascii alphabet s :
  ascii_text alphabet -> ascii_text (_b32encode alphabet s).
Proof.
  intros H.
  induction s as [|a|a b|a b c|a b c d|a b c d e r IH] using list_ind5;
    cbn [_b32encode]; [constructor|..];
    apply ascii_text_app;
    try (apply ascii_text_firstn); try (now apply b32_quantum_ascii);
    try (apply ascii_text_literal; reflexivity).
  exact IH.
Qed.

Lemma word85_ascii chars w :
  (forall d, 0 <= d < 85 -> is_ascii (chars d) = true) ->
  0 <= w < 4294967296 -> ascii_text (word85 chars w).
Proof.
  intros Hc Hw. destruct (b85_facts.digits85 w Hw) as (H0 & H1 & H2 & H3 & H4).
  unfold word85. cbv zeta. repeat constructor; now apply Hc.
Qed.

Lemma chunk85_ascii chars foldnuls w :
  (forall d, 0 <= d < 85 -> is_ascii (chars d) = true) ->
  0 <= w < 4294967296 -> ascii_text (chunk85 chars foldnuls w).
Proof.
  intros Hc Hw. unfold chunk85.
  destruct (foldnuls && (w =? 0)); [repeat constructor | now apply word85_ascii].
Qed.

Lemma last85_ascii chars foldnuls p w :
  (forall d, 0 <= d < 85 -> is_ascii (chars d) = true) ->
  0 <= w < 4294967296 -> ascii_text (last85 chars foldnuls p w).
Proof.
  intros Hc Hw. unfold last85, drop_last. apply ascii_text_firstn.
  destruct (str_eqb _ _); [|now apply chunk85_ascii].
  repeat constructor; apply Hc; lia.
Qed.

Lemma from_bytes4_range a b c d :
  octet a -> octet b -> octet c -> octet d ->
  0 <= from_bytes [a; b; c; d] < 4294967296.
Proof. unfold octet, from_bytes. cbn [fold_left]. lia. Qed.

Lemma octet_0 : octet 0.
Proof. unfold octet. lia. Qed.

Lemma encode85_ascii chars foldnuls s :
  (forall d, 0 <= d < 85 -> is_ascii (chars d) = true) ->
  octets s -> ascii_text (_85encode chars foldnuls s).
Proof.
  intros Hc.
  induction s as [|a|a b|a b c|a b c d r IH] using list_ind4; intros Hs;
    cbn [_85encode].
  - constructor.
  - apply octets_cons in Hs as [Ha _].
    apply last85_ascii; [exact Hc|]. apply from_bytes4_range; auto using octet_0.
  - apply octets_cons in Hs as [Ha Hs]. apply octets_cons in Hs as [Hb _].
    apply last85_ascii; [exact Hc|]. apply from_bytes4_range; auto using octet_0.
  - apply octets_cons in Hs as [Ha Hs]. apply octets_cons in Hs as [Hb Hs].
    apply octets_cons in Hs as [Hc' _].
    apply last85_ascii; [exact Hc|]. apply from_bytes4_range; auto using octet_0.
  - apply octets_cons in Hs as [Ha Hs]. apply octets_cons in Hs as [Hb Hs].
    apply octets_cons in Hs as [Hc' Hs]. apply octets_cons in Hs as [Hd Hs].
    apply ascii_text_app; [|now apply IH].
    apply chunk85_ascii; [exact Hc|]. now apply from_bytes4_range.
Qed.

Lemma a85encode_ascii s : octets s -> ascii_text (a85encode s).
Proof.
  apply encode85_ascii. intros d Hd. unfold is_ascii.
  apply andb_true_iff. rewrite Z.leb_le, Z.ltb_lt. lia.
Qed.

Lemma b85encode_ascii s : octets s -> ascii_text (b85encode s).
Proof.
  apply encode85_ascii. intros d _. apply item_ascii, ascii_text_literal.
  reflexivity.
Qed.

(** The decoders make no difference between ASCII [bytes] and the [str] of
    the same characters. *)
Lemma bytes_from_Str s :
  ascii_text s -> _bytes_from_decode_data (Str s) = _bytes_from_decode_data (Bytes s).
Proof. intros H. cbn. now rewrite (proj1 (ascii_text_forallb s) H). Qed.

Lemma ascii_buffer_Str s :
  ascii_text s -> ascii_buffer (Str s) = ascii_buffer (Bytes s).
Proof. intros H. cbn. now rewrite (proj1 (ascii_text_forallb s) H). Qed.

Lemma a85decode_Str s : ascii_text s -> a85decode (Str s) = a85decode (Bytes s).
Proof. intros H. unfold a85decode. now rewrite bytes_from_Str. Qed.

Lemma b16decode_Str s : ascii_text s -> b16decode (Str s) = b16decode (Bytes s).
Proof. intros H. unfold b16decode. now rewrite bytes_from_Str. Qed.

Lemma b32decode_Str alphabet s :
  ascii_text s -> _b32decode alphabet (Str s) = _b32decode alphabet (Bytes s).
Proof. intros H. unfold _b32decode. now rewrite bytes_from_Str. Qed.

Lemma b64decode_Str s : ascii_text s -> b64decode (Str s) = b64decode (Bytes s).
Proof. intros H. unfold b64decode. now rewrite bytes_from_Str. Qed.

Lemma b85decode_Str s : ascii_text s -> b85decode (Str s) = b85decode (Bytes s).
Proof. intros H. unfold b85decode. now rewrite bytes_from_Str. Qed.

Lemma unhexlify_Str s : ascii_text s -> unhexlify (Str s) = unhexlify (Bytes s).
Proof. intros H. unfold unhexlify. now rewrite ascii_buffer_Str. Qed.

End text_facts.

(** ** The payloads the decoders reject *)

Module failure_facts.
Import binascii base64.

Lemma index_from_In c table : forall i v, index_from i c table = Some v -> In c table.
Proof.
  induction table as [|x r IH]; intros i v; cbn [index_from]; [discriminate|].
  destruct (Z.eqb_spec x c) as [E|E]; [now left|]. intros H. right. exact (IH _ _ H).
Qed.

Lemma in_alphabet_In alphabet c : in_alphabet alphabet c = true -> In c alphabet.
Proof.
  unfold in_alphabet, index. destruct (index_from 0 c alphabet) eqn:E; [|discriminate].
  intros _. now apply (index_from_In c alphabet 0 z).
Qed.

Lemma in_alphabet_Some alphabet c :
  in_alphabet alphabet c = true -> exists v, index c alphabet = Some v.
Proof. unfold in_alphabet. destruct (index c alphabet) as [v|]; [now exists v | discriminate]. Qed.

Lemma in_alphabet_None alphabet c :
  in_alphabet alphabet c = false -> index c alphabet = None.
Proof. unfold in_alphabet. now destruct (index c alphabet). Qed.

Lemma in_alphabet_ascii alphabet s :
  ascii_text alphabet -> made_of (in_alphabet alphabet) s -> ascii_text s.
Proof.
  intros Ha. apply Forall_impl. intros c Hc. apply in_alphabet_In in Hc.
  unfold ascii_text in Ha. rewrite Forall_forall in Ha. now apply Ha.
Qed.

Lemma bytes_from_ascii s : ascii_text s -> _bytes_from_decode_data (Str s) = Ok s.
Proof. intros H. cbn. now rewrite (proj1 (text_facts.ascii_text_forallb s) H). Qed.

Lemma ascii_buffer_ascii s : ascii_text s -> ascii_buffer (Str s) = Ok s.
Proof. intros H. cbn. now rewrite (proj1 (text_facts.ascii_text_forallb s) H). Qed.

(** *** Base64 *)

Lemma digit_not_pad c v :
  index c table_b2a_base64 = Some v -> (c =? BASE64_PAD) = false.
Proof.
  intros H. destruct (Z.eqb_spec c BASE64_PAD) as [E|E]; [|reflexivity].
  subst c. discriminate H.
Qed.

(** A character that is neither a digit nor the padding is skipped. *)
Lemma loop_skip c r q l p n :
  base64_read c = false ->
  a2b_base64_loop (c :: r) q l p n = a2b_base64_loop r q l p n.
Proof.
  unfold base64_read. intros H. apply orb_false_iff in H as [H1 H2].
  apply in_alphabet_None in H2. cbn [a2b_base64_loop]. now rewrite H1, H2.
Qed.

Lemma loop_filter s :
  forall q l p n,
    a2b_base64_loop s q l p n = a2b_base64_loop (filter base64_read s) q l p n.
Proof.
  induction s as [|c r IH]; intros q l p n; [reflexivity|].
  cbn [filter]. destruct (base64_read c) eqn:K.
  - cbn [a2b_base64_loop].
    destruct (c =? BASE64_PAD).
    + destruct ((2 <=? q) && (4 <=? q + (p + 1))); [reflexivity | apply IH].
    + destruct (index c table_b2a_base64) as [v|]; [|apply IH].
      destruct (q =? 0); [apply IH|].
      destruct (q =? 1); [now rewrite IH|].
      destruct (q =? 2); now rewrite IH.
  - rewrite loop_skip by exact K. apply IH.
Qed.

Lemma b64decode_filter s :
  b64decode (Bytes s) = b64decode (Bytes (filter base64_read s)).
Proof. unfold b64decode, a2b_base64. cbn [_bytes_from_decode_data rbind]. apply loop_filter. Qed.

Lemma loop_digit c v r q l p n :
  index c table_b2a_base64 = Some v ->
  a2b_base64_loop (c :: r) q l p n
  = if q =? 0 then a2b_base64_loop r 1 v 0 n
    else if q =? 1 then
      rbind (a2b_base64_loop r 2 (v mod 16) 0 (n + 1))
            (fun rest => Ok (l * 4 + v / 16 :: rest))
    else if q =? 2 then
      rbind (a2b_base64_loop r 3 (v mod 4) 0 (n + 1))
            (fun rest => Ok (l * 16 + v / 4 :: rest))
    else
      rbind (a2b_base64_loop r 0 0 0 (n + 1))
            (fun rest => Ok (l * 64 + v :: rest)).
Proof.
  intros H. cbn [a2b_base64_loop]. now rewrite (digit_not_pad c v H), H.
Qed.

Lemma made_of_cons P c r : made_of P (c :: r) <-> P c = true /\ made_of P r.
Proof.
  unfold made_of. split; [intros H; inversion H; auto | intros [? ?]; constructor; auto].
Qed.

(** Digits whose number is no multiple of four. *)
Lemma loop_digits s :
  made_of (in_alphabet table_b2a_base64) s ->
  forall n,
    (Z.of_nat (List.length s) mod 4 = 1 ->
     a2b_base64_loop s 0 0 0 n
     = Raise (binascii_Error
                (base64_count_message
                   ((n + 3 * (Z.of_nat (List.length s) / 4)) / 3 * 4 + 1))))
    /\ (Z.of_nat (List.length s) mod 4 = 2 \/ Z.of_nat (List.length s) mod 4 = 3 ->
        a2b_base64_loop s 0 0 0 n = Raise (binascii_Error (pystr "Incorrect padding"))).
Proof.
  induction s as [|a|a b|a b c|a b c d r IH] using list_ind4; intros Hs n.
  - cbn. split; [discriminate | intros [H|H]; discriminate H].
  - apply made_of_cons in Hs as [Ha _]. apply in_alphabet_Some in Ha as [va Ha].
    split; [|intros [H|H]; discriminate H]. intros _.
    rewrite (loop_digit a va _ _ _ _ _ Ha). cbn [Z.eqb Pos.eqb a2b_base64_loop].
    change (Z.of_nat (List.length [a]) / 4) with 0. now rewrite Z.mul_0_r, Z.add_0_r.
  - apply made_of_cons in Hs as [Ha Hs]. apply made_of_cons in Hs as [Hb _].
    apply in_alphabet_Some in Ha as [va Ha]. apply in_alphabet_Some in Hb as [vb Hb].
    split; [discriminate|]. intros _.
    rewrite (loop_digit a va _ _ _ _ _ Ha). cbn [Z.eqb Pos.eqb].
    rewrite (loop_digit b vb _ _ _ _ _ Hb). reflexivity.
  - apply made_of_cons in Hs as [Ha Hs]. apply made_of_cons in Hs as [Hb Hs].
    apply made_of_cons in Hs as [Hc _].
    apply in_alphabet_Some in Ha as [va Ha]. apply in_alphabet_Some in Hb as [vb Hb].
    apply in_alphabet_Some in Hc as [vc Hc].
    split; [discriminate|]. intros _.
    rewrite (loop_digit a va _ _ _ _ _ Ha). cbn [Z.eqb Pos.eqb].
    rewrite (loop_digit b vb _ _ _ _ _ Hb). cbn [Z.eqb Pos.eqb].
    rewrite (loop_digit c vc _ _ _ _ _ Hc). reflexivity.
  - apply made_of_cons in Hs as [Ha Hs]. apply made_of_cons in Hs as [Hb Hs].
    apply made_of_cons in Hs as [Hc Hs]. apply made_of_cons in Hs as [Hd Hs].
    apply in_alphabet_Some in Ha as [va Ha]. apply in_alphabet_Some in Hb as [vb Hb].
    apply in_alphabet_Some in Hc as [vc Hc]. apply in_alphabet_Some in Hd as [vd Hd].
    assert (L : Z.of_nat (List.length (a :: b :: c :: d :: r))
                = Z.of_nat (List.length r) + 4) by (cbn [List.length]; lia).
    rewrite L.
    rewrite (loop_digit a va _ _ _ _ _ Ha). cbn [Z.eqb Pos.eqb].
    rewrite (loop_digit b vb _ _ _ _ _ Hb). cbn [Z.eqb Pos.eqb].
    rewrite (loop_digit c vc _ _ _ _ _ Hc). cbn [Z.eqb Pos.eqb].
    rewrite (loop_digit d vd _ _ _ _ _ Hd). cbn [Z.eqb Pos.eqb].
    replace (n + 1 + 1 + 1) with (n + 3) by lia.
    destruct (IH Hs (n + 3)) as [IH1 IH2]. split.
    + intros H. rewrite IH1 by zdiv. cbn [rbind].
      replace (n + 3 * ((Z.of_nat (List.length r) + 4) / 4))
        with (n + 3 + 3 * (Z.of_nat (List.length r) / 4)) by zdiv.
      reflexivity.
    + intros H. rewrite IH2 by zdiv. reflexivity.
Qed.

Lemma b64decode_digits s :
  made_of (in_alphabet table_b2a_base64) s ->
  (Z.of_nat (List.length s) mod 4 = 1 ->
   b64decode (Str s)
   = Raise (binascii_Error (base64_count_message (Z.of_nat (List.length s)))))
  /\ (Z.of_nat (List.length s) mod 4 = 2 \/ Z.of_nat (List.length s) mod 4 = 3 ->
      b64decode (Str s) = Raise (binascii_Error (pystr "Incorrect padding"))).
Proof.
  intros Hs.
  assert (Ha : ascii_text s)
    by (apply (in_alphabet_ascii table_b2a_base64);
        [apply text_facts.ascii_text_literal; reflexivity | exact Hs]).
  unfold b64decode. rewrite (bytes_from_ascii s Ha). cbn [rbind]. unfold a2b_base64.
  destruct (loop_digits s Hs 0) as [H1 H2]. split.
  - intros H. rewrite (H1 H). do 3 f_equal. zdiv.
  - exact H2.
Qed.

(** *** Hexadecimal *)

Lemma unhexlify_odd s :
  ascii_text s -> Z.odd (Z.of_nat (List.length s)) = true ->
  unhexlify (Str s) = Raise (binascii_Error (pystr "Odd-length string")).
Proof.
  intros Ha H. unfold unhexlify. rewrite (ascii_buffer_ascii s Ha). cbn [rbind].
  now rewrite H.
Qed.

Lemma hex_pairs_bad :
  forall k s, List.length s = (2 * k)%nat ->
    Exists (fun c => is_hex_digit c = false) s ->
    a2b_hex_pairs s = Raise (binascii_Error (pystr "Non-hexadecimal digit found")).
Proof.
  induction k as [|k IH]; intros s Hl Hb.
  - destruct s; [inversion Hb | discriminate Hl].
  - destruct s as [|a [|b r]]; [cbn [List.length] in Hl; lia .. |].
    cbn [a2b_hex_pairs]. unfold is_hex_digit in Hb.
    destruct (Z.leb_spec 16 (digit_value a)) as [Ea|Ea]; [reflexivity|].
    destruct (Z.leb_spec 16 (digit_value b)) as [Eb|Eb]; [reflexivity|].
    cbn [orb]. rewrite IH; [reflexivity | cbn [List.length] in Hl; lia |].
    inversion Hb as [? ? H|? ? H]; subst.
    + apply Z.ltb_ge in H. lia.
    + inversion H as [? ? H'|? ? H']; subst; [|exact H'].
      apply Z.ltb_ge in H'. lia.
Qed.

Lemma unhexlify_bad s :
  ascii_text s -> Z.odd (Z.of_nat (List.length s)) = false ->
  Exists (fun c => is_hex_digit c = false) s ->
  unhexlify (Str s) = Raise (binascii_Error (pystr "Non-hexadecimal digit found")).
Proof.
  intros Ha H Hb. unfold unhexlify. rewrite (ascii_buffer_ascii s Ha). cbn [rbind].
  rewrite H.
  assert (E : Z.even (Z.of_nat (List.length s)) = true)
    by (rewrite <- Z.negb_odd, H; reflexivity).
  apply Z.even_spec in E as [k E].
  apply (hex_pairs_bad (Z.to_nat k)); [lia | exact Hb].
Qed.

Lemma b16decode_bad s :
  ascii_text s -> forallb is_base16_digit s = false ->
  b16decode (Str s) = Raise (binascii_Error (pystr "Non-base16 digit found")).
Proof.
  intros Ha H. unfold b16decode. rewrite (bytes_from_ascii s Ha). cbn [rbind].
  now rewrite H.
Qed.

Lemma base16_ascii s : forallb is_base16_digit s = true -> ascii_text s.
Proof.
  intros H. unfold ascii_text. rewrite Forall_forall. rewrite forallb_forall in H.
  intros c Hc. apply H in Hc. unfold is_base16_digit in Hc. unfold is_ascii.
  apply andb_true_iff. rewrite Z.leb_le, Z.ltb_lt.
  apply orb_prop in Hc as [Hc|Hc]; apply andb_prop in Hc as [H1 H2];
    apply Z.leb_le in H1, H2; lia.
Qed.

Lemma b16decode_odd s :
  forallb is_base16_digit s = true -> Z.odd (Z.of_nat (List.length s)) = true ->
  b16decode (Str s) = Raise (binascii_Error (pystr "Odd-length string")).
Proof.
  intros Hd H. unfold b16decode.
  rewrite (bytes_from_ascii s (base16_ascii s Hd)). cbn [rbind].
  rewrite Hd. cbn [negb]. unfold unhexlify. cbn [ascii_buffer rbind]. now rewrite H.
Qed.

(** *** Base32 *)

Section Base32.
Variable alphabet : bytes.
Hypothesis pad_outside : in_alphabet alphabet 61 = false.

Lemma b32decode_length s :
  ascii_text s -> Z.of_nat (List.length s) mod 8 <> 0 ->
  _b32decode alphabet (Str s) = Raise (binascii_Error (pystr "Incorrect padding")).
Proof.
  intros Ha H. unfold _b32decode. rewrite (bytes_from_ascii s Ha). cbn [rbind].
  destruct (Z.eqb_spec (Z.of_nat (List.length s) mod 8) 0); [contradiction|].
  reflexivity.
Qed.

Lemma b32_acc_bad q :
  Exists (fun c => in_alphabet alphabet c = false) q ->
  forall acc,
    b32_acc alphabet acc q = Raise (binascii_Error (pystr "Non-base32 digit found")).
Proof.
  induction 1 as [c r Hc|c r _ IH]; intros acc; cbn [b32_acc].
  - now rewrite (in_alphabet_None _ _ Hc).
  - destruct (index c alphabet); [apply IH | reflexivity].
Qed.

Lemma b32_acc_result q :
  forall acc,
    (exists v, b32_acc alphabet acc q = Ok v)
    \/ b32_acc alphabet acc q = Raise (binascii_Error (pystr "Non-base32 digit found")).
Proof.
  induction q as [|c r IH]; intros acc; cbn [b32_acc]; [left; now eexists|].
  destruct (index c alphabet); [apply IH | now right].
Qed.

Lemma b32_acc_digits q :
  made_of (in_alphabet alphabet) q ->
  forall acc, exists v, b32_acc alphabet acc q = Ok v.
Proof.
  induction 1 as [|c r Hc _ IH]; intros acc; cbn [b32_acc]; [now eexists|].
  apply in_alphabet_Some in Hc as [v ->]. apply IH.
Qed.

Lemma b32_quanta_bad :
  forall k s last,
    (List.length s <= k)%nat ->
    Exists (fun c => in_alphabet alphabet c = false) s ->
    b32_quanta alphabet s last
    = Raise (binascii_Error (pystr "Non-base32 digit found")).
Proof.
  induction k as [|k IH]; intros s last Hl Hb.
  - destruct s; [inversion Hb | cbn in Hl; lia].
  - destruct s as [|a [|b [|c [|d [|e [|f [|g [|h r]]]]]]]];
      try (cbn [b32_quanta]; rewrite b32_acc_bad by exact Hb; reflexivity).
    + inversion Hb.
    + change (a :: b :: c :: d :: e :: f :: g :: h :: r)
        with ([a; b; c; d; e; f; g; h] ++ r) in Hb.
      apply Exists_app in Hb. cbn [b32_quanta].
      destruct (b32_acc_result [a; b; c; d; e; f; g; h] 0) as [[v Hv]|Hv];
        rewrite Hv; [|reflexivity].
      destruct Hb as [Hb|Hb]; [rewrite (b32_acc_bad _ Hb) in Hv; discriminate Hv|].
      cbn [rbind]. rewrite IH; [reflexivity | cbn [List.length] in Hl; lia | exact Hb].
Qed.

Lemma b32_quanta_digits :
  forall k s last,
    (List.length s <= k)%nat ->
    made_of (in_alphabet alphabet) s ->
    exists r, b32_quanta alphabet s last = Ok r.
Proof.
  induction k as [|k IH]; intros s last Hl Hs.
  - destruct s; [now eexists | cbn in Hl; lia].
  - destruct s as [|a [|b [|c [|d [|e [|f [|g [|h r]]]]]]]];
      try (cbn [b32_quanta];
           match goal with
           | |- context [b32_acc alphabet 0 ?q] =>
               destruct (b32_acc_digits q Hs 0) as [v ->]
           end; cbn [rbind]; now eexists).
    + now eexists.
    + change (a :: b :: c :: d :: e :: f :: g :: h :: r)
        with ([a; b; c; d; e; f; g; h] ++ r) in Hs.
      apply Forall_app in Hs as [H8 Hr]. cbn [b32_quanta].
      destruct (b32_acc_digits _ H8 0) as [v ->]. cbn [rbind].
      destruct (IH r v) as [x ->]; [cbn [List.length] in Hl; lia | exact Hr |].
      cbn [rbind]. now eexists.
Qed.

Lemma lstrip_pad_keeps (P : Z -> Prop) l :
  Exists (fun c => P c /\ c <> 61) l -> Exists P (lstrip_pad l).
Proof.
  induction l as [|c r IH]; intros H; [inversion H|].
  cbn [lstrip_pad]. destruct (Z.eqb_spec c 61) as [E|E].
  - apply IH. inversion H as [? ? [_ Hc]|? ? Hr]; subst; [contradiction | exact Hr].
  - revert H. apply Exists_impl. now intros x [Hx _].
Qed.

Lemma rstrip_pad_keeps (P : Z -> Prop) l :
  Exists (fun c => P c /\ c <> 61) l -> Exists P (rstrip_pad l).
Proof.
  intros H. unfold rstrip_pad. apply Exists_rev, lstrip_pad_keeps, Exists_rev, H.
Qed.

Lemma b32decode_bad s :
  ascii_text s -> Z.of_nat (List.length s) mod 8 = 0 ->
  Exists (fun c => in_alphabet alphabet c = false /\ c <> 61) s ->
  _b32decode alphabet (Str s)
  = Raise (binascii_Error (pystr "Non-base32 digit found")).
Proof.
  intros Ha H Hb. unfold _b32decode. rewrite (bytes_from_ascii s Ha). cbn [rbind].
  rewrite H. cbn [Z.eqb negb].
  rewrite (b32_quanta_bad (List.length (rstrip_pad s)) (rstrip_pad s) 0);
    [reflexivity | lia |].
  now apply (rstrip_pad_keeps (fun c => in_alphabet alphabet c = false)).
Qed.

Lemma digits_not_pad body :
  made_of (in_alphabet alphabet) body -> Forall (fun c => (c =? 61) = false) body.
Proof.
  apply Forall_impl. intros c Hc. destruct (Z.eqb_spec c 61) as [E|E]; [|reflexivity].
  subst c. rewrite pad_outside in Hc. discriminate Hc.
Qed.

Lemma b32decode_padchars body p :
  ascii_text body -> made_of (in_alphabet alphabet) body ->
  Z.of_nat (List.length body + p) mod 8 = 0 ->
  existsb (Z.eqb (Z.of_nat p)) [0; 1; 3; 4; 6] = false ->
  _b32decode alphabet (Str (body ++ repeat 61 p))
  = Raise (binascii_Error (pystr "Incorrect padding")).
Proof.
  intros Ha Hd Hl Hp.
  assert (Hs : ascii_text (body ++ repeat 61 p)).
  { apply text_facts.ascii_text_app; [exact Ha|].
    apply Forall_forall. intros c Hc. apply repeat_spec in Hc. now subst c. }
  unfold _b32decode. rewrite (bytes_from_ascii _ Hs). cbn [rbind].
  rewrite length_app, repeat_length, Hl. cbn [Z.eqb negb].
  rewrite b32_facts.rstrip_pad_body by now apply digits_not_pad.
  destruct (b32_quanta_digits (List.length body) body 0 (le_n _) Hd) as [r ->].
  cbn [rbind].
  replace (Z.of_nat (List.length body + p) - Z.of_nat (List.length body))
    with (Z.of_nat p) by lia.
  unfold b32_last. now rewrite Hp.
Qed.

End Base32.

(** *** Ascii85 and Base85 *)

Lemma a85_loop_bad s :
  Exists (fun c => a85_read c = false) s ->
  forall curr, exists e, a85_loop s curr = Raise e.
Proof.
  induction s as [|x r IH]; intros H curr; [inversion H|].
  assert (Hr : a85_read x = true -> Exists (fun c => a85_read c = false) r).
  { intros Hx. inversion H as [? ? Hx'|? ? Hr]; subst; [congruence | exact Hr]. }
  cbn [a85_loop]. unfold a85_read in Hr.
  destruct ((33 <=? x) && (x <=? 117)).
  - specialize (Hr eq_refl).
    destruct (Nat.eqb (List.length (curr ++ [x])) 5).
    + destruct (4294967295 <? _); [now eexists|].
      destruct (IH Hr []) as [e ->]. now eexists.
    + apply (IH Hr).
  - destruct (x =? 122).
    + specialize (Hr eq_refl). destruct curr; [|now eexists].
      destruct (IH Hr []) as [e ->]. now eexists.
    + destruct (existsb (Z.eqb x) a85_ignorechars).
      * apply (IH (Hr eq_refl)).
      * now eexists.
Qed.

Lemma a85decode_bad s :
  ascii_text s -> Exists (fun c => a85_read c = false) s ->
  exists e, a85decode (Str s) = Raise e.
Proof.
  intros Ha H. unfold a85decode. rewrite (bytes_from_ascii s Ha). cbn [rbind].
  destruct (a85_loop_bad (s ++ pystr "uuuu")) with (curr := @nil Z) as [e ->].
  - apply Exists_app. now left.
  - now eexists.
Qed.

Lemma b85_acc_bad i chunk :
  Exists (fun c => in_alphabet _b85alphabet c = false) chunk ->
  forall j acc, exists e, b85_acc i j acc chunk = Raise e.
Proof.
  induction 1 as [c r Hc|c r _ IH]; intros j acc; cbn [b85_acc].
  - rewrite (in_alphabet_None _ _ Hc). now eexists.
  - destruct (index c _b85alphabet); [apply IH | now eexists].
Qed.

Lemma b85_chunks_bad :
  forall k s i,
    List.length s = (5 * k)%nat ->
    Exists (fun c => in_alphabet _b85alphabet c = false) s ->
    exists e, b85_chunks i s = Raise e.
Proof.
  induction k as [|k IH]; intros s i Hl Hb.
  - destruct s; [inversion Hb | cbn in Hl; lia].
  - destruct s as [|c0 [|c1 [|c2 [|c3 [|c4 r]]]]];
      [cbn [List.length] in Hl; lia ..|].
    change (c0 :: c1 :: c2 :: c3 :: c4 :: r) with ([c0; c1; c2; c3; c4] ++ r) in Hb.
    apply Exists_app in Hb. cbn [b85_chunks].
    destruct (b85_acc i 0 0 [c0; c1; c2; c3; c4]) as [acc|e] eqn:E;
      [|now eexists].
    destruct Hb as [Hb|Hb].
    + destruct (b85_acc_bad i _ Hb 0 0) as [e He]. congruence.
    + cbn [rbind]. destruct (4294967295 <? acc); [now eexists|].
      destruct (IH r (i + 5)) as [e ->];
        [cbn [List.length] in Hl; lia | exact Hb | now eexists].
Qed.

Lemma b85decode_bad s :
  ascii_text s -> Exists (fun c => in_alphabet _b85alphabet c = false) s ->
  exists e, b85decode (Str s) = Raise e.
Proof.
  intros Ha H. unfold b85decode. rewrite (bytes_from_ascii s Ha). cbn [rbind].
  set (padding := Z.to_nat ((- Z.of_nat (List.length s)) mod 5)).
  assert (Hk : exists k, List.length (s ++ repeat 126 padding) = (5 * k)%nat).
  { rewrite length_app, repeat_length. subst padding.
    exists (Z.to_nat ((Z.of_nat (List.length s)
                       + (- Z.of_nat (List.length s)) mod 5) / 5)).
    apply Nat2Z.inj. rewrite Nat2Z.inj_add, Nat2Z.inj_mul, !Z2Nat.id by zdiv.
    zdiv. }
  destruct Hk as [k Hk].
  destruct (b85_chunks_bad k (s ++ repeat 126 padding) 0 Hk) as [e ->].
  - apply Exists_app. now left.
  - now eexists.
Qed.

End failure_facts.

(** A [str] that is not ASCII is refused by every decoder of the table. *)
Lemma decoders_ascii_only key dec payload :
  getitem DecodeCommand_ALGORITHMS key = Ok dec ->
  forallb is_ascii payload = false ->
  dec (Str payload)
  = Raise (ValueError
             (pystr "string argument should contain only ASCII characters")).
Proof.
  intros H Hp. revert H. cbn [getitem DecodeCommand_ALGORITHMS].
  repeat (destruct (str_eqb _ key);
          [intros [= <-];
           unfold base64.a85decode, base64.b16decode, base64.b32decode,
             base64.b32hexdecode, base64._b32decode, base64.b64decode,
             base64.b85decode, binascii.unhexlify,
             base64._bytes_from_decode_data, binascii.ascii_buffer;
           rewrite Hp; reflexivity |]).
  discriminate.
Qed.

(** ** Strings *)

Lemma str_eqb_eq a b : str_eqb a b = true <-> a = b.
Proof.
  revert b. induction a as [|x a IH]; intros [|y b]; cbn; split;
    try discriminate; try reflexivity.
  - intros H. apply andb_prop in H as [H1 H2].
    apply Z.eqb_eq in H1. apply IH in H2. now subst.
  - intros [= -> ->]. rewrite Z.eqb_refl. now apply IH.
Qed.

Lemma str_eqb_refl a : str_eqb a a = true.
Proof. now apply str_eqb_eq. Qed.

Lemma contains_In ks key : contains ks key = true <-> In key ks.
Proof.
  unfold contains. rewrite existsb_exists. split.
  - intros (k & Hk & E). apply str_eqb_eq in E. now subst.
  - intros H. exists key. split; [exact H | apply str_eqb_refl].
Qed.

Lemma getitem_In {A} (table : list (str * A)) key :
  In key (keys table) -> exists v, getitem table key = Ok v.
Proof.
  induction table as [|[k v] r IH]; cbn [keys map fst In getitem]; [easy|].
  intros [->|H].
  - rewrite str_eqb_refl. now exists v.
  - destruct (str_eqb k key); [now exists v | now apply IH].
Qed.

Lemma getitem_Ok_In {A} (table : list (str * A)) key v :
  getitem table key = Ok v -> In (key, v) table.
Proof.
  induction table as [|[k w] r IH]; cbn [getitem In]; [discriminate|].
  destruct (str_eqb k key) eqn:E.
  - intros [= ->]. apply str_eqb_eq in E. subst. now left.
  - intros H. right. now apply IH.
Qed.

Lemma getitem_not_In {A} (table : list (str * A)) key :
  ~ In key (keys table) -> getitem table key = Raise (KeyError (str_repr key)).
Proof.
  induction table as [|[k v] r IH]; cbn [keys map fst In getitem]; [easy|].
  intros H. destruct (str_eqb k key) eqn:E.
  - apply str_eqb_eq in E. tauto.
  - apply IH. tauto.
Qed.

Lemma bind_lift_Ok {A B} (a : A) (f : A -> IO B) : bind (lift (Ok a)) f = f a.
Proof. unfold bind, lift. now destruct (f a). Qed.

Lemma bind_lift_Raise {A B} e (f : A -> IO B) :
  bind (lift (Raise e)) f = ([], Raise e).
Proof. reflexivity. Qed.

Lemma split_nonempty sep s : Unicode.split sep s <> [].
Proof.
  destruct s as [|c r]; cbn; [discriminate|].
  destruct (c =? sep); [discriminate|].
  destruct (Unicode.split sep r); discriminate.
Qed.

Lemma split_snoc_sep sep s : Unicode.split sep (s ++ [sep]) = Unicode.split sep s ++ [[]].
Proof.
  induction s as [|c r IH]; cbn [app Unicode.split].
  - now rewrite Z.eqb_refl.
  - destruct (c =? sep); rewrite IH; [reflexivity|].
    pose proof (split_nonempty sep r) as H.
    destruct (Unicode.split sep r); [contradiction | reflexivity].
Qed.

Lemma parse_argv_trailing_space pre :
  exists init, parse_argv (pre ++ [32]) = init ++ [[]].
Proof.
  unfold parse_argv. rewrite split_snoc_sep.
  pose proof (split_nonempty 32 pre) as H.
  destruct (Unicode.split 32 pre) as [|h t]; [contradiction|].
  cbn [app tl]. rewrite map_app. now exists (map Unicode.strip t).
Qed.

Lemma lstrip_blank ws r : blank ws -> Unicode.lstrip (ws ++ r) = Unicode.lstrip r.
Proof.
  induction 1 as [|c ws Hc _ IH]; [reflexivity|].
  cbn [app Unicode.lstrip]. now rewrite Hc.
Qed.

Lemma lstrip_all_blank ws : blank ws -> Unicode.lstrip ws = [].
Proof. intros H. rewrite <- (app_nil_r ws). now rewrite lstrip_blank. Qed.

Lemma lstrip_app k w :
  Unicode.lstrip (k ++ w)
  = match Unicode.lstrip k with
    | [] => Unicode.lstrip w
    | _ => Unicode.lstrip k ++ w
    end.
Proof.
  induction k as [|c k IH]; [reflexivity|].
  cbn [app Unicode.lstrip]. destruct (Unicode.isspace c); [exact IH | reflexivity].
Qed.

Lemma blank_rev ws : blank ws -> blank (rev ws).
Proof. apply Forall_rev. Qed.

Lemma rstrip_blank l ws : blank ws -> Unicode.rstrip (l ++ ws) = Unicode.rstrip l.
Proof.
  intros H. unfold Unicode.rstrip.
  now rewrite rev_app_distr, lstrip_blank by now apply blank_rev.
Qed.

Lemma strip_padded left k right :
  blank left -> blank right ->
  Unicode.strip (left ++ k ++ right) = Unicode.strip k.
Proof.
  intros Hl Hr. unfold Unicode.strip.
  rewrite lstrip_blank by exact Hl. rewrite lstrip_app.
  destruct (Unicode.lstrip k) as [|c r] eqn:E.
  - now rewrite lstrip_all_blank.
  - now rewrite rstrip_blank.
Qed.

Lemma isspace_not_lower c :
  Unicode.isspace c = true -> (97 <=? c) && (c <=? 122) = false.
Proof.
  unfold Unicode.isspace. intros H.
  destruct (Z.leb_spec 97 c); [|reflexivity].
  destruct (Z.leb_spec c 122); [|reflexivity]. exfalso.
  rewrite !orb_true_iff, !andb_true_iff, !Z.leb_le, !Z.eqb_eq in H. lia.
Qed.

Lemma hexlify_lower b :
  octets b -> Forall (fun c => is_lower_hex c = true) (binascii.hexlify b).
Proof.
  induction 1 as [|c r Hc _ IH]; [constructor|].
  pose proof (below_spec 256 hex_lower_ok eq_refl c Hc) as H.
  apply andb_prop in H as [H1 H2]. cbn [binascii.hexlify]. now repeat constructor.
Qed.

Lemma le_bytes_octets n x : octets (hashlib.le_bytes n x).
Proof.
  unfold hashlib.le_bytes. apply Forall_map, Forall_forall. intros k _.
  apply Z.mod_pos_bound. lia.
Qed.

Lemma md5_digest_octets b : octets (hashlib.md5_digest b).
Proof.
  unfold hashlib.md5_digest. destruct (hashlib.md5_blocks _ _ _) as [[[A B] C] D].
  repeat (apply Forall_app; split); apply le_bytes_octets.
Qed.

Lemma md5_digest_length b : List.length (hashlib.md5_digest b) = 16%nat.
Proof.
  unfold hashlib.md5_digest. destruct (hashlib.md5_blocks _ _ _) as [[[A B] C] D].
  reflexivity.
Qed.

Section Claims.
Context {python : Interpreter}.

Lemma upper_app a b : upper (a ++ b) = upper a ++ upper b.
Proof. apply flat_map_app. Qed.

Lemma upper_blank ws : blank ws -> upper ws = ws.
Proof.
  induction 1 as [|c ws Hc _ IH]; [reflexivity|].
  unfold upper in *. cbn [Unicode.upper flat_map]. unfold Unicode.upper in IH.
  rewrite IH. unfold Unicode.toupper.
  rewrite (isspace_not_lower c Hc), Hc, orb_true_r. reflexivity.
Qed.

Lemma upper_padded left core right :
  blank left -> blank right ->
  upper (left ++ core ++ right) = left ++ upper core ++ right.
Proof.
  intros Hl Hr. now rewrite !upper_app, (upper_blank left), (upper_blank right).
Qed.

Lemma Shell_init_value :
  Shell_init
  = Ok {| supported_commands :=
            [(HELP, HelpCommand HELP); (EXIT, ExitCommand EXIT);
             (ENCODE, EncodeCommand ENCODE EncodeCommand_DOCUMENTATION);
             (DECODE, DecodeCommand DECODE DecodeCommand_DOCUMENTATION);
             (HASH, HashCommand HASH)] |}.
Proof. reflexivity. Qed.

Lemma parse_cmd_argv line :
  _parse_cmd line
  = rbind (str_to_command_name
             (upper (Unicode.strip (hd [] (Unicode.split 32 line)))))
      (fun n => Ok (n, parse_argv line)).
Proof. reflexivity. Qed.

(** C9: a line that ends with a space gives [_parse_cmd] an argument list
    that is not empty and whose last element is the empty string; [_parse_cmd]
    returns that list with the command name (or raises when the command token
    names no command). So the line [help ] (with the space) raises the
    "takes no arguments" [ValueError] and prints no help, and [encode ]
    raises the argument-count error and prints no syntax line. *)
Theorem C9_trailing_space_argument :
  (forall pre, exists init, parse_argv (pre ++ pystr " ") = init ++ [pystr ""])
  /\ (forall pre,
        (exists name init,
            _parse_cmd (pre ++ pystr " ") = Ok (name, init ++ [pystr ""]))
        \/ (exists msg,
              _parse_cmd (pre ++ pystr " ")
              = Raise (CommandNameConversionError msg)))
  /\ (forall shell, Shell_init = Ok shell ->
        execute_command shell (pystr "help ")
        = ([], Raise (ValueError
                        (pystr "This command takes no arguments: CommandName.HELP")))
        /\ execute_command shell (pystr "encode ")
           = ([], Raise (ValueError
                           (pystr "This command takes exactly 2 arguments: CommandName.ENCODE")))
        /\ execute_command shell (pystr "help")
           = ([HelpCommand_DOCUMENTATION ++ [10]], Ok tt)
        /\ execute_command shell (pystr "encode")
           = ([EncodeCommand_DOCUMENTATION ++ [10]], Ok tt)).
Proof.
  change (pystr " ") with [32]. change (pystr "") with (@nil Z).
  split; [exact parse_argv_trailing_space|]. split.
  - intros pre. rewrite parse_cmd_argv.
    destruct (parse_argv_trailing_space pre) as [init ->].
    unfold str_to_command_name.
    destruct (contains _ _) eqn:E; cbn [negb rbind].
    + apply contains_In, (getitem_In CommandName_members) in E as [n ->].
      left. now exists n, init.
    + right. eexists. reflexivity.
  - intros shell [= <-]. repeat split; reflexivity.
Qed.

Lemma enter_unfold shell line rest :
  enter_command_to_execute shell (line :: rest)
  = loop_turn (execute_command shell line) (enter_command_to_execute shell rest).
Proof.
  cbn [enter_command_to_execute]. unfold loop_turn.
  destruct (execute_command shell line) as [out [u|e]];
    destruct (enter_command_to_execute shell rest) as [out' e']; try reflexivity.
Qed.

Lemma CommandName_name_members n :
  getitem CommandName_members (CommandName_name n) = Ok n.
Proof. destruct n; reflexivity. Qed.

Lemma members_In key :
  In key (keys CommandName_members) <-> exists n, key = CommandName_name n.
Proof.
  cbn [keys CommandName_members map fst In]. split.
  - intros [H|[H|[H|[H|[H|[]]]]]]; subst;
      [exists HELP | exists EXIT | exists ENCODE | exists DECODE | exists HASH];
      reflexivity.
  - intros [[] ->]; cbn; tauto.
Qed.

(** C3 (amended): [str_to_command_name] upper-cases its token, and does not
    trim it, before the lookup in [CommandName]; so [HELP], [help] and [HeLp]
    all resolve to [CommandName.HELP]. A token whose upper-case form is the
    name of a member resolves to that member; every other token raises
    [CommandNameConversionError], with the token in its message. The trimming
    is done by [Shell._parse_cmd], which strips and upper-cases the first
    element of the line before it calls [str_to_command_name]. *)
Theorem C3_command_name_resolution :
  (forall token n,
      upper token = CommandName_name n -> str_to_command_name token = Ok n)
  /\ (forall token,
        (forall n, upper token <> CommandName_name n) ->
        str_to_command_name token
        = Raise (CommandNameConversionError
                   (pystr "Invalid command name: " ++ token)))
  /\ str_to_command_name (pystr "HELP") = Ok HELP
  /\ str_to_command_name (pystr "help") = Ok HELP
  /\ str_to_command_name (pystr "HeLp") = Ok HELP
  /\ str_to_command_name (pystr " help")
     = Raise (CommandNameConversionError (pystr "Invalid command name:  help"))
  /\ (forall line,
        _parse_cmd line
        = rbind (str_to_command_name
                   (upper (Unicode.strip (hd [] (Unicode.split 32 line)))))
            (fun name => Ok (name, parse_argv line))).
Proof.
  split; [|split]; [| |repeat split; reflexivity].
  - intros token n H. unfold str_to_command_name. rewrite H.
    replace (contains _ _) with true.
    + apply CommandName_name_members.
    + symmetry. apply contains_In, members_In. now exists n.
  - intros token H. unfold str_to_command_name.
    destruct (contains _ _) eqn:E; [|reflexivity].
    apply contains_In, members_In in E as [n E]. now apply H in E.
Qed.

(** C4: with an empty argument list, [execute] of the encode, decode and hash
    commands prints the syntax line of the command, which lists the names of
    its algorithm table in order, and returns: nothing is raised and nothing
    else is printed. *)
Theorem C4_no_argument_prints_syntax :
  (forall name,
      EncodeCommand_execute name [] = ([EncodeCommand_DOCUMENTATION ++ [10]], Ok tt)
      /\ DecodeCommand_execute name [] = ([DecodeCommand_DOCUMENTATION ++ [10]], Ok tt)
      /\ HashCommand_execute name [] = ([HashCommand_DOCUMENTATION ++ [10]], Ok tt))
  /\ EncodeCommand_DOCUMENTATION
     = pystr "Syntax: Encode <InputText> < "
       ++ Unicode.join (pystr " | ") (keys EncodeCommand_ALGORITHMS) ++ pystr " > "
  /\ EncodeCommand_DOCUMENTATION
     = pystr "Syntax: Encode <InputText> < A85 | BASE16 | BASE32 | BASE32HEX | BASE64 | BASE85 | HEXLIFY > "
  /\ DecodeCommand_DOCUMENTATION
     = pystr "Syntax: Decode <InputText> < "
       ++ Unicode.join (pystr " | ") (keys DecodeCommand_ALGORITHMS) ++ pystr " >"
  /\ DecodeCommand_DOCUMENTATION
     = pystr "Syntax: Decode <InputText> < A85 | BASE16 | BASE32 | BASE32HEX | BASE64 | BASE85 | HEXLIFY >"
  /\ HashCommand_DOCUMENTATION
     = pystr "Syntax: Hash <InputText> < "
       ++ Unicode.join (pystr " | ") (keys HashCommand_ALGORITHMS) ++ pystr " >"
  /\ HashCommand_DOCUMENTATION
     = pystr "Syntax: Hash <InputText> < BLAKE2B | BLAKE2S | MD5 | SHA1 | SHA224 | SHA256 | SHA384 | SHA3_224 | SHA3_256 | SHA3_384 | SHA3_512 | SHA512 >"
  /\ (forall shell, Shell_init = Ok shell ->
        execute_command shell (pystr "encode")
        = ([EncodeCommand_DOCUMENTATION ++ [10]], Ok tt)
        /\ execute_command shell (pystr "decode")
           = ([DecodeCommand_DOCUMENTATION ++ [10]], Ok tt)
        /\ execute_command shell (pystr "hash")
           = ([HashCommand_DOCUMENTATION ++ [10]], Ok tt)).
Proof.
  repeat split; try reflexivity.
  all: injection H as <-; reflexivity.
Qed.

Lemma command_factory_total n :
  exists c, command_factory n = Ok c /\ class_of c = n /\ get_name c = n.
Proof. destruct n; eexists; repeat split. Qed.

Lemma execute_command_dispatch shell line name argv :
  Shell_init = Ok shell ->
  _parse_cmd line = Ok (name, argv) ->
  exists c, command_factory name = Ok c
            /\ lookup_command (supported_commands shell) name = Ok c
            /\ execute_command shell line = execute c argv.
Proof.
  intros [= <-] H. unfold execute_command. rewrite H, bind_lift_Ok.
  destruct name; eexists; (split; [reflexivity|]); (split; [reflexivity|]);
    cbn [lookup_command supported_commands CommandName_eqb];
    now rewrite bind_lift_Ok.
Qed.

(** C8: [Shell()] builds [supported_commands] with one entry for each
    [CommandName], in the order of the enumeration, and the entry of a name
    is the instance [command_factory] gives for it, of the class that serves
    that name: [HELP] a [HelpCommand], [EXIT] an [ExitCommand], [ENCODE] an
    [EncodeCommand], [DECODE] a [DecodeCommand], [HASH] a [HashCommand].
    Executing a line only reads the mapping: the command run for a line is
    the entry of its name, and the loop goes on with the same shell. *)
Theorem C8_supported_commands :
  exists shell,
    Shell_init = Ok shell
    /\ supported_commands shell
       = [(HELP, HelpCommand HELP); (EXIT, ExitCommand EXIT);
          (ENCODE, EncodeCommand ENCODE EncodeCommand_DOCUMENTATION);
          (DECODE, DecodeCommand DECODE DecodeCommand_DOCUMENTATION);
          (HASH, HashCommand HASH)]
    /\ (forall n, exists c,
           command_factory n = Ok c
           /\ filter (fun entry => CommandName_eqb (fst entry) n)
                (supported_commands shell) = [(n, c)]
           /\ lookup_command (supported_commands shell) n = Ok c
           /\ class_of c = n /\ get_name c = n)
    /\ (forall line name argv,
           _parse_cmd line = Ok (name, argv) ->
           exists c, lookup_command (supported_commands shell) name = Ok c
                     /\ execute_command shell line = execute c argv)
    /\ (forall line rest,
           enter_command_to_execute shell (line :: rest)
           = loop_turn (execute_command shell line)
               (enter_command_to_execute shell rest)).
Proof.
  eexists. split; [reflexivity|]. split; [reflexivity|]. split; [|split].
  - intros n. destruct n; eexists; repeat split.
  - intros line name argv H.
    destruct (execute_command_dispatch _ line name argv eq_refl H)
      as (c & _ & H1 & H2).
    now exists c.
  - intros line rest. apply enter_unfold.
Qed.

(** *** The three commands with two arguments *)

Lemma Encode_invalid name text alg :
  contains (keys EncodeCommand_ALGORITHMS) (Unicode.strip (upper alg)) = false ->
  EncodeCommand_execute name [text; alg]
  = ([], Raise (ValueError
                  (pystr "Invalid algorithm name: " ++ alg ++ pystr ";"
                   ++ pystr "Available algorithms: "
                   ++ dict_keys_str (keys EncodeCommand_ALGORITHMS)))).
Proof.
  intros H. unfold EncodeCommand_execute, EncodeCommand_validate_argv.
  cbn [List.length Nat.eqb negb rbind unpack2 snd].
  rewrite H. reflexivity.
Qed.

Lemma Encode_valid name text alg :
  contains (keys EncodeCommand_ALGORITHMS) (Unicode.strip (upper alg)) = true ->
  EncodeCommand_execute name [text; alg]
  = bind (lift (getitem EncodeCommand_ALGORITHMS (Unicode.strip (upper alg))))
      (fun func_ =>
         bind (lift (utf8.encode text))
           (fun input_data_bytes => print (bytes_repr (func_ input_data_bytes)))).
Proof.
  intros H. unfold EncodeCommand_execute, EncodeCommand_validate_argv.
  cbn [List.length Nat.eqb negb rbind unpack2 snd].
  rewrite H. cbn [negb]. now rewrite !bind_lift_Ok.
Qed.

Lemma Decode_invalid name text alg :
  contains (keys DecodeCommand_ALGORITHMS) (Unicode.strip (upper alg)) = false ->
  DecodeCommand_execute name [text; alg]
  = ([], Raise (ValueError
                  (pystr "Invalid algorithm name: " ++ alg ++ pystr ";"
                   ++ pystr "Available algorithms: "
                   ++ dict_keys_str (keys DecodeCommand_ALGORITHMS)))).
Proof.
  intros H. unfold DecodeCommand_execute, DecodeCommand_validate_argv.
  cbn [List.length Nat.eqb negb rbind unpack2 snd].
  rewrite H. reflexivity.
Qed.

Lemma Decode_valid name text alg :
  contains (keys DecodeCommand_ALGORITHMS) (Unicode.strip (upper alg)) = true ->
  DecodeCommand_execute name [text; alg]
  = bind (lift (getitem DecodeCommand_ALGORITHMS (Unicode.strip (upper alg))))
      (fun func_ =>
         bind (lift (func_ (Str text)))
           (fun decoded => bind (lift (utf8.decode decoded)) print)).
Proof.
  intros H. unfold DecodeCommand_execute, DecodeCommand_validate_argv.
  cbn [List.length Nat.eqb negb rbind unpack2 snd].
  rewrite H. cbn [negb]. now rewrite !bind_lift_Ok.
Qed.

Lemma Hash_invalid name text alg :
  contains (keys HashCommand_ALGORITHMS) (upper alg) = false ->
  HashCommand_execute name [text; alg]
  = ([], Raise (ValueError
                  (pystr "Invalid algorithm name: " ++ alg
                   ++ pystr "; Available algorithms: "
                   ++ dict_keys_str (keys HashCommand_ALGORITHMS)))).
Proof.
  intros H. unfold HashCommand_execute, HashCommand_validate_argv.
  cbn [List.length Nat.eqb negb rbind unpack2 snd].
  rewrite H. reflexivity.
Qed.

Lemma Hash_valid name text alg :
  contains (keys HashCommand_ALGORITHMS) (upper alg) = true ->
  HashCommand_execute name [text; alg]
  = bind (lift (utf8.encode text))
      (fun input_data_bytes =>
         bind (lift (getitem HashCommand_ALGORITHMS (Unicode.strip (upper alg))))
           (fun hashing_fn => print (hexdigest hashing_fn input_data_bytes))).
Proof.
  intros H. unfold HashCommand_execute, HashCommand_validate_argv.
  cbn [List.length Nat.eqb negb rbind unpack2 snd].
  rewrite H. cbn [negb]. now rewrite !bind_lift_Ok.
Qed.

Lemma encode_keys_stripped k :
  In k (keys EncodeCommand_ALGORITHMS) -> Unicode.strip k = k.
Proof.
  cbn [keys EncodeCommand_ALGORITHMS map fst In].
  intros H. repeat (destruct H as [<-|H]; [reflexivity|]). destruct H.
Qed.

Lemma decode_keys_stripped k :
  In k (keys DecodeCommand_ALGORITHMS) -> Unicode.strip k = k.
Proof.
  cbn [keys DecodeCommand_ALGORITHMS map fst In].
  intros H. repeat (destruct H as [<-|H]; [reflexivity|]). destruct H.
Qed.

Lemma hash_keys_stripped k :
  In k (keys HashCommand_ALGORITHMS) -> Unicode.strip k = k.
Proof.
  cbn [keys HashCommand_ALGORITHMS map fst In].
  intros H. repeat (destruct H as [<-|H]; [reflexivity|]). destruct H.
Qed.

Lemma padded_not_stripped left k right :
  blank left -> blank right -> left ++ right <> [] ->
  Unicode.strip k = k -> Unicode.strip (left ++ k ++ right) <> left ++ k ++ right.
Proof.
  intros Hl Hr Hne Hk E. rewrite strip_padded, Hk in E by assumption.
  apply (f_equal (@List.length Z)) in E. rewrite !length_app in E.
  destruct left, right; cbn in *; try lia. now apply Hne.
Qed.

(** C10: [HashCommand._validate_argv] upper-cases the algorithm argument and
    does not strip it, while the validation of [EncodeCommand] and of
    [DecodeCommand] upper-cases and strips. So when white space around a
    valid name reaches the commands, as in [' md5 '], [HashCommand.execute]
    raises the invalid-algorithm [ValueError], and [EncodeCommand.execute]
    and [DecodeCommand.execute] accept the argument and do what they do for
    the name without the white space. *)
Theorem C10_hash_validation_does_not_strip name text left core right :
  blank left -> blank right -> left ++ right <> [] ->
  (In (upper core) (keys HashCommand_ALGORITHMS) ->
   HashCommand_execute name [text; left ++ core ++ right]
   = ([], Raise (ValueError
                   (pystr "Invalid algorithm name: " ++ (left ++ core ++ right)
                    ++ pystr "; Available algorithms: "
                    ++ dict_keys_str (keys HashCommand_ALGORITHMS)))))
  /\ (In (upper core) (keys EncodeCommand_ALGORITHMS) ->
      EncodeCommand_validate_argv name [text; left ++ core ++ right] = Ok tt
      /\ EncodeCommand_execute name [text; left ++ core ++ right]
         = EncodeCommand_execute name [text; core])
  /\ (In (upper core) (keys DecodeCommand_ALGORITHMS) ->
      DecodeCommand_validate_argv name [text; left ++ core ++ right] = Ok tt
      /\ DecodeCommand_execute name [text; left ++ core ++ right]
         = DecodeCommand_execute name [text; core]).
Proof.
  intros Hl Hr Hne. split; [|split]; intros Hk.
  - apply Hash_invalid. rewrite upper_padded by assumption.
    destruct (contains _ _) eqn:E; [|reflexivity].
    apply contains_In, hash_keys_stripped in E.
    exfalso. revert E. apply padded_not_stripped; try assumption.
    now apply hash_keys_stripped.
  - assert (E : Unicode.strip (upper (left ++ core ++ right)) = upper core)
      by (rewrite upper_padded, strip_padded by assumption;
          now apply encode_keys_stripped).
    assert (E' : Unicode.strip (upper core) = upper core)
      by now apply encode_keys_stripped.
    apply contains_In in Hk. split.
    + unfold EncodeCommand_validate_argv.
      cbn [List.length Nat.eqb negb rbind unpack2 snd].
      now rewrite E, Hk.
    + rewrite !Encode_valid by (rewrite ?E, ?E'; exact Hk). now rewrite E, E'.
  - assert (E : Unicode.strip (upper (left ++ core ++ right)) = upper core)
      by (rewrite upper_padded, strip_padded by assumption;
          now apply decode_keys_stripped).
    assert (E' : Unicode.strip (upper core) = upper core)
      by now apply decode_keys_stripped.
    apply contains_In in Hk. split.
    + unfold DecodeCommand_validate_argv.
      cbn [List.length Nat.eqb negb rbind unpack2 snd].
      now rewrite E, Hk.
    + rewrite !Decode_valid by (rewrite ?E, ?E'; exact Hk). now rewrite E, E'.
Qed.

(** *** What a command can raise *)

Lemma fails_bind_lift {A B} (r : result A) (f : A -> IO B) :
  only_ValueError r -> (forall a, r = Ok a -> fails_with_ValueError (f a)) ->
  fails_with_ValueError (bind (lift r) f).
Proof.
  destruct r as [a|e]; intros H Hf.
  - rewrite bind_lift_Ok. now apply Hf.
  - rewrite bind_lift_Raise. now split.
Qed.

Lemma fails_print s : fails_with_ValueError (print s).
Proof. exact I. Qed.

Lemma decode_table_only key func_ d :
  getitem DecodeCommand_ALGORITHMS key = Ok func_ -> only_ValueError (func_ d).
Proof.
  cbn [getitem DecodeCommand_ALGORITHMS].
  repeat (destruct (str_eqb _ key);
          [intros [= <-];
           first [ apply error_facts.only_a85decode
                 | apply error_facts.only_b16decode
                 | apply error_facts.only_b32decode
                 | apply error_facts.only_b64decode
                 | apply error_facts.only_b85decode
                 | apply error_facts.only_unhexlify ] |]).
  discriminate.
Qed.

Lemma getitem_contains {A} (table : list (str * A)) key :
  contains (keys table) key = true -> only_ValueError (getitem table key).
Proof. intros H. apply contains_In, getitem_In in H as [v ->]. exact I. Qed.

Lemma Decode_fails name argv :
  fails_with_ValueError (DecodeCommand_execute name argv).
Proof.
  destruct argv as [|text [|alg [|x r]]]; try exact I; try (now split).
  destruct (contains (keys DecodeCommand_ALGORITHMS) (Unicode.strip (upper alg))) eqn:E.
  - rewrite Decode_valid by exact E.
    apply fails_bind_lift; [now apply getitem_contains|]. intros func_ Hf.
    apply fails_bind_lift; [now apply (decode_table_only _ _ _ Hf)|]. intros decoded _.
    apply fails_bind_lift; [apply error_facts.only_utf8_decode|]. intros; exact I.
  - rewrite Decode_invalid by exact E. now split.
Qed.

Lemma Encode_fails name argv :
  fails_with_ValueError (EncodeCommand_execute name argv).
Proof.
  destruct argv as [|text [|alg [|x r]]]; try exact I; try (now split).
  destruct (contains (keys EncodeCommand_ALGORITHMS) (Unicode.strip (upper alg))) eqn:E.
  - rewrite Encode_valid by exact E.
    apply fails_bind_lift; [now apply getitem_contains|]. intros func_ _.
    apply fails_bind_lift; [apply error_facts.only_utf8_encode|]. intros; exact I.
  - rewrite Encode_invalid by exact E. now split.
Qed.

Lemma Hash_fails name argv :
  fails_with_ValueError (HashCommand_execute name argv).
Proof.
  destruct argv as [|text [|alg [|x r]]]; try exact I; try (now split).
  destruct (contains (keys HashCommand_ALGORITHMS) (upper alg)) eqn:E.
  - rewrite Hash_valid by exact E.
    apply fails_bind_lift; [apply error_facts.only_utf8_encode|]. intros raw _.
    apply fails_bind_lift; [|intros; exact I].
    apply getitem_contains.
    pose proof E as E'. apply contains_In, hash_keys_stripped in E'.
    now rewrite E'.
  - rewrite Hash_invalid by exact E. now split.
Qed.

Lemma Help_fails name argv : fails_with_ValueError (HelpCommand_execute name argv).
Proof. destruct argv; [exact I | now split]. Qed.

Lemma Exit_no_argument name :
  ExitCommand_execute name [] = ([pystr "Exiting..." ++ [10]], Raise (SystemExit 0)).
Proof. reflexivity. Qed.

Lemma Exit_arguments name a argv :
  ExitCommand_execute name (a :: argv)
  = ([], Raise (ValueError (pystr "This command takes no arguments: "
                            ++ CommandName_str name))).
Proof. reflexivity. Qed.

Lemma parse_cmd_raises line e :
  _parse_cmd line = Raise e -> is_CommandNameConversionError e = true.
Proof.
  rewrite parse_cmd_argv. unfold str_to_command_name.
  destruct (contains _ _) eqn:E; cbn [negb rbind].
  - apply contains_In, (getitem_In CommandName_members) in E as [n ->]. discriminate.
  - now intros [= <-].
Qed.

(** A line that is not [exit] alone: the command returns, or raises what
    the handler of the loop catches. *)
Lemma ordinary_line shell line :
  Shell_init = Ok shell -> exit_line line = false ->
  match execute_command shell line with
  | (_, Ok _) => True
  | (_, Raise e) => is_CommandNameConversionError e || is_ValueError e = true
  end.
Proof.
  intros Hs Hl. unfold exit_line in Hl.
  destruct (_parse_cmd line) as [[name argv]|e] eqn:E.
  - destruct (execute_command_dispatch shell line name argv Hs E)
      as (c & Hc & _ & ->).
    destruct name; cbn in Hc; injection Hc as <-; cbn [execute].
    + pose proof (Help_fails HELP argv) as H.
      destruct (HelpCommand_execute HELP argv) as [out [u|e]]; [exact I|].
      destruct H as [_ ->]. apply orb_true_r.
    + destruct argv as [|a argv]; [discriminate|].
      rewrite Exit_arguments. reflexivity.
    + pose proof (Encode_fails ENCODE argv) as H.
      destruct (EncodeCommand_execute ENCODE argv) as [out [u|e]]; [exact I|].
      destruct H as [_ ->]. apply orb_true_r.
    + pose proof (Decode_fails DECODE argv) as H.
      destruct (DecodeCommand_execute DECODE argv) as [out [u|e]]; [exact I|].
      destruct H as [_ ->]. apply orb_true_r.
    + pose proof (Hash_fails HASH argv) as H.
      destruct (HashCommand_execute HASH argv) as [out [u|e]]; [exact I|].
      destruct H as [_ ->]. apply orb_true_r.
  - unfold execute_command. rewrite E, bind_lift_Raise.
    now rewrite (parse_cmd_raises line e E).
Qed.

Lemma exit_line_runs shell line :
  Shell_init = Ok shell -> exit_line line = true ->
  execute_command shell line
  = ([pystr "Exiting..." ++ [10]], Raise (SystemExit 0)).
Proof.
  intros Hs Hl. unfold exit_line in Hl.
  destruct (_parse_cmd line) as [[[] [|a argv]]|e] eqn:E; try discriminate.
  destruct (execute_command_dispatch shell line EXIT [] Hs E) as (c & Hc & _ & ->).
  cbn in Hc. now injection Hc as <-.
Qed.

Lemma loop_without_exit shell stdin :
  Shell_init = Ok shell ->
  Forall (fun line => exit_line line = false) stdin ->
  snd (enter_command_to_execute shell stdin) = EOFError.
Proof.
  intros Hs. induction 1 as [|line rest Hl _ IH]; [reflexivity|].
  rewrite enter_unfold. pose proof (ordinary_line shell line Hs Hl) as H.
  unfold loop_turn.
  destruct (execute_command shell line) as [out [u|e]]; [exact IH|].
  rewrite H. exact IH.
Qed.

Lemma loop_until_exit shell before line after :
  Shell_init = Ok shell ->
  Forall (fun l => exit_line l = false) before ->
  exit_line line = true ->
  snd (enter_command_to_execute shell (before ++ line :: after)) = SystemExit 0
  /\ enter_command_to_execute shell (before ++ line :: after)
     = enter_command_to_execute shell (before ++ [line])
  /\ exists out,
       fst (enter_command_to_execute shell (before ++ line :: after))
       = out ++ [prompt; pystr "Exiting..." ++ [10]].
Proof.
  intros Hs Hb Hl. induction Hb as [|l0 rest Hl0 _ IH]; cbn [app].
  - rewrite !enter_unfold, (exit_line_runs shell line Hs Hl).
    cbn. repeat split. now exists [].
  - rewrite !enter_unfold. pose proof (ordinary_line shell l0 Hs Hl0) as H.
    destruct IH as (IH1 & IH2 & out' & IH3).
    unfold loop_turn.
    destruct (execute_command shell l0) as [out [u|e]].
    + rewrite IH2. cbn [fst snd]. rewrite <- IH2. repeat split; [exact IH1|].
      rewrite IH3. exists (prompt :: out ++ out').
      cbn [app]. now rewrite !app_assoc.
    + rewrite H. rewrite IH2. cbn [fst snd]. rewrite <- IH2.
      repeat split; [exact IH1|].
      rewrite IH3. exists (prompt :: out ++ [exception_str e ++ [10]] ++ out').
      cbn [app]. now rewrite <- !app_assoc.
Qed.

Lemma first_exit_line stdin :
  Forall (fun line => exit_line line = false) stdin
  \/ exists before line after,
       stdin = before ++ line :: after
       /\ Forall (fun l => exit_line l = false) before
       /\ exit_line line = true.
Proof.
  induction stdin as [|l r IH]; [left; constructor|].
  destruct (exit_line l) eqn:E.
  - right. exists [], l, r. repeat split; [constructor | exact E].
  - destruct IH as [IH|(before & line & after & -> & Hb & Hl)].
    + left. now constructor.
    + right. exists (l :: before), line, after. repeat split; [now constructor | exact Hl].
Qed.

Lemma decode_command_prints name alg dec encoded decoded text :
  getitem DecodeCommand_ALGORITHMS (Unicode.strip (upper alg)) = Ok dec ->
  dec (Str encoded) = Ok decoded ->
  utf8.decode decoded = Ok text ->
  DecodeCommand_execute name [encoded; alg] = ([text ++ [10]], Ok tt).
Proof.
  intros Hk Hd Ht. rewrite Decode_valid.
  - rewrite Hk, bind_lift_Ok, Hd, bind_lift_Ok, Ht, bind_lift_Ok. reflexivity.
  - apply contains_In. apply getitem_Ok_In in Hk.
    apply in_map_iff. now exists (Unicode.strip (upper alg), dec).
Qed.

(** C1: for each of the seven names of the encode and decode tables, and for
    every text that [str.encode()] accepts, the decoder the decode table
    holds under a name, applied to what the encoder under the same name makes
    of the octets of the text, gives octets that [bytes.decode()] turns back
    into the text. This holds for the encoder's output as [bytes] and as the
    [str] of the same characters, which is how the decode command receives
    it: that command, given this text and the name, prints the original
    text. *)
Theorem C1_decode_encode_round_trip alg text raw :
  In alg (keys EncodeCommand_ALGORITHMS) ->
  utf8.encode text = Ok raw ->
  keys EncodeCommand_ALGORITHMS
  = map pystr ["A85"; "BASE16"; "BASE32"; "BASE32HEX"; "BASE64"; "BASE85"; "HEXLIFY"]%string
  /\ keys DecodeCommand_ALGORITHMS = keys EncodeCommand_ALGORITHMS
  /\ exists enc dec decoded,
       getitem EncodeCommand_ALGORITHMS alg = Ok enc
       /\ getitem DecodeCommand_ALGORITHMS alg = Ok dec
       /\ dec (Bytes (enc raw)) = Ok decoded
       /\ dec (Str (enc raw)) = Ok decoded
       /\ utf8.decode decoded = Ok text
       /\ forall name,
            DecodeCommand_execute name [enc raw; alg] = ([text ++ [10]], Ok tt).
Proof.
  intros Halg Hraw. split; [reflexivity|]. split; [reflexivity|].
  pose proof (utf8_facts.encode_octets text raw Hraw) as Hoct.
  pose proof (utf8_facts.decode_encode text raw Hraw) as Hdec.
  cbn [keys EncodeCommand_ALGORITHMS map fst In] in Halg.
  destruct Halg as [<-|[<-|[<-|[<-|[<-|[<-|[<-|[]]]]]]]].
  - assert (HB : base64.a85decode (Bytes (base64.a85encode raw)) = Ok raw)
      by now apply b85_facts.a85decode_a85encode.
    assert (HS : base64.a85decode (Str (base64.a85encode raw)) = Ok raw)
      by (rewrite text_facts.a85decode_Str; [exact HB|];
          now apply text_facts.a85encode_ascii).
    exists base64.a85encode, base64.a85decode, raw.
    repeat (split; [reflexivity || assumption|]).
    intros name. now apply (decode_command_prints name _ base64.a85decode _ raw).
  - assert (HB : base64.b16decode (Bytes (base64.b16encode raw)) = Ok raw)
      by now apply hex_facts.b16decode_b16encode.
    assert (HS : base64.b16decode (Str (base64.b16encode raw)) = Ok raw)
      by (rewrite text_facts.b16decode_Str; [exact HB|];
          now apply text_facts.b16encode_ascii).
    exists base64.b16encode, base64.b16decode, raw.
    repeat (split; [reflexivity || assumption|]).
    intros name. now apply (decode_command_prints name _ base64.b16decode _ raw).
  - assert (HB : base64.b32decode (Bytes (base64.b32encode raw)) = Ok raw)
      by now apply b32_facts.b32decode_b32encode.
    assert (HS : base64.b32decode (Str (base64.b32encode raw)) = Ok raw)
      by (unfold base64.b32decode; rewrite text_facts.b32decode_Str; [exact HB|];
          apply text_facts.b32encode_ascii, text_facts.ascii_text_literal;
          reflexivity).
    exists base64.b32encode, base64.b32decode, raw.
    repeat (split; [reflexivity || assumption|]).
    intros name. now apply (decode_command_prints name _ base64.b32decode _ raw).
  - assert (HB : base64.b32hexdecode (Bytes (base64.b32hexencode raw)) = Ok raw)
      by now apply b32_facts.b32hexdecode_b32hexencode.
    assert (HS : base64.b32hexdecode (Str (base64.b32hexencode raw)) = Ok raw)
      by (unfold base64.b32hexdecode; rewrite text_facts.b32decode_Str; [exact HB|];
          apply text_facts.b32encode_ascii, text_facts.ascii_text_literal;
          reflexivity).
    exists base64.b32hexencode, base64.b32hexdecode, raw.
    repeat (split; [reflexivity || assumption|]).
    intros name. now apply (decode_command_prints name _ base64.b32hexdecode _ raw).
  - assert (HB : base64.b64decode (Bytes (base64.b64encode raw)) = Ok raw)
      by now apply b64_facts.b64decode_b64encode.
    assert (HS : base64.b64decode (Str (base64.b64encode raw)) = Ok raw)
      by (rewrite text_facts.b64decode_Str; [exact HB|];
          now apply text_facts.b64encode_ascii).
    exists base64.b64encode, base64.b64decode, raw.
    repeat (split; [reflexivity || assumption|]).
    intros name. now apply (decode_command_prints name _ base64.b64decode _ raw).
  - assert (HB : base64.b85decode (Bytes (base64.b85encode raw)) = Ok raw)
      by now apply b85_facts.b85decode_b85encode.
    assert (HS : base64.b85decode (Str (base64.b85encode raw)) = Ok raw)
      by (rewrite text_facts.b85decode_Str; [exact HB|];
          now apply text_facts.b85encode_ascii).
    exists base64.b85encode, base64.b85decode, raw.
    repeat (split; [reflexivity || assumption|]).
    intros name. now apply (decode_command_prints name _ base64.b85decode _ raw).
  - assert (HB : binascii.unhexlify (Bytes (binascii.hexlify raw)) = Ok raw)
      by now apply hex_facts.unhexlify_hexlify.
    assert (HS : binascii.unhexlify (Str (binascii.hexlify raw)) = Ok raw)
      by (rewrite text_facts.unhexlify_Str; [exact HB|];
          now apply text_facts.hexlify_ascii).
    exists binascii.hexlify, binascii.unhexlify, raw.
    repeat (split; [reflexivity || assumption|]).
    intros name. now apply (decode_command_prints name _ binascii.unhexlify _ raw).
Qed.

Lemma hash_hello_MD5 shell :
  Shell_init = Ok shell ->
  execute_command shell (pystr "hash hello MD5")
  = ([pystr "5d41402abc4b2a76b9719d911017c592" ++ [10]], Ok tt).
Proof. intros [= <-]. vm_compute. reflexivity. Qed.

(** C2 (amended): the line [hash hello MD5] prints the lower-case
    hexadecimal digest [5d41402abc4b2a76b9719d911017c592], of thirty-two
    digits. In general [execute] of the hash command, given a text and a name
    whose upper-case form is a key of the table, encodes the text, computes
    the digest of the constructor under that key and prints the digest in
    lower-case hexadecimal. *)
Theorem C2_hash_prints_hexdigest :
  (forall shell, Shell_init = Ok shell ->
      execute_command shell (pystr "hash hello MD5")
      = ([pystr "5d41402abc4b2a76b9719d911017c592" ++ [10]], Ok tt))
  /\ (forall name text alg raw h,
        getitem HashCommand_ALGORITHMS (upper alg) = Ok h ->
        utf8.encode text = Ok raw ->
        HashCommand_execute name [text; alg] = ([hexdigest h raw ++ [10]], Ok tt))
  /\ (forall raw,
        hexdigest hashlib.md5 raw = binascii.hexlify (hashlib.md5_digest raw)
        /\ List.length (hexdigest hashlib.md5 raw) = 32%nat
        /\ Forall (fun c => is_lower_hex c = true) (hexdigest hashlib.md5 raw))
  /\ (forall h raw,
        octets (library_digest h raw) ->
        Forall (fun c => is_lower_hex c = true) (hexdigest h raw)).
Proof.
  split; [exact hash_hello_MD5|]. split; [|split].
  - intros name text alg raw h Hh Hraw.
    assert (Hin : In (upper alg) (keys HashCommand_ALGORITHMS))
      by (apply getitem_Ok_In in Hh; apply in_map_iff; now exists (upper alg, h)).
    rewrite Hash_valid by now apply contains_In.
    rewrite Hraw, bind_lift_Ok, (hash_keys_stripped _ Hin), Hh, bind_lift_Ok.
    reflexivity.
  - intros raw. split; [reflexivity|]. split.
    + unfold hexdigest. rewrite hex_facts.hexlify_length, md5_digest_length.
      reflexivity.
    + apply hexlify_lower, md5_digest_octets.
  - intros h raw H. unfold hexdigest. apply hexlify_lower.
    destruct h; try exact H. apply md5_digest_octets.
Qed.

(** C5 (amended): when the algorithm argument, upper-cased and (by the encode
    and decode commands) stripped, is not a key of the table of the command,
    [execute] raises a [ValueError] whose message names the argument and
    lists the keys of the table, and prints nothing. The loop of the shell
    catches a [ValueError], prints its message and reads the next line. *)
Theorem C5_unknown_algorithm :
  (forall name text alg,
      contains (keys EncodeCommand_ALGORITHMS) (Unicode.strip (upper alg)) = false ->
      EncodeCommand_execute name [text; alg]
      = ([], Raise (ValueError
                      (pystr "Invalid algorithm name: " ++ alg
                       ++ pystr ";Available algorithms: dict_keys(['A85', 'BASE16', 'BASE32', 'BASE32HEX', 'BASE64', 'BASE85', 'HEXLIFY'])"))))
  /\ (forall name text alg,
        contains (keys DecodeCommand_ALGORITHMS) (Unicode.strip (upper alg)) = false ->
        DecodeCommand_execute name [text; alg]
        = ([], Raise (ValueError
                        (pystr "Invalid algorithm name: " ++ alg
                         ++ pystr ";Available algorithms: dict_keys(['A85', 'BASE16', 'BASE32', 'BASE32HEX', 'BASE64', 'BASE85', 'HEXLIFY'])"))))
  /\ (forall name text alg,
        contains (keys HashCommand_ALGORITHMS) (upper alg) = false ->
        HashCommand_execute name [text; alg]
        = ([], Raise (ValueError
                        (pystr "Invalid algorithm name: " ++ alg
                         ++ pystr "; Available algorithms: dict_keys(['BLAKE2B', 'BLAKE2S', 'MD5', 'SHA1', 'SHA224', 'SHA256', 'SHA384', 'SHA3_224', 'SHA3_256', 'SHA3_384', 'SHA3_512', 'SHA512'])"))))
  /\ (forall shell line rest out e,
        execute_command shell line = (out, Raise e) ->
        is_ValueError e = true ->
        enter_command_to_execute shell (line :: rest)
        = (prompt :: out ++ [exception_str e ++ [10]]
             ++ fst (enter_command_to_execute shell rest),
           snd (enter_command_to_execute shell rest)))
  /\ (forall shell rest, Shell_init = Ok shell ->
        enter_command_to_execute shell (pystr "encode hello FOO" :: rest)
        = (prompt
             :: (pystr "Invalid algorithm name: FOO;Available algorithms: dict_keys(['A85', 'BASE16', 'BASE32', 'BASE32HEX', 'BASE64', 'BASE85', 'HEXLIFY'])" ++ [10])
             :: fst (enter_command_to_execute shell rest),
           snd (enter_command_to_execute shell rest))).
Proof.
  split; [|split; [|split; [|split]]].
  - intros name text alg H. exact (Encode_invalid name text alg H).
  - intros name text alg H. exact (Decode_invalid name text alg H).
  - intros name text alg H. exact (Hash_invalid name text alg H).
  - intros shell line rest out e H He. rewrite enter_unfold, H.
    unfold loop_turn. rewrite He, orb_true_r. reflexivity.
  - intros shell rest [= <-]. rewrite enter_unfold. reflexivity.
Qed.

Lemma Decode_with name payload key dec :
  getitem DecodeCommand_ALGORITHMS key = Ok dec ->
  Unicode.strip (upper key) = key ->
  DecodeCommand_execute name [payload; key]
  = bind (lift (dec (Str payload)))
      (fun decoded => bind (lift (utf8.decode decoded)) print).
Proof.
  intros H K. rewrite Decode_valid.
  - now rewrite K, H, bind_lift_Ok.
  - rewrite K. apply contains_In. apply getitem_Ok_In in H.
    apply in_map_iff. now exists (key, dec).
Qed.

Lemma Decode_raises name payload key dec e :
  getitem DecodeCommand_ALGORITHMS key = Ok dec ->
  Unicode.strip (upper key) = key ->
  dec (Str payload) = Raise e ->
  DecodeCommand_execute name [payload; key] = ([], Raise e).
Proof. intros H K E. now rewrite (Decode_with name payload key dec H K), E. Qed.

Lemma stray_character name :
  DecodeCommand_execute name [pystr "Zm9v!YmFy"; pystr "BASE64"]
  = ([pystr "foobar" ++ [10]], Ok tt).
Proof. reflexivity. Qed.

Lemma b32alphabet_ascii : ascii_text base64._b32alphabet.
Proof. apply text_facts.ascii_text_literal. reflexivity. Qed.

Lemma b32hexalphabet_ascii : ascii_text base64._b32hexalphabet.
Proof. apply text_facts.ascii_text_literal. reflexivity. Qed.


(** C7: [execute] of the exit command with no argument prints [Exiting...]
    and raises [SystemExit(0)], which ends the process with status 0; with
    any argument it raises the argument-count [ValueError] and does not
    exit. The loop of the shell ends with [SystemExit(0)] exactly at the
    first line that runs the exit command with no argument, and the lines
    after it are not read; on input without such a line it only ends when
    the input does, with [EOFError]. *)
Theorem C7_exit :
  (forall name,
      ExitCommand_execute name []
      = ([pystr "Exiting..." ++ [10]], Raise (SystemExit 0)))
  /\ exit_status (SystemExit 0) = 0
  /\ (forall name a argv,
        ExitCommand_execute name (a :: argv)
        = ([], Raise (ValueError (pystr "This command takes no arguments: "
                                  ++ CommandName_str name))))
  /\ (forall shell, Shell_init = Ok shell ->
        execute_command shell (pystr "exit")
        = ([pystr "Exiting..." ++ [10]], Raise (SystemExit 0))
        /\ (forall stdin,
              Forall (fun line => exit_line line = false) stdin ->
              snd (enter_command_to_execute shell stdin) = EOFError)
        /\ (forall before line after,
              Forall (fun l => exit_line l = false) before ->
              exit_line line = true ->
              snd (enter_command_to_execute shell (before ++ line :: after))
              = SystemExit 0
              /\ enter_command_to_execute shell (before ++ line :: after)
                 = enter_command_to_execute shell (before ++ [line]))
        /\ (forall stdin,
              snd (enter_command_to_execute shell stdin) = SystemExit 0
              /\ (exists line, In line stdin /\ exit_line line = true)
              \/ snd (enter_command_to_execute shell stdin) = EOFError
                 /\ Forall (fun line => exit_line line = false) stdin)
        /\ (forall stdin,
              snd (main stdin) = snd (enter_command_to_execute shell stdin))).
Proof.
  split; [exact Exit_no_argument|]. split; [reflexivity|].
  split; [exact Exit_arguments|].
  intros shell Hs. split; [|split; [|split; [|split]]].
  - injection Hs as <-. reflexivity.
  - intros stdin. now apply loop_without_exit.
  - intros before line after Hb Hl.
    destruct (loop_until_exit shell before line after Hs Hb Hl) as (H1 & H2 & _).
    now split.
  - intros stdin.
    destruct (first_exit_line stdin) as [H|(before & line & after & -> & Hb & Hl)].
    + right. split; [now apply loop_without_exit | exact H].
    + left. destruct (loop_until_exit shell before line after Hs Hb Hl) as (H1 & _).
      split; [exact H1|]. exists line. split; [|exact Hl].
      apply in_or_app. right. now left.
  - intros stdin. unfold main. rewrite Hs.
    now destruct (enter_command_to_execute shell stdin).
Qed.

(** The token [ help], with a space in front: [str_to_command_name] raises,
    where a lookup of the trimmed token would find [HELP]. *)
Lemma untrimmed_token :
  str_to_command_name (pystr " help")
  = Raise (CommandNameConversionError (pystr "Invalid command name:  help"))
  /\ trimmed_lookup (pystr " help") = Ok HELP.
Proof. split; reflexivity. Qed.

(** [encode hello] with the algorithm [ base64], a space in front: its
    upper-case form is no key of the table, and the command encodes. *)
Lemma untrimmed_algorithm :
  contains (keys EncodeCommand_ALGORITHMS) (upper (pystr " base64")) = false
  /\ EncodeCommand_execute ENCODE [pystr "hello"; pystr " base64"]
     = ([pystr "b'aGVsbG8='" ++ [10]], Ok tt).
Proof. split; reflexivity. Qed.

End Claims.

(** ** The claims at concrete inputs *)

Lemma C1_round_trip_witness :
  In (pystr "BASE64") (keys EncodeCommand_ALGORITHMS)
  /\ utf8.encode (pystr "hello") = Ok (pystr "hello")
  /\ exists enc dec decoded,
       getitem EncodeCommand_ALGORITHMS (pystr "BASE64") = Ok enc
       /\ getitem DecodeCommand_ALGORITHMS (pystr "BASE64") = Ok dec
       /\ dec (Bytes (enc (pystr "hello"))) = Ok decoded
       /\ dec (Str (enc (pystr "hello"))) = Ok decoded
       /\ utf8.decode decoded = Ok (pystr "hello")
       /\ forall name,
            @DecodeCommand_execute ascii_interpreter name
              [enc (pystr "hello"); pystr "BASE64"]
            = ([pystr "hello" ++ [10]], Ok tt).
Proof.
  assert (H1 : In (pystr "BASE64") (keys EncodeCommand_ALGORITHMS))
    by (cbn; tauto).
  assert (H2 : utf8.encode (pystr "hello") = Ok (pystr "hello")) by reflexivity.
  split; [exact H1|]. split; [exact H2|].
  exact (proj2 (proj2 (@C1_decode_encode_round_trip ascii_interpreter
                         (pystr "BASE64") (pystr "hello") (pystr "hello") H1 H2))).
Defined.

Lemma C10_md5_witness :
  blank (pystr " ") /\ pystr " " ++ pystr " " <> []
  /\ In (@upper ascii_interpreter (pystr "md5")) (keys HashCommand_ALGORITHMS)
  /\ @HashCommand_execute ascii_interpreter HASH [pystr "hello"; pystr " md5 "]
     = ([], Raise (ValueError
                     (pystr "Invalid algorithm name:  md5 ; Available algorithms: dict_keys(['BLAKE2B', 'BLAKE2S', 'MD5', 'SHA1', 'SHA224', 'SHA256', 'SHA384', 'SHA3_224', 'SHA3_256', 'SHA3_384', 'SHA3_512', 'SHA512'])"))).
Proof.
  assert (Hb : blank (pystr " ")) by (repeat constructor).
  assert (Hne : pystr " " ++ pystr " " <> []) by discriminate.
  assert (Hk : In (@upper ascii_interpreter (pystr "md5")) (keys HashCommand_ALGORITHMS))
    by (cbn; tauto).
  split; [exact Hb|]. split; [exact Hne|]. split; [exact Hk|].
  exact (proj1 (@C10_hash_validation_does_not_strip ascii_interpreter HASH
                  (pystr "hello") (pystr " ") (pystr "md5") (pystr " ")
                  Hb Hb Hne) Hk).
Defined.

(** The digest the specification gives for [hash hello MD5] has thirty-one
    digits; the command prints the thirty-two of the MD5 digest. *)
Lemma C2_counterexample :
  ~ (forall (python : Interpreter) (shell : Shell),
        Shell_init = Ok shell ->
        execute_command shell (pystr "hash hello MD5")
        = ([pystr "5d41402abc4b2a76b9719d911017c59" ++ [10]], Ok tt)).
Proof.
  intros H. specialize (H ascii_interpreter _ eq_refl).
  rewrite (@hash_hello_MD5 ascii_interpreter _ eq_refl) in H. discriminate H.
Qed.

(** [str_to_command_name] does not trim: on [ help] it raises. *)
Lemma C3_counterexample :
  ~ (forall (python : Interpreter) (token : str),
        str_to_command_name token = trimmed_lookup token).
Proof.
  intros H. specialize (H ascii_interpreter (pystr " help")).
  destruct (@untrimmed_token ascii_interpreter) as [H1 H2].
  rewrite H1, H2 in H. discriminate H.
Qed.

(** The upper-case form of [ base64] is no key, and the encode command
    accepts it all the same, since its validation strips the argument. *)
Lemma C5_counterexample :
  ~ (forall (python : Interpreter) (name : CommandName) (text alg : str),
        contains (keys EncodeCommand_ALGORITHMS) (upper alg) = false ->
        exists msg,
          EncodeCommand_execute name [text; alg] = ([], Raise (ValueError msg))).
Proof.
  intros H.
  destruct (@untrimmed_algorithm ascii_interpreter) as [H1 H2].
  destruct (H ascii_interpreter ENCODE (pystr "hello") (pystr " base64") H1)
    as [msg Hmsg].
  rewrite H2 in Hmsg. discriminate Hmsg.
Qed.


(** * Further properties of the shell *)

(** ** The elements of a line *)

Module line_facts.
Import Unicode.

Lemma split_length sep s :
  List.length (split sep s) = S (count_occ Z.eq_dec s sep).
Proof.
  induction s as [|c r IH]; [reflexivity|].
  cbn [split count_occ]. destruct (Z.eqb_spec c sep) as [E|E].
  - destruct (Z.eq_dec c sep); [|contradiction]. cbn [List.length]. now rewrite IH.
  - destruct (Z.eq_dec c sep); [contradiction|].
    destruct (split sep r) as [|h t]; [discriminate IH | exact IH].
Qed.

Lemma split_no_sep sep s : Forall (fun e => ~ In sep e) (split sep s).
Proof.
  induction s as [|c r IH]; cbn [split].
  - constructor; [intros [] | constructor].
  - destruct (Z.eqb_spec c sep) as [E|E].
    + constructor; [intros [] | exact IH].
    + destruct (split sep r) as [|h t].
      * constructor; [|constructor]. intros [H|[]]. now apply E.
      * inversion IH as [|? ? Hh Ht]; subst. constructor; [|exact Ht].
        intros [H|H]; [now apply E | now apply Hh].
Qed.

(** An element without the separator in front of a line joins the first
    element of the line. *)
Lemma split_app_left sep l s :
  ~ In sep l ->
  split sep (l ++ s) = (l ++ hd [] (split sep s)) :: tl (split sep s).
Proof.
  induction l as [|c l IH]; intros H; cbn [app].
  - pose proof (split_nonempty sep s). now destruct (split sep s).
  - cbn [split]. destruct (Z.eqb_spec c sep) as [E|E].
    + exfalso. apply H. now left.
    + rewrite IH by (intros Hin; apply H; now right). reflexivity.
Qed.

Lemma split_sep_cons sep s : split sep (sep :: s) = [] :: split sep s.
Proof. cbn [split]. now rewrite Z.eqb_refl. Qed.

Lemma split_spaceless sep l : ~ In sep l -> split sep l = [l].
Proof.
  intros H. rewrite <- (app_nil_r l) at 1. rewrite split_app_left by exact H.
  cbn. now rewrite app_nil_r.
Qed.

(** [sep.join(parts).split(sep)] gives the parts back. *)
Lemma split_join sep p parts :
  Forall (fun e => ~ In sep e) (p :: parts) ->
  split sep (join [sep] (p :: parts)) = p :: parts.
Proof.
  revert p. induction parts as [|q parts IH]; intros p H.
  - cbn [join]. apply split_spaceless. now inversion H.
  - inversion H as [|? ? Hp Hr]; subst.
    change (join [sep] (p :: q :: parts)) with (p ++ sep :: join [sep] (q :: parts)).
    rewrite split_app_left by exact Hp.
    rewrite split_sep_cons, IH by exact Hr. cbn [hd tl]. now rewrite app_nil_r.
Qed.

(** An element without the separator behind a line joins its last element. *)
Lemma split_app_right sep s r :
  ~ In sep r ->
  split sep (s ++ r)
  = removelast (split sep s) ++ [last (split sep s) [] ++ r].
Proof.
  intros H. induction s as [|c s IH]; cbn [app].
  - cbn [split removelast last app]. now apply split_spaceless.
  - cbn [split]. destruct (c =? sep).
    + rewrite IH. pose proof (split_nonempty sep s).
      destruct (split sep s) as [|h t]; [contradiction | reflexivity].
    + rewrite IH. pose proof (split_nonempty sep s) as Hne.
      destruct (split sep s) as [|h [|h' t]]; [contradiction | reflexivity |].
      reflexivity.
Qed.

Lemma lstrip_In x s : In x (lstrip s) -> In x s.
Proof.
  induction s as [|c r IH]; cbn [lstrip]; [easy|].
  destruct (isspace c); [|easy]. intros H. right. now apply IH.
Qed.

Lemma strip_In x s : In x (strip s) -> In x s.
Proof.
  unfold strip, rstrip. intros H.
  apply in_rev, lstrip_In, in_rev in H. now apply lstrip_In.
Qed.

(** What [lstrip] returns does not start with white space. *)
Lemma lstrip_head s :
  match lstrip s with
  | [] => True
  | c :: _ => isspace c = false
  end.
Proof.
  induction s as [|c r IH]; cbn [lstrip]; [exact I|].
  destruct (isspace c) eqn:E; [exact IH | exact E].
Qed.

Lemma lstrip_fixed s :
  match s with [] => True | c :: _ => isspace c = false end -> lstrip s = s.
Proof. destruct s as [|c r]; [reflexivity|]. cbn [lstrip]. now intros ->. Qed.

Lemma lstrip_lstrip s : lstrip (lstrip s) = lstrip s.
Proof. apply lstrip_fixed, lstrip_head. Qed.

Lemma rstrip_rstrip s : rstrip (rstrip s) = rstrip s.
Proof. unfold rstrip. now rewrite rev_involutive, lstrip_lstrip. Qed.

(** [rstrip] keeps a first character that is no white space. *)
Lemma rstrip_head s :
  match s with [] => True | c :: _ => isspace c = false end ->
  match rstrip s with [] => True | c :: _ => isspace c = false end.
Proof.
  destruct s as [|c r]; [intros _; exact I|]. intros Hc.
  unfold rstrip. cbn [rev]. rewrite lstrip_app.
  destruct (lstrip (rev r)) as [|d k] eqn:E.
  - cbn [lstrip]. rewrite Hc. exact Hc.
  - rewrite rev_app_distr. exact Hc.
Qed.

(** [strip] is idempotent: what it returns has no white space at its ends. *)
Lemma strip_strip s : strip (strip s) = strip s.
Proof.
  unfold strip at 1.
  rewrite (lstrip_fixed (strip s)) by (apply rstrip_head, lstrip_head).
  unfold strip. apply rstrip_rstrip.
Qed.

Lemma strip_fixed s :
  Forall (fun c => isspace c = false) s -> strip s = s.
Proof.
  intros H. unfold strip. rewrite lstrip_fixed by (destruct H; auto).
  unfold rstrip. rewrite lstrip_fixed, rev_involutive; [reflexivity|].
  apply Forall_rev in H. destruct H; auto.
Qed.

Lemma strip_blank ws : blank ws -> strip ws = [].
Proof.
  intros H. unfold strip. now rewrite lstrip_all_blank.
Qed.

End line_facts.

(** ** The characters the encoders write *)

Module alphabet_facts.
Import binascii base64.

Section Class.
Variable P : Z -> bool.

Lemma made_of_literal s : forallb P s = true -> made_of P s.
Proof. unfold made_of. now rewrite Forall_forall, forallb_forall. Qed.

Lemma made_of_app a b : made_of P a -> made_of P b -> made_of P (a ++ b).
Proof. intros. apply Forall_app. now split. Qed.

Lemma made_of_firstn n s : made_of P s -> made_of P (firstn n s).
Proof. apply b32_facts.Forall_firstn_of. Qed.

Lemma item_class table i :
  forallb P table = true -> 0 <= i < Z.of_nat (List.length table) ->
  P (item table i) = true.
Proof.
  intros H Hi. unfold item. rewrite forallb_forall in H. apply H, nth_In. lia.
Qed.

Lemma hexlify_class s :
  forallb P hexdigits = true -> octets s -> made_of P (hexlify s).
Proof.
  intros H. induction 1 as [|c r Hc _ IH]; cbn [hexlify]; [constructor|].
  unfold octet in Hc.
  repeat constructor; [apply item_class | apply item_class | exact IH];
    try exact H; change (Z.of_nat (List.length hexdigits)) with 16; zdiv.
Qed.

Lemma b64encode_class s :
  forallb P table_b2a_base64 = true -> P BASE64_PAD = true ->
  octets s -> made_of P (b64encode s).
Proof.
  intros H Hp. unfold b64encode.
  induction s as [|a|a b|a b c r IH] using list_ind3; intros Hs; cbn [b2a_base64].
  - constructor.
  - apply octets_cons in Hs as [Ha _]. unfold octet in Ha.
    repeat constructor; try exact Hp; apply item_class; try exact H;
      change (Z.of_nat (List.length table_b2a_base64)) with 64; zdiv.
  - apply octets_cons in Hs as [Ha Hs]. apply octets_cons in Hs as [Hb _].
    unfold octet in Ha, Hb.
    repeat constructor; try exact Hp; apply item_class; try exact H;
      change (Z.of_nat (List.length table_b2a_base64)) with 64; zdiv.
  - apply octets_cons in Hs as [Ha Hs]. apply octets_cons in Hs as [Hb Hs].
    apply octets_cons in Hs as [Hc Hs]. unfold octet in Ha, Hb, Hc.
    repeat constructor; try (now apply IH); apply item_class; try exact H;
      change (Z.of_nat (List.length table_b2a_base64)) with 64; zdiv.
Qed.

Lemma b32_quantum_class alphabet n :
  forallb P alphabet = true -> List.length alphabet = 32%nat ->
  made_of P (b32_quantum alphabet n).
Proof.
  intros H Hl. unfold b32_quantum. apply Forall_map, Forall_forall.
  intros k _. apply item_class; [exact H|]. rewrite Hl.
  apply Z.mod_pos_bound. lia.
Qed.

Lemma b32encode_class alphabet s :
  forallb P alphabet = true -> List.length alphabet = 32%nat ->
  P 61 = true -> made_of P (_b32encode alphabet s).
Proof.
  intros H Hl Hp.
  induction s as [|a|a b|a b c|a b c d|a b c d e r IH] using list_ind5;
    cbn [_b32encode]; [constructor|..];
    apply made_of_app;
    try (apply made_of_firstn); try (now apply b32_quantum_class);
    try (match goal with
         | |- made_of P (pystr ?s) =>
             let v := eval vm_compute in (pystr s) in change (pystr s) with v
         end; repeat constructor; exact Hp);
    try exact IH.
Qed.

Section Base85.
Variable chars : Z -> Z.
Variable foldnuls : bool.
Hypothesis chars_class : forall d, 0 <= d < 85 -> P (chars d) = true.
Hypothesis z_class : P 122 = true.

Lemma word85_class w : 0 <= w < 4294967296 -> made_of P (word85 chars w).
Proof.
  intros Hw. destruct (b85_facts.digits85 w Hw) as (H0 & H1 & H2 & H3 & H4).
  unfold word85. cbv zeta. repeat constructor; now apply chars_class.
Qed.

Lemma chunk85_class w :
  0 <= w < 4294967296 -> made_of P (chunk85 chars foldnuls w).
Proof.
  intros Hw. unfold chunk85.
  destruct (foldnuls && (w =? 0)); [now repeat constructor | now apply word85_class].
Qed.

Lemma last85_class p w :
  0 <= w < 4294967296 -> made_of P (last85 chars foldnuls p w).
Proof.
  intros Hw. unfold last85, drop_last. apply made_of_firstn.
  destruct (str_eqb _ _); [|now apply chunk85_class].
  repeat constructor; apply chars_class; lia.
Qed.

Lemma encode85_class s : octets s -> made_of P (_85encode chars foldnuls s).
Proof.
  induction s as [|a|a b|a b c|a b c d r IH] using list_ind4; intros Hs;
    cbn [_85encode].
  - constructor.
  - apply octets_cons in Hs as [Ha _].
    apply last85_class.
    apply text_facts.from_bytes4_range; auto using text_facts.octet_0.
  - apply octets_cons in Hs as [Ha Hs]. apply octets_cons in Hs as [Hb _].
    apply last85_class.
    apply text_facts.from_bytes4_range; auto using text_facts.octet_0.
  - apply octets_cons in Hs as [Ha Hs]. apply octets_cons in Hs as [Hb Hs].
    apply octets_cons in Hs as [Hc' _].
    apply last85_class.
    apply text_facts.from_bytes4_range; auto using text_facts.octet_0.
  - apply octets_cons in Hs as [Ha Hs]. apply octets_cons in Hs as [Hb Hs].
    apply octets_cons in Hs as [Hc' Hs]. apply octets_cons in Hs as [Hd Hs].
    apply made_of_app; [|now apply IH].
    apply chunk85_class. now apply text_facts.from_bytes4_range.
Qed.

End Base85.
End Class.

Lemma made_of_impl (P Q : Z -> bool) s :
  (forall c, P c = true -> Q c = true) -> made_of P s -> made_of Q s.
Proof. intros H. apply Forall_impl. exact H. Qed.

Lemma b16encode_class P s :
  forallb P (bytes_upper hexdigits) = true -> octets s -> made_of P (b16encode s).
Proof.
  intros H Hs. unfold b16encode, bytes_upper. apply Forall_map.
  apply (hexlify_class
           (fun c => P (if (97 <=? c) && (c <=? 122) then c - 32 else c)));
    [|exact Hs].
  exact H.
Qed.

Lemma a85encode_graphic s : octets s -> made_of graphic (a85encode s).
Proof.
  apply encode85_class; [|reflexivity]. intros d Hd. unfold graphic.
  apply andb_true_iff. rewrite !Z.leb_le. lia.
Qed.

Lemma b85encode_plain s : octets s -> made_of plain (b85encode s).
Proof.
  apply encode85_class; [|reflexivity]. intros d Hd.
  apply item_class; [reflexivity|]. exact Hd.
Qed.

Lemma plain_graphic c : plain c = true -> graphic c = true.
Proof.
  unfold plain. intros H. apply andb_prop in H as [H _].
  now apply andb_prop in H as [H _].
Qed.

Lemma graphic_no_space s : made_of graphic s -> spaceless s.
Proof.
  intros H Hin. unfold made_of in H. rewrite Forall_forall in H.
  apply H in Hin. discriminate Hin.
Qed.

Lemma graphic_not_space c : graphic c = true -> Unicode.isspace c = false.
Proof.
  unfold graphic, Unicode.isspace. intros H.
  apply andb_prop in H as [H1 H2]. apply Z.leb_le in H1, H2.
  repeat match goal with
         | |- context [?a <=? ?b] => destruct (Z.leb_spec a b); try lia
         | |- context [?a =? ?b] => destruct (Z.eqb_spec a b); try lia
         end.
  all: try reflexivity.
Qed.

Lemma graphic_stripped s : made_of graphic s -> Unicode.strip s = s.
Proof.
  intros H. apply line_facts.strip_fixed. revert H. apply Forall_impl.
  exact graphic_not_space.
Qed.

Lemma graphic_ascii s : made_of graphic s -> ascii_text s.
Proof.
  apply Forall_impl. intros c H. unfold graphic in H. unfold is_ascii.
  apply andb_prop in H as [H1 H2]. apply Z.leb_le in H1, H2.
  apply andb_true_iff. rewrite Z.leb_le, Z.ltb_lt. lia.
Qed.

(** Every encoder of the table writes visible ASCII; all but [a85encode]
    write neither quote nor backslash. *)
Lemma encoders_plain alg enc raw :
  getitem EncodeCommand_ALGORITHMS alg = Ok enc -> octets raw ->
  made_of graphic (enc raw)
  /\ (alg <> pystr "A85" -> made_of plain (enc raw)).
Proof.
  intros H Hr.
  assert (Hp : alg = pystr "A85" /\ made_of graphic (enc raw)
               \/ made_of plain (enc raw)).
  { revert H. cbn [getitem EncodeCommand_ALGORITHMS].
    destruct (str_eqb _ alg) eqn:E.
    { intros [= <-]. left. apply str_eqb_eq in E. split; [now symmetry|].
      now apply a85encode_graphic. }
    clear E.
    repeat (destruct (str_eqb _ alg);
            [intros [= <-]; right;
             first [ now apply b16encode_class
                   | apply b32encode_class; reflexivity
                   | now apply b64encode_class
                   | now apply b85encode_plain
                   | now apply hexlify_class ] |]).
    discriminate. }
  destruct Hp as [[-> Hg]|Hp].
  - split; [exact Hg | congruence].
  - split; [|now intros _]. revert Hp. apply made_of_impl. exact plain_graphic.
Qed.

End alphabet_facts.

Section Extras.
Context {python : Interpreter}.
Import line_facts.

Lemma parse_argv_length line : List.length (parse_argv line) = spaces line.
Proof.
  unfold parse_argv, spaces. rewrite length_map.
  pose proof (split_length 32 line) as H.
  destruct (Unicode.split 32 line); cbn [List.length tl] in *; lia.
Qed.

Lemma parse_argv_elements line :
  Forall (fun a => spaceless a /\ Unicode.strip a = a) (parse_argv line).
Proof.
  unfold parse_argv. apply Forall_map.
  pose proof (split_no_sep 32 line) as H.
  assert (Ht : Forall (fun e => ~ In 32 e) (tl (Unicode.split 32 line)))
    by (destruct H; [constructor | assumption]).
  revert Ht. apply Forall_impl. intros a Ha. split.
  - intros Hin. apply Ha. now apply strip_In.
  - apply strip_strip.
Qed.

Lemma parse_cmd_Ok line name argv :
  _parse_cmd line = Ok (name, argv) ->
  str_to_command_name (binary line) = Ok name /\ argv = parse_argv line.
Proof.
  rewrite parse_cmd_argv. fold (binary line).
  destruct (str_to_command_name (binary line)) as [n|e]; cbn [rbind];
    [|discriminate].
  now intros [= <- <-].
Qed.

(** X1: the argument list [_parse_cmd] returns for a line has as many
    elements as the line has space characters: consecutive spaces are not
    collapsed, each one starts a new argument. No argument holds a space, and
    every argument is stripped of the white space at its ends. *)
Theorem X1_one_argument_for_each_space line name argv :
  _parse_cmd line = Ok (name, argv) ->
  List.length argv = spaces line
  /\ Forall (fun a => spaceless a /\ Unicode.strip a = a) argv.
Proof.
  intros H. apply parse_cmd_Ok in H as [_ ->]. split.
  - apply parse_argv_length.
  - apply parse_argv_elements.
Qed.

Lemma parse_cmd_join token args :
  spaceless token -> Forall spaceless args ->
  _parse_cmd (Unicode.join (pystr " ") (token :: args))
  = rbind (str_to_command_name (upper (Unicode.strip token)))
      (fun name => Ok (name, map Unicode.strip args)).
Proof.
  intros Ht Ha. rewrite parse_cmd_argv. unfold parse_argv.
  change (pystr " ") with [32].
  rewrite split_join by (constructor; assumption). reflexivity.
Qed.

(** X2: a line made of a command token and arguments with one space between
    them, none of which holds a space, is taken apart again by [_parse_cmd]:
    the command is resolved from the token, stripped and upper-cased, and
    the argument list is the list of the arguments, each of them stripped. *)
Theorem X2_line_of_tokens token args :
  spaceless token -> Forall spaceless args ->
  _parse_cmd (Unicode.join (pystr " ") (token :: args))
  = rbind (str_to_command_name (upper (Unicode.strip token)))
      (fun name => Ok (name, map Unicode.strip args)).
Proof. exact (parse_cmd_join token args). Qed.

Lemma parse_cmd_unknown line :
  contains (keys CommandName_members) (upper (binary line)) = false ->
  _parse_cmd line
  = Raise (CommandNameConversionError
             (pystr "Invalid command name: " ++ binary line)).
Proof.
  intros H. rewrite parse_cmd_argv. fold (binary line).
  unfold str_to_command_name. now rewrite H.
Qed.

Lemma unknown_line shell line rest :
  contains (keys CommandName_members) (upper (binary line)) = false ->
  execute_command shell line
  = ([], Raise (CommandNameConversionError
                  (pystr "Invalid command name: " ++ binary line)))
  /\ enter_command_to_execute shell (line :: rest)
     = (prompt :: ((pystr "Invalid command name: " ++ binary line) ++ [10])
          :: fst (enter_command_to_execute shell rest),
        snd (enter_command_to_execute shell rest)).
Proof.
  intros H.
  assert (E : execute_command shell line
              = ([], Raise (CommandNameConversionError
                              (pystr "Invalid command name: " ++ binary line)))).
  { unfold execute_command. now rewrite (parse_cmd_unknown line H). }
  split; [exact E|]. rewrite enter_unfold, E. reflexivity.
Qed.

(** X3: when the command token of a line, stripped and upper-cased, names no
    command, the line raises [CommandNameConversionError] before any argument
    is looked at; the loop prints [Invalid command name: ] followed by the
    token as it was normalised (stripped and upper-cased, not as typed) and
    reads the next line. *)
Theorem X3_unknown_command shell line rest :
  contains (keys CommandName_members) (upper (binary line)) = false ->
  execute_command shell line
  = ([], Raise (CommandNameConversionError
                  (pystr "Invalid command name: " ++ binary line)))
  /\ enter_command_to_execute shell (line :: rest)
     = (prompt :: ((pystr "Invalid command name: " ++ binary line) ++ [10])
          :: fst (enter_command_to_execute shell rest),
        snd (enter_command_to_execute shell rest)).
Proof. exact (unknown_line shell line rest). Qed.

Lemma split_blank s :
  blank s -> blank (hd [] (Unicode.split 32 s)).
Proof.
  induction 1 as [|c r Hc _ IH]; cbn [Unicode.split]; [constructor|].
  destruct (c =? 32); [constructor|].
  destruct (Unicode.split 32 r) as [|h t]; cbn [hd] in *.
  - now repeat constructor.
  - now constructor.
Qed.

Lemma binary_blank line :
  blank (hd [] (Unicode.split 32 line)) -> binary line = [].
Proof. intros H. unfold binary. now rewrite strip_blank. Qed.

Lemma blank_line shell line rest :
  blank (hd [] (Unicode.split 32 line)) ->
  execute_command shell line
  = ([], Raise (CommandNameConversionError (pystr "Invalid command name: ")))
  /\ enter_command_to_execute shell (line :: rest)
     = (prompt :: (pystr "Invalid command name: " ++ [10])
          :: fst (enter_command_to_execute shell rest),
        snd (enter_command_to_execute shell rest)).
Proof.
  intros H. pose proof (binary_blank line H) as Hb.
  destruct (unknown_line shell line rest) as [H1 H2].
  - now rewrite Hb.
  - rewrite Hb, app_nil_r in H1, H2. now split.
Qed.

(** X4: the empty line, a line of white space only and every line that
    starts with a space have an empty command token: whatever follows the
    space, and be it the name of a command, the line raises
    [CommandNameConversionError] with no name in the message, and the loop
    prints it and goes on. *)
Theorem X4_empty_command_token :
  (forall shell rest more,
      execute_command shell (pystr " " ++ rest)
      = ([], Raise (CommandNameConversionError (pystr "Invalid command name: ")))
      /\ enter_command_to_execute shell ((pystr " " ++ rest) :: more)
         = (prompt :: (pystr "Invalid command name: " ++ [10])
              :: fst (enter_command_to_execute shell more),
            snd (enter_command_to_execute shell more)))
  /\ (forall shell more,
        execute_command shell (pystr "")
        = ([], Raise (CommandNameConversionError (pystr "Invalid command name: ")))
        /\ enter_command_to_execute shell (pystr "" :: more)
           = (prompt :: (pystr "Invalid command name: " ++ [10])
                :: fst (enter_command_to_execute shell more),
              snd (enter_command_to_execute shell more)))
  /\ (forall shell line more,
        blank line ->
        execute_command shell line
        = ([], Raise (CommandNameConversionError (pystr "Invalid command name: ")))
        /\ enter_command_to_execute shell (line :: more)
           = (prompt :: (pystr "Invalid command name: " ++ [10])
                :: fst (enter_command_to_execute shell more),
              snd (enter_command_to_execute shell more))).
Proof.
  split; [|split].
  - intros shell rest more. apply blank_line.
    change (pystr " " ++ rest) with (32 :: rest).
    rewrite split_sep_cons. constructor.
  - intros shell more. apply blank_line. constructor.
  - intros shell line more H. now apply blank_line, split_blank.
Qed.

Lemma dispatch shell line name argv :
  Shell_init = Ok shell ->
  _parse_cmd line = Ok (name, argv) ->
  execute_command shell line
  = match name with
    | HELP => HelpCommand_execute HELP argv
    | EXIT => ExitCommand_execute EXIT argv
    | ENCODE => EncodeCommand_execute ENCODE argv
    | DECODE => DecodeCommand_execute DECODE argv
    | HASH => HashCommand_execute HASH argv
    end.
Proof.
  intros Hs H.
  destruct (execute_command_dispatch shell line name argv Hs H) as (c & Hc & _ & ->).
  destruct name; cbn in Hc; injection Hc as <-; reflexivity.
Qed.

Lemma argv_not_empty line : spaces line <> 0%nat -> parse_argv line <> [].
Proof.
  intros H E. apply H. rewrite <- parse_argv_length, E. reflexivity.
Qed.

Lemma argv_not_two line :
  spaces line <> 0%nat -> spaces line <> 2%nat ->
  (List.length (parse_argv line) =? 0)%nat = false
  /\ (List.length (parse_argv line) =? 2)%nat = false.
Proof.
  intros H0 H2. rewrite parse_argv_length. split; now apply Nat.eqb_neq.
Qed.

(** X5: the arguments are counted by the spaces of the line. A line for
    [help] or [exit] with a space anywhere in it raises the [ValueError] of a
    command that takes no arguments; a line for [encode], [decode] or [hash]
    with a number of spaces other than none and two raises the [ValueError]
    of a command that takes exactly two arguments, so a text with a space in
    it cannot be passed to these commands. Nothing is printed. *)
Theorem X5_argument_count_errors shell line name argv :
  Shell_init = Ok shell ->
  _parse_cmd line = Ok (name, argv) ->
  spaces line <> 0%nat ->
  (name = HELP \/ name = EXIT ->
   execute_command shell line
   = ([], Raise (ValueError (pystr "This command takes no arguments: "
                             ++ CommandName_str name))))
  /\ (name = ENCODE \/ name = DECODE \/ name = HASH ->
      spaces line <> 2%nat ->
      execute_command shell line
      = ([], Raise (ValueError (pystr "This command takes exactly 2 arguments: "
                                ++ CommandName_str name)))).
Proof.
  intros Hs H H0. rewrite (dispatch shell line name argv Hs H).
  apply parse_cmd_Ok in H as [_ ->]. split.
  - pose proof (argv_not_empty line H0) as Hne.
    destruct (parse_argv line) as [|a r]; [contradiction|].
    intros [->| ->]; reflexivity.
  - intros Hn H2. destruct (argv_not_two line H0 H2) as [E0 E2].
    destruct Hn as [->|[->| ->]].
    + unfold EncodeCommand_execute, EncodeCommand_validate_argv.
      now rewrite E0, E2.
    + unfold DecodeCommand_execute, DecodeCommand_validate_argv.
      now rewrite E0, E2.
    + unfold HashCommand_execute, HashCommand_validate_argv.
      now rewrite E0, E2.
Qed.

Lemma prints_once_lift {A} (r : result A) (f : A -> IO unit) :
  only_ValueError r -> (forall a, r = Ok a -> prints_once (f a)) ->
  prints_once (bind (lift r) f).
Proof.
  destruct r as [a|e]; intros H Hf.
  - rewrite bind_lift_Ok. now apply Hf.
  - rewrite bind_lift_Raise. now split.
Qed.

Lemma prints_once_print s : prints_once (print s).
Proof. now exists s. Qed.

Lemma Help_prints_once name argv : prints_once (HelpCommand_execute name argv).
Proof. destruct argv; [apply prints_once_print | now split]. Qed.

Lemma Decode_prints_once name argv : prints_once (DecodeCommand_execute name argv).
Proof.
  destruct argv as [|text [|alg [|x r]]];
    try apply prints_once_print; try (now split).
  destruct (contains (keys DecodeCommand_ALGORITHMS) (Unicode.strip (upper alg))) eqn:E.
  - rewrite Decode_valid by exact E.
    apply prints_once_lift; [now apply getitem_contains|]. intros func_ Hf.
    apply prints_once_lift; [now apply (decode_table_only _ _ _ Hf)|]. intros decoded _.
    apply prints_once_lift; [apply error_facts.only_utf8_decode|].
    intros; apply prints_once_print.
  - rewrite Decode_invalid by exact E. now split.
Qed.

Lemma Encode_prints_once name argv : prints_once (EncodeCommand_execute name argv).
Proof.
  destruct argv as [|text [|alg [|x r]]];
    try apply prints_once_print; try (now split).
  destruct (contains (keys EncodeCommand_ALGORITHMS) (Unicode.strip (upper alg))) eqn:E.
  - rewrite Encode_valid by exact E.
    apply prints_once_lift; [now apply getitem_contains|]. intros func_ _.
    apply prints_once_lift; [apply error_facts.only_utf8_encode|].
    intros; apply prints_once_print.
  - rewrite Encode_invalid by exact E. now split.
Qed.

Lemma Hash_prints_once name argv : prints_once (HashCommand_execute name argv).
Proof.
  destruct argv as [|text [|alg [|x r]]];
    try apply prints_once_print; try (now split).
  destruct (contains (keys HashCommand_ALGORITHMS) (upper alg)) eqn:E.
  - rewrite Hash_valid by exact E.
    apply prints_once_lift; [apply error_facts.only_utf8_encode|]. intros raw _.
    apply prints_once_lift; [|intros; apply prints_once_print].
    apply getitem_contains.
    pose proof E as E'. apply contains_In, hash_keys_stripped in E'.
    now rewrite E'.
  - rewrite Hash_invalid by exact E. now split.
Qed.

(** What the loop writes for one line that does not end the session. *)
Lemma line_answer shell line rest :
  Shell_init = Ok shell -> exit_line line = false ->
  exists answer,
    enter_command_to_execute shell (line :: rest)
    = (prompt :: (answer ++ [10]) :: fst (enter_command_to_execute shell rest),
       snd (enter_command_to_execute shell rest)).
Proof.
  intros Hs Hl. rewrite enter_unfold.
  assert (H : prints_once (execute_command shell line)
              \/ exists msg, execute_command shell line
                             = ([], Raise (CommandNameConversionError msg))).
  { unfold exit_line in Hl.
    destruct (_parse_cmd line) as [[name argv]|e] eqn:E.
    - left. rewrite (dispatch shell line name argv Hs E).
      destruct name;
        [apply Help_prints_once | | apply Encode_prints_once
         | apply Decode_prints_once | apply Hash_prints_once].
      destruct argv as [|a argv]; [discriminate|].
      rewrite Exit_arguments. now split.
    - right. pose proof (parse_cmd_raises line e E) as He.
      destruct e; try discriminate He. eexists.
      unfold execute_command. rewrite E. reflexivity. }
  destruct H as [H|[msg ->]].
  - unfold prints_once in H.
    destruct (execute_command shell line) as [out [u|e]].
    + destruct H as [s ->]. now exists s.
    + destruct H as [-> He]. exists (exception_str e).
      unfold loop_turn. rewrite He, orb_true_r. reflexivity.
  - now exists msg.
Qed.

Lemma session_length shell stdin :
  Shell_init = Ok shell ->
  Forall (fun line => exit_line line = false) stdin ->
  List.length (fst (enter_command_to_execute shell stdin))
  = (2 * List.length stdin + 1)%nat.
Proof.
  intros Hs. induction 1 as [|line rest Hl _ IH]; [reflexivity|].
  destruct (line_answer shell line rest Hs Hl) as [answer ->].
  cbn [fst List.length]. rewrite IH. lia.
Qed.

(** X6: the loop answers every line that is read with exactly one printed
    record after the prompt: the result of the command or the message of
    the error it raised. A command never prints and then fails, nor returns
    without printing. A line that runs [exit] with no argument is answered
    with [Exiting...] and ends the session. So a session of [n] lines without
    such a line writes [n] prompts with their answers and a last prompt. *)
Theorem X6_one_answer_for_each_line shell :
  Shell_init = Ok shell ->
  (forall line rest,
      exit_line line = false ->
      exists answer,
        enter_command_to_execute shell (line :: rest)
        = (prompt :: (answer ++ [10]) :: fst (enter_command_to_execute shell rest),
           snd (enter_command_to_execute shell rest)))
  /\ (forall line rest,
        exit_line line = true ->
        enter_command_to_execute shell (line :: rest)
        = ([prompt; pystr "Exiting..." ++ [10]], SystemExit 0))
  /\ (forall stdin,
        Forall (fun line => exit_line line = false) stdin ->
        List.length (fst (enter_command_to_execute shell stdin))
        = (2 * List.length stdin + 1)%nat).
Proof.
  intros Hs. split; [|split].
  - intros line rest. now apply line_answer.
  - intros line rest Hl.
    rewrite enter_unfold, (exit_line_runs shell line Hs Hl). reflexivity.
  - intros stdin. now apply session_length.
Qed.

Lemma exit_line_exists stdin :
  existsb exit_line stdin = false
  <-> Forall (fun line => exit_line line = false) stdin.
Proof.
  induction stdin as [|l r IH]; cbn [existsb].
  - split; [constructor | reflexivity].
  - rewrite orb_false_iff, IH. split.
    + intros [H1 H2]. now constructor.
    + intros H. inversion H. now split.
Qed.

Lemma main_ends shell stdin :
  Shell_init = Ok shell ->
  snd (enter_command_to_execute shell stdin)
  = if existsb exit_line stdin then SystemExit 0 else EOFError.
Proof.
  intros Hs. destruct (existsb exit_line stdin) eqn:E.
  - destruct (first_exit_line stdin) as [H|(before & line & after & -> & Hb & Hl)].
    + apply exit_line_exists in H. congruence.
    + now destruct (loop_until_exit shell before line after Hs Hb Hl) as (H1 & _).
  - apply loop_without_exit; [exact Hs|]. now apply exit_line_exists.
Qed.

Lemma reading_unfold shell line rest :
  enter_command_to_execute_reading shell (Ok line :: rest)
  = loop_turn (execute_command shell line)
      (enter_command_to_execute_reading shell rest).
Proof.
  cbn [enter_command_to_execute_reading]. unfold loop_turn.
  destruct (execute_command shell line) as [out [u|e]];
    destruct (enter_command_to_execute_reading shell rest) as [out' e'];
    try reflexivity.
Qed.

(** On lines that [input] returns, the loop is [enter_command_to_execute]. *)
Lemma reading_decoded shell stdin :
  enter_command_to_execute_reading shell (map Ok stdin)
  = enter_command_to_execute shell stdin.
Proof.
  induction stdin as [|line rest IH]; [reflexivity|].
  cbn [map]. now rewrite reading_unfold, enter_unfold, IH.
Qed.

(** What follows a line that runs [exit] is not read. *)
Lemma reading_after_exit shell before reads :
  Shell_init = Ok shell -> existsb exit_line before = true ->
  enter_command_to_execute_reading shell (map Ok before ++ reads)
  = enter_command_to_execute shell before.
Proof.
  intros Hs. induction before as [|line rest IH]; cbn [existsb]; [discriminate|].
  intros H. cbn [map app]. rewrite reading_unfold, enter_unfold.
  destruct (exit_line line) eqn:E.
  - now rewrite (exit_line_runs shell line Hs E).
  - cbn [orb] in H. now rewrite (IH H).
Qed.

(** A call of [input] that raises ends the loop with what it raises. *)
Lemma reading_failure shell before e reads :
  Shell_init = Ok shell -> existsb exit_line before = false ->
  enter_command_to_execute_reading shell (map Ok before ++ Raise e :: reads)
  = (fst (enter_command_to_execute shell before), e).
Proof.
  intros Hs. induction before as [|line rest IH]; cbn [existsb]; [reflexivity|].
  intros H. apply orb_false_iff in H as [E H].
  cbn [map app]. rewrite reading_unfold, enter_unfold, (IH H).
  pose proof (ordinary_line shell line Hs E) as Ho. unfold loop_turn.
  destruct (execute_command shell line) as [out [u|err]]; [reflexivity|].
  now rewrite Ho.
Qed.

Lemma main_reading_value reads :
  main_reading reads
  = ((DOC ++ [10]) :: fst (enter_command_to_execute_reading session_shell reads),
     snd (enter_command_to_execute_reading session_shell reads)).
Proof.
  unfold main_reading. rewrite Shell_init_value. fold session_shell.
  now destruct (enter_command_to_execute_reading session_shell reads).
Qed.

Lemma main_value stdin :
  main stdin
  = ((DOC ++ [10]) :: fst (enter_command_to_execute session_shell stdin),
     snd (enter_command_to_execute session_shell stdin)).
Proof.
  unfold main. rewrite Shell_init_value. fold session_shell.
  now destruct (enter_command_to_execute session_shell stdin).
Qed.

Lemma reading_first_prompt shell reads :
  exists out, fst (enter_command_to_execute_reading shell reads) = prompt :: out.
Proof.
  destruct reads as [|[line|e] rest]; [now exists [] | | now exists []].
  rewrite reading_unfold. unfold loop_turn.
  destruct (execute_command shell line) as [out [u|e]]; [eexists; reflexivity|].
  destruct (_ || _); eexists; reflexivity.
Qed.

(** X7: [main] prints the banner [DOC] first and then the first prompt,
    whatever standard input holds. On lines that [input] returns, the
    process ends with [SystemExit(0)], status 0, when some line runs [exit]
    with no argument; otherwise it reads until the input ends and [input]
    raises [EOFError], which nothing catches: the status is 1, and with no
    input at all only the banner and one prompt are written. When a call of
    [input] itself raises, as it does with [UnicodeDecodeError] on a line
    that cannot be decoded, the exception is not caught, although a
    [UnicodeDecodeError] is a [ValueError]: [input] is called before the
    [try]. Unless an earlier line ran [exit], the process writes what the
    earlier lines give and the prompt, and ends with that exception. *)
Theorem X7_main_banner_and_exit_status :
  (forall reads,
      exists out, fst (main_reading reads) = (DOC ++ [10]) :: prompt :: out)
  /\ (forall stdin,
        main_reading (map Ok stdin) = main stdin
        /\ snd (main stdin)
           = (if existsb exit_line stdin then SystemExit 0 else EOFError)
        /\ exit_status (snd (main stdin))
           = (if existsb exit_line stdin then 0 else 1))
  /\ main [] = ([DOC ++ [10]; prompt], EOFError)
  /\ (forall before e after,
        main_reading (map Ok before ++ Raise e :: after)
        = if existsb exit_line before then main before
          else (fst (main before), e))
  /\ (forall before object start stop reason after,
        existsb exit_line before = false ->
        is_ValueError (UnicodeDecodeError utf8.codec_name object start stop reason)
        = true
        /\ snd (main_reading
                  (map Ok before
                   ++ Raise (UnicodeDecodeError utf8.codec_name object start stop
                               reason) :: after))
           = UnicodeDecodeError utf8.codec_name object start stop reason
        /\ exit_status
             (snd (main_reading
                     (map Ok before
                      ++ Raise (UnicodeDecodeError utf8.codec_name object start stop
                                  reason) :: after)))
           = 1).
Proof.
  assert (Hs : Shell_init = Ok session_shell) by exact Shell_init_value.
  assert (Hf : forall before e after,
             main_reading (map Ok before ++ Raise e :: after)
             = if existsb exit_line before then main before
               else (fst (main before), e)).
  { intros before e after. rewrite main_reading_value, main_value.
    destruct (existsb exit_line before) eqn:E.
    - now rewrite (reading_after_exit _ before _ Hs E).
    - now rewrite (reading_failure _ before e after Hs E). }
  split; [|split; [|split; [|split]]].
  - intros reads. rewrite main_reading_value. cbn [fst].
    destruct (reading_first_prompt session_shell reads) as [out ->].
    now exists out.
  - intros stdin. rewrite main_reading_value, main_value, reading_decoded.
    split; [reflexivity|]. cbn [snd].
    rewrite (main_ends _ stdin Hs).
    split; [reflexivity | now destruct (existsb exit_line stdin)].
  - reflexivity.
  - exact Hf.
  - intros before object start stop reason after E.
    rewrite Hf, E. cbn [snd]. repeat split.
Qed.

Lemma split_ends left line right :
  spaceless left -> spaceless right ->
  exists h t,
    Unicode.split 32 line = h :: t
    /\ (t = [] /\ Unicode.split 32 (left ++ line ++ right) = [left ++ h ++ right]
        \/ exists t' l,
             t = t' ++ [l]
             /\ Unicode.split 32 (left ++ line ++ right)
                = (left ++ h) :: t' ++ [l ++ right]).
Proof.
  intros Hl Hr. rewrite split_app_left by exact Hl.
  rewrite split_app_right by exact Hr.
  pose proof (split_nonempty 32 line) as Hne.
  destruct (Unicode.split 32 line) as [|h t]; [contradiction|].
  exists h, t. split; [reflexivity|].
  destruct t as [|x t].
  - left. split; reflexivity.
  - right. exists (removelast (x :: t)), (last (x :: t) []). split.
    + apply app_removelast_last. discriminate.
    + reflexivity.
Qed.

(** X8: white space other than the space character at the two ends of a
    line (a tab, a line feed and the like) changes nothing: it is stripped
    from the first and from the last element of the line, so [_parse_cmd]
    returns the same command and the same arguments, and the line runs as the
    line without it. This is unlike a space, which at either end makes an
    element of its own. *)
Theorem X8_white_space_at_the_ends left line right :
  blank left -> spaceless left -> blank right -> spaceless right ->
  _parse_cmd (left ++ line ++ right) = _parse_cmd line
  /\ forall shell,
       execute_command shell (left ++ line ++ right) = execute_command shell line.
Proof.
  intros Bl Sl Br Sr.
  assert (E : _parse_cmd (left ++ line ++ right) = _parse_cmd line).
  { rewrite !parse_cmd_argv. unfold parse_argv.
    destruct (split_ends left line right Sl Sr) as (h & t & -> & [[-> ->]|(t' & l & -> & ->)]);
      cbn [hd tl].
    - now rewrite strip_padded.
    - rewrite <- (app_nil_r h) at 1. rewrite strip_padded by (assumption || constructor).
      rewrite !map_app. cbn [map].
      rewrite <- (strip_padded [] l right) by (assumption || constructor).
      reflexivity. }
  split; [exact E|]. intros shell. unfold execute_command. now rewrite E.
Qed.

(** ** The commands and the codecs *)

Lemma no_quote b : made_of plain b -> existsb (Z.eqb 39) b = false.
Proof.
  induction 1 as [|c r Hc _ IH]; [reflexivity|]. cbn [existsb]. rewrite IH.
  unfold plain in Hc. apply andb_prop in Hc as [Hc _].
  apply andb_prop in Hc as [_ Hc]. apply negb_true_iff in Hc.
  rewrite Z.eqb_sym, Hc. reflexivity.
Qed.

Lemma bytes_repr_plain b :
  made_of plain b -> bytes_repr b = pystr "b'" ++ b ++ pystr "'".
Proof.
  intros H. unfold bytes_repr. rewrite (no_quote b H). cbn [andb].
  change (pystr "b'") with [98; 39]. change (pystr "'") with [39].
  do 2 f_equal.
  induction H as [|c r Hc _ IH]; [reflexivity|]. cbn [flat_map]. rewrite IH.
  unfold plain, graphic in Hc.
  rewrite !andb_true_iff, !negb_true_iff, !Z.leb_le in Hc.
  destruct Hc as [[[H1 H2] H3] H4]. rewrite H3, H4. cbn [orb].
  apply Z.eqb_neq in H3, H4.
  repeat match goal with
         | |- context [?a =? ?b] => destruct (Z.eqb_spec a b); try lia
         | |- context [?a <? ?b] => destruct (Z.ltb_spec a b); try lia
         | |- context [?a <=? ?b] => destruct (Z.leb_spec a b); try lia
         end.
  all: try reflexivity.
Qed.

Lemma bytes_repr_graphic b : made_of graphic b -> made_of graphic (bytes_repr b).
Proof.
  intros H. unfold bytes_repr.
  set (quote := if _ && _ then 34 else 39).
  assert (Hq : graphic quote = true) by (subst quote; now destruct (_ && _)).
  clearbody quote.
  constructor; [reflexivity|]. constructor; [exact Hq|].
  apply Forall_app. split; [|now constructor].
  induction H as [|c r Hc _ IH]; [constructor|]. cbn [flat_map].
  apply Forall_app. split; [|exact IH].
  destruct ((c =? quote) || (c =? 92)); [now repeat constructor|].
  destruct (c =? 9); [now repeat constructor|].
  destruct (c =? 10); [now repeat constructor|].
  destruct (c =? 13); [now repeat constructor|].
  destruct ((c <? 32) || (127 <=? c)) eqn:E; [|now repeat constructor].
  exfalso. unfold graphic in Hc. apply andb_prop in Hc as [H1 H2].
  apply Z.leb_le in H1, H2. apply orb_prop in E as [E|E].
  - apply Z.ltb_lt in E. lia.
  - apply Z.leb_le in E. lia.
Qed.

Lemma getitem_key {A} (table : list (str * A)) key v :
  getitem table key = Ok v -> contains (keys table) key = true.
Proof.
  intros H. apply contains_In. apply getitem_Ok_In in H.
  apply in_map_iff. now exists (key, v).
Qed.

Lemma encode_command_prints name text alg enc raw :
  getitem EncodeCommand_ALGORITHMS (Unicode.strip (upper alg)) = Ok enc ->
  utf8.encode text = Ok raw ->
  EncodeCommand_execute name [text; alg] = ([bytes_repr (enc raw) ++ [10]], Ok tt).
Proof.
  intros H Hr. rewrite Encode_valid by now apply (getitem_key _ _ enc).
  rewrite H, bind_lift_Ok, Hr, bind_lift_Ok. reflexivity.
Qed.

(** X9: [execute] of the encode command, given a text that [str.encode()]
    accepts and an algorithm of the table, prints one line: the [repr] of
    the [bytes] object the encoder returns, not the encoded text alone. The
    line is visible ASCII, and for every algorithm but [A85] (whose alphabet
    holds the quotes and the backslash) it is the encoded text between [b']
    and [']. *)
Theorem X9_encode_prints_a_bytes_literal name text alg enc raw :
  getitem EncodeCommand_ALGORITHMS (Unicode.strip (upper alg)) = Ok enc ->
  utf8.encode text = Ok raw ->
  EncodeCommand_execute name [text; alg] = ([bytes_repr (enc raw) ++ [10]], Ok tt)
  /\ made_of graphic (bytes_repr (enc raw))
  /\ (Unicode.strip (upper alg) <> pystr "A85" ->
      bytes_repr (enc raw) = pystr "b'" ++ enc raw ++ pystr "'").
Proof.
  intros H Hr. split; [now apply encode_command_prints|].
  pose proof (utf8_facts.encode_octets text raw Hr) as Ho.
  destruct (alphabet_facts.encoders_plain _ enc raw H Ho) as [Hg Hp].
  split; [now apply bytes_repr_graphic|].
  intros Hn. now apply bytes_repr_plain, Hp.
Qed.

(** The decoder under the name of an encoder undoes it, on [bytes] and on
    the [str] of the same characters. *)
Lemma table_round_trip alg enc raw :
  getitem EncodeCommand_ALGORITHMS alg = Ok enc -> octets raw ->
  Unicode.strip (upper alg) = alg
  /\ exists dec,
       getitem DecodeCommand_ALGORITHMS alg = Ok dec
       /\ dec (Bytes (enc raw)) = Ok raw
       /\ dec (Str (enc raw)) = Ok raw.
Proof.
  intros H Hr.
  assert (Hin : In alg (keys EncodeCommand_ALGORITHMS))
    by (apply contains_In; now apply (getitem_key _ _ enc)).
  destruct (alphabet_facts.encoders_plain alg enc raw H Hr) as [Hg _].
  apply alphabet_facts.graphic_ascii in Hg.
  cbn [keys EncodeCommand_ALGORITHMS map fst In] in Hin.
  destruct Hin as [<-|[<-|[<-|[<-|[<-|[<-|[<-|[]]]]]]]].
  - change (Ok base64.a85encode = Ok enc) in H. injection H as <-.
    split; [reflexivity|]. exists base64.a85decode. split; [reflexivity|].
    rewrite text_facts.a85decode_Str by exact Hg.
    split; now apply b85_facts.a85decode_a85encode.
  - change (Ok base64.b16encode = Ok enc) in H. injection H as <-.
    split; [reflexivity|]. exists base64.b16decode. split; [reflexivity|].
    rewrite text_facts.b16decode_Str by exact Hg.
    split; now apply hex_facts.b16decode_b16encode.
  - change (Ok base64.b32encode = Ok enc) in H. injection H as <-.
    split; [reflexivity|]. exists base64.b32decode. split; [reflexivity|].
    unfold base64.b32decode. rewrite text_facts.b32decode_Str by exact Hg.
    split; now apply b32_facts.b32decode_b32encode.
  - change (Ok base64.b32hexencode = Ok enc) in H. injection H as <-.
    split; [reflexivity|]. exists base64.b32hexdecode. split; [reflexivity|].
    unfold base64.b32hexdecode. rewrite text_facts.b32decode_Str by exact Hg.
    split; now apply b32_facts.b32hexdecode_b32hexencode.
  - change (Ok base64.b64encode = Ok enc) in H. injection H as <-.
    split; [reflexivity|]. exists base64.b64decode. split; [reflexivity|].
    rewrite text_facts.b64decode_Str by exact Hg.
    split; now apply b64_facts.b64decode_b64encode.
  - change (Ok base64.b85encode = Ok enc) in H. injection H as <-.
    split; [reflexivity|]. exists base64.b85decode. split; [reflexivity|].
    rewrite text_facts.b85decode_Str by exact Hg.
    split; now apply b85_facts.b85decode_b85encode.
  - change (Ok binascii.hexlify = Ok enc) in H. injection H as <-.
    split; [reflexivity|]. exists binascii.unhexlify. split; [reflexivity|].
    rewrite text_facts.unhexlify_Str by exact Hg.
    split; now apply hex_facts.unhexlify_hexlify.
Qed.

Lemma decode_encoded name alg enc raw :
  getitem EncodeCommand_ALGORITHMS alg = Ok enc -> octets raw ->
  DecodeCommand_execute name [enc raw; alg]
  = match utf8.decode raw with
    | Ok text => ([text ++ [10]], Ok tt)
    | Raise e => ([], Raise e)
    end.
Proof.
  intros H Hr.
  destruct (table_round_trip alg enc raw H Hr) as (Ha & dec & Hd & _ & Hs).
  rewrite Decode_valid by (rewrite Ha; now apply (getitem_key _ _ dec)).
  rewrite Ha, Hd, bind_lift_Ok, Hs, bind_lift_Ok.
  now destruct (utf8.decode raw).
Qed.

(** X10: the decode command undoes every encoder of the table on arbitrary
    octets, not only on those of an encoded text: given what the encoder
    under a name makes of the octets [raw], and the name, it prints the text
    that [raw] is the UTF-8 form of, and when [raw] is no UTF-8 it raises the
    [UnicodeDecodeError] of [bytes.decode()] and prints nothing. *)
Theorem X10_decode_of_encoded_octets name alg enc raw :
  getitem EncodeCommand_ALGORITHMS alg = Ok enc -> octets raw ->
  DecodeCommand_execute name [enc raw; alg]
  = match utf8.decode raw with
    | Ok text => ([text ++ [10]], Ok tt)
    | Raise e => ([], Raise e)
    end.
Proof. exact (decode_encoded name alg enc raw). Qed.

Lemma line3 a b c :
  a ++ pystr " " ++ b ++ pystr " " ++ c = Unicode.join (pystr " ") [a; b; c].
Proof. reflexivity. Qed.

Lemma key_spaceless alg enc :
  getitem EncodeCommand_ALGORITHMS alg = Ok enc ->
  spaceless alg /\ Unicode.strip alg = alg.
Proof.
  intros H.
  assert (Hin : In alg (keys EncodeCommand_ALGORITHMS))
    by (apply contains_In; now apply (getitem_key _ _ enc)).
  split; [|now apply encode_keys_stripped].
  cbn [keys EncodeCommand_ALGORITHMS map fst In] in Hin.
  destruct Hin as [<-|[<-|[<-|[<-|[<-|[<-|[<-|[]]]]]]]];
    intros Hin; cbn in Hin; repeat (destruct Hin as [Hin|Hin]; [discriminate Hin|]);
    exact Hin.
Qed.

(** X11: typed into the shell, the line [decode], the output of an encoder
    and its name prints the text that was encoded, for every text that can be
    encoded, a text with spaces too: no encoder writes a space or white space
    at the ends of its output, so the line has exactly two arguments and
    they arrive unchanged. The line [encode], a text and a name takes a text
    without a space only, and encodes the text stripped of the white space
    at its ends. *)
Theorem X11_decode_and_encode_lines shell alg enc text raw :
  Shell_init = Ok shell ->
  getitem EncodeCommand_ALGORITHMS alg = Ok enc ->
  utf8.encode text = Ok raw ->
  execute_command shell (pystr "decode" ++ pystr " " ++ enc raw ++ pystr " " ++ alg)
  = ([text ++ [10]], Ok tt)
  /\ (spaceless text ->
      execute_command shell (pystr "encode" ++ pystr " " ++ text ++ pystr " " ++ alg)
      = EncodeCommand_execute ENCODE [Unicode.strip text; alg]
      /\ (Unicode.strip text = text ->
          execute_command shell
            (pystr "encode" ++ pystr " " ++ text ++ pystr " " ++ alg)
          = ([bytes_repr (enc raw) ++ [10]], Ok tt))).
Proof.
  intros Hs H Hr.
  pose proof (utf8_facts.encode_octets text raw Hr) as Ho.
  destruct (alphabet_facts.encoders_plain alg enc raw H Ho) as [Hg _].
  destruct (key_spaceless alg enc H) as [Ka Kb].
  destruct (table_round_trip alg enc raw H Ho) as (Ha & _).
  split.
  - rewrite line3.
    assert (E : _parse_cmd (Unicode.join (pystr " ") [pystr "decode"; enc raw; alg])
                = Ok (DECODE, [enc raw; alg])).
    { rewrite parse_cmd_join.
      - cbn [map]. rewrite Kb, (alphabet_facts.graphic_stripped _ Hg). reflexivity.
      - intros Hin. cbn in Hin.
        repeat (destruct Hin as [Hin|Hin]; [discriminate Hin|]). exact Hin.
      - repeat constructor; [now apply alphabet_facts.graphic_no_space | exact Ka]. }
    etransitivity; [exact (dispatch shell _ DECODE _ Hs E)|].
    rewrite decode_encoded by assumption.
    now rewrite (utf8_facts.decode_encode text raw Hr).
  - intros Ht. rewrite line3.
    assert (E : _parse_cmd (Unicode.join (pystr " ") [pystr "encode"; text; alg])
                = Ok (ENCODE, [Unicode.strip text; alg])).
    { rewrite parse_cmd_join.
      - cbn [map]. rewrite Kb. reflexivity.
      - intros Hin. cbn in Hin.
        repeat (destruct Hin as [Hin|Hin]; [discriminate Hin|]). exact Hin.
      - repeat constructor; assumption. }
    pose proof (dispatch shell _ ENCODE _ Hs E) as D. split; [exact D|].
    intros Hst. etransitivity; [exact D|]. rewrite Hst.
    apply encode_command_prints; [|exact Hr]. now rewrite Ha.
Qed.

Lemma encode_from_scalar whole s :
  made_of scalar s -> forall pos, exists raw, utf8.encode_from whole pos s = Ok raw.
Proof.
  induction 1 as [|c r Hc _ IH]; intros pos; cbn [utf8.encode_from];
    [now exists []|].
  unfold scalar in Hc.
  rewrite !andb_true_iff, negb_true_iff, !Z.leb_le in Hc.
  destruct Hc as [[H1 H2] H3]. rewrite H3.
  destruct (Z.ltb_spec c 0); [lia|]. destruct (Z.ltb_spec 1114111 c); [lia|].
  cbn [orb]. destruct (IH (pos + 1)) as [raw ->]. cbn [rbind]. now eexists.
Qed.

Lemma encode_from_surrogate whole s :
  Exists (fun c => utf8.is_surrogate c = true) s ->
  forall pos, exists start stop reason,
    utf8.encode_from whole pos s
    = Raise (UnicodeEncodeError utf8.codec_name whole start stop reason).
Proof.
  induction 1 as [c r Hc|c r _ IH]; intros pos; cbn [utf8.encode_from].
  - rewrite Hc. now do 3 eexists.
  - destruct (utf8.is_surrogate c); [now do 3 eexists|].
    destruct ((c <? 0) || (1114111 <? c)); [now do 3 eexists|].
    destruct (IH (pos + 1)) as (a & b & reason & ->). cbn [rbind].
    now do 3 eexists.
Qed.

Lemma encode_command_raises name text alg e :
  contains (keys EncodeCommand_ALGORITHMS) (Unicode.strip (upper alg)) = true ->
  utf8.encode text = Raise e ->
  EncodeCommand_execute name [text; alg] = ([], Raise e).
Proof.
  intros Hk He. rewrite Encode_valid by exact Hk.
  apply contains_In, getitem_In in Hk as [enc ->].
  now rewrite bind_lift_Ok, He.
Qed.

Lemma hash_command_raises name text alg e :
  contains (keys HashCommand_ALGORITHMS) (upper alg) = true ->
  utf8.encode text = Raise e ->
  HashCommand_execute name [text; alg] = ([], Raise e).
Proof.
  intros Hk He. rewrite Hash_valid by exact Hk. now rewrite He.
Qed.

Lemma hash_command_prints name text alg raw :
  contains (keys HashCommand_ALGORITHMS) (upper alg) = true ->
  utf8.encode text = Ok raw ->
  exists line, HashCommand_execute name [text; alg] = ([line ++ [10]], Ok tt).
Proof.
  intros Hk Hr. rewrite Hash_valid by exact Hk. rewrite Hr, bind_lift_Ok.
  apply contains_In in Hk. rewrite (hash_keys_stripped _ Hk).
  apply getitem_In in Hk as [h ->]. rewrite bind_lift_Ok. now eexists.
Qed.

(** X12: the encode and the hash command turn the text into octets with
    [str.encode()]. For a text of Unicode scalar values and an algorithm of
    the table this never fails, and the command prints one line. A text that
    holds a surrogate code point is refused: both commands raise the
    [UnicodeEncodeError] of the codec, a [ValueError] that the loop catches,
    and print nothing. *)
Theorem X12_text_to_octets name text alg :
  (made_of scalar text ->
   (contains (keys EncodeCommand_ALGORITHMS) (Unicode.strip (upper alg)) = true ->
    exists line, EncodeCommand_execute name [text; alg] = ([line ++ [10]], Ok tt))
   /\ (contains (keys HashCommand_ALGORITHMS) (upper alg) = true ->
       exists line, HashCommand_execute name [text; alg] = ([line ++ [10]], Ok tt)))
  /\ (Exists (fun c => utf8.is_surrogate c = true) text ->
      exists start stop reason,
        is_ValueError (UnicodeEncodeError utf8.codec_name text start stop reason)
        = true
        /\ (contains (keys EncodeCommand_ALGORITHMS) (Unicode.strip (upper alg))
            = true ->
            EncodeCommand_execute name [text; alg]
            = ([], Raise (UnicodeEncodeError utf8.codec_name text start stop reason)))
        /\ (contains (keys HashCommand_ALGORITHMS) (upper alg) = true ->
            HashCommand_execute name [text; alg]
            = ([], Raise (UnicodeEncodeError utf8.codec_name text start stop reason)))).
Proof.
  split.
  - intros H. destruct (encode_from_scalar text text H 0) as [raw Hr].
    fold (utf8.encode text) in Hr. split.
    + intros Hk. pose proof Hk as Hg.
      apply contains_In, getitem_In in Hg as [enc Hg].
      exists (bytes_repr (enc raw)). now apply encode_command_prints.
    + intros Hk. now apply (hash_command_prints name text alg raw).
  - intros H. destruct (encode_from_surrogate text text H 0) as (a & b & reason & He).
    fold (utf8.encode text) in He. exists a, b, reason.
    split; [reflexivity|]. split; intros Hk.
    + now apply encode_command_raises.
    + now apply hash_command_raises.
Qed.

Lemma unhexlify_b16encode s :
  octets s -> binascii.unhexlify (Str (base64.b16encode s)) = Ok s.
Proof.
  intros H. rewrite text_facts.unhexlify_Str by apply text_facts.b16encode_ascii.
  unfold binascii.unhexlify. cbn [binascii.ascii_buffer rbind].
  rewrite hex_facts.b16encode_length.
  replace (Z.odd (Z.of_nat (2 * List.length s))) with false.
  - apply hex_facts.a2b_hex_pairs_b16, H.
  - symmetry. rewrite Nat2Z.inj_mul. apply Z.odd_even.
Qed.

Lemma lower_letter_no_base16 payload :
  Exists (fun c => is_lower_hex_letter c = true) payload ->
  forallb base64.is_base16_digit payload = false.
Proof.
  induction 1 as [c r Hc|c r _ IH]; cbn [forallb].
  - replace (base64.is_base16_digit c) with false; [reflexivity|].
    unfold is_lower_hex_letter in Hc. unfold base64.is_base16_digit.
    apply andb_prop in Hc as [H1 H2]. apply Z.leb_le in H1, H2.
    destruct (Z.leb_spec c 57); [lia|]. destruct (Z.leb_spec c 70); [lia|].
    now rewrite !andb_false_r.
  - rewrite IH. apply andb_false_r.
Qed.

Lemma b16decode_lower payload :
  ascii_text payload ->
  Exists (fun c => is_lower_hex_letter c = true) payload ->
  base64.b16decode (Str payload)
  = Raise (binascii_Error (pystr "Non-base16 digit found")).
Proof.
  intros Ha H. rewrite text_facts.b16decode_Str by exact Ha.
  unfold base64.b16decode. cbn [base64._bytes_from_decode_data rbind].
  now rewrite lower_letter_no_base16.
Qed.

Lemma decode_HEXLIFY name payload :
  DecodeCommand_execute name [payload; pystr "HEXLIFY"]
  = bind (lift (binascii.unhexlify (Str payload)))
      (fun decoded => bind (lift (utf8.decode decoded)) print).
Proof.
  rewrite Decode_valid by reflexivity.
  change (getitem DecodeCommand_ALGORITHMS (Unicode.strip (upper (pystr "HEXLIFY"))))
    with (Ok binascii.unhexlify).
  now rewrite bind_lift_Ok.
Qed.

Lemma decode_BASE16 name payload :
  DecodeCommand_execute name [payload; pystr "BASE16"]
  = bind (lift (base64.b16decode (Str payload)))
      (fun decoded => bind (lift (utf8.decode decoded)) print).
Proof.
  rewrite Decode_valid by reflexivity.
  change (getitem DecodeCommand_ALGORITHMS (Unicode.strip (upper (pystr "BASE16"))))
    with (Ok base64.b16decode).
  now rewrite bind_lift_Ok.
Qed.

(** X13: the two hexadecimal codecs of the decode table differ in the case
    they read. [HEXLIFY] ([unhexlify]) reads both cases, so it decodes what
    the [BASE16] encoder writes in upper case as well as its own lower-case
    output. [BASE16] ([b16decode], called without [casefold]) reads upper
    case only: an ASCII payload with a lower-case letter [a] to [f], such as
    an output of the [HEXLIFY] encoder that has one, raises [binascii.Error]
    with the message [Non-base16 digit found]. *)
Theorem X13_case_of_hexadecimal_digits name :
  (forall text raw,
      utf8.encode text = Ok raw ->
      DecodeCommand_execute name [base64.b16encode raw; pystr "HEXLIFY"]
      = ([text ++ [10]], Ok tt))
  /\ (forall payload,
        ascii_text payload ->
        Exists (fun c => is_lower_hex_letter c = true) payload ->
        DecodeCommand_execute name [payload; pystr "BASE16"]
        = ([], Raise (binascii_Error (pystr "Non-base16 digit found"))))
  /\ (forall raw,
        Exists (fun c => is_lower_hex_letter c = true) (binascii.hexlify raw) ->
        DecodeCommand_execute name [binascii.hexlify raw; pystr "BASE16"]
        = ([], Raise (binascii_Error (pystr "Non-base16 digit found")))).
Proof.
  split; [|split].
  - intros text raw Hr. rewrite decode_HEXLIFY.
    rewrite unhexlify_b16encode by now apply (utf8_facts.encode_octets text).
    rewrite bind_lift_Ok, (utf8_facts.decode_encode text raw Hr), bind_lift_Ok.
    reflexivity.
  - intros payload Ha H. rewrite decode_BASE16.
    now rewrite b16decode_lower.
  - intros raw H. rewrite decode_BASE16.
    rewrite b16decode_lower; [reflexivity | apply text_facts.hexlify_ascii | exact H].
Qed.

(** X14: the payload of the decode command reaches the decoder as a [str],
    and every decoder of the table takes a [str] of ASCII only: a payload
    with any other character raises [ValueError] with the message [string
    argument should contain only ASCII characters], whatever the algorithm,
    and nothing is printed. *)
Theorem X14_payload_of_ascii_only name payload alg :
  contains (keys DecodeCommand_ALGORITHMS) (Unicode.strip (upper alg)) = true ->
  forallb is_ascii payload = false ->
  DecodeCommand_execute name [payload; alg]
  = ([], Raise (ValueError
                  (pystr "string argument should contain only ASCII characters"))).
Proof.
  intros Hk Hp. rewrite Decode_valid by exact Hk.
  apply contains_In, getitem_In in Hk as [dec Hd].
  rewrite Hd, bind_lift_Ok. now rewrite (decoders_ascii_only _ dec payload Hd Hp).
Qed.

Lemma bytes_repr_quoted b :
  made_of graphic b ->
  bytes_repr b = [98; quote_of b] ++ flat_map (quoted (quote_of b)) b ++ [quote_of b].
Proof.
  intros H. unfold bytes_repr. fold (quote_of b). generalize (quote_of b) as q.
  intros q. apply (f_equal (fun x => [98; q] ++ x ++ [q])).
  induction H as [|c r Hc _ IH]; [reflexivity|]. cbn [flat_map]. rewrite IH.
  f_equal. unfold quoted. destruct ((c =? q) || (c =? 92)); [reflexivity|].
  unfold graphic in Hc. apply andb_prop in Hc as [H1 H2]. apply Z.leb_le in H1, H2.
  repeat match goal with
         | |- context [?a =? ?b] => destruct (Z.eqb_spec a b); try lia
         | |- context [?a <? ?b] => destruct (Z.ltb_spec a b); try lia
         | |- context [?a <=? ?b] => destruct (Z.leb_spec a b); try lia
         end.
  all: reflexivity.
Qed.

Lemma quoted_injective q :
  q <> 92 ->
  forall b1 b2,
    flat_map (quoted q) b1 ++ [q] = flat_map (quoted q) b2 ++ [q] -> b1 = b2.
Proof.
  intros Hq. induction b1 as [|c1 r1 IH]; intros [|c2 r2]; cbn [flat_map app];
    [reflexivity|..]; unfold quoted;
    repeat match goal with
           | |- context [?a =? ?b] => destruct (Z.eqb_spec a b)
           end;
    cbn [orb app]; intros H;
    first [ discriminate H
          | injection H; intros;
            first [ congruence | f_equal; [congruence | now apply IH] ] ].
Qed.

Lemma quote_of_not_backslash b : quote_of b <> 92.
Proof. unfold quote_of. destruct (_ && _); discriminate. Qed.

(** [repr] of [bytes] of visible characters can be read back. *)
Lemma bytes_repr_injective b1 b2 :
  made_of graphic b1 -> made_of graphic b2 ->
  bytes_repr b1 = bytes_repr b2 -> b1 = b2.
Proof.
  intros H1 H2. rewrite (bytes_repr_quoted b1 H1), (bytes_repr_quoted b2 H2).
  cbn [app]. intros [= Hq H]. rewrite <- Hq in H.
  exact (quoted_injective _ (quote_of_not_backslash b1) b1 b2 H).
Qed.

Lemma encoders_injective alg enc text1 text2 raw1 raw2 :
  getitem EncodeCommand_ALGORITHMS alg = Ok enc ->
  utf8.encode text1 = Ok raw1 -> utf8.encode text2 = Ok raw2 ->
  enc raw1 = enc raw2 -> text1 = text2.
Proof.
  intros H H1 H2 E.
  pose proof (utf8_facts.encode_octets _ _ H1) as O1.
  pose proof (utf8_facts.encode_octets _ _ H2) as O2.
  destruct (table_round_trip alg enc raw1 H O1) as (_ & dec & Hd & D1 & _).
  destruct (table_round_trip alg enc raw2 H O2) as (_ & dec' & Hd' & D2 & _).
  rewrite Hd in Hd'. injection Hd' as <-.
  rewrite E, D2 in D1. injection D1 as <-.
  apply utf8_facts.decode_encode in H1, H2. rewrite H1 in H2. now injection H2.
Qed.

(** X15: no encoder of the table maps two texts to the same output: when the
    encoder under a name gives the same characters for the octets of two
    texts, the texts are equal. The [repr] that is printed can be read back
    as well, so the encode command answers two texts with the same line,
    under the same algorithm, only when they are the same text. *)
Theorem X15_encoders_are_injective alg enc text1 text2 raw1 raw2 :
  getitem EncodeCommand_ALGORITHMS alg = Ok enc ->
  utf8.encode text1 = Ok raw1 -> utf8.encode text2 = Ok raw2 ->
  (enc raw1 = enc raw2 -> text1 = text2)
  /\ (forall name,
        EncodeCommand_execute name [text1; alg]
        = EncodeCommand_execute name [text2; alg] ->
        text1 = text2).
Proof.
  intros H H1 H2. split; [now apply (encoders_injective alg enc)|].
  intros name.
  pose proof (utf8_facts.encode_octets _ _ H1) as O1.
  pose proof (utf8_facts.encode_octets _ _ H2) as O2.
  destruct (table_round_trip alg enc raw1 H O1) as (Ha & _).
  rewrite (encode_command_prints name text1 alg enc raw1),
    (encode_command_prints name text2 alg enc raw2)
    by (assumption || now rewrite Ha).
  intros E. apply (f_equal fst) in E. cbn [fst] in E.
  apply (f_equal (hd [])) in E. cbn [hd] in E. apply app_inv_tail in E.
  apply (encoders_injective alg enc text1 text2 raw1 raw2 H H1 H2).
  apply bytes_repr_injective; [| |exact E];
    now apply (alphabet_facts.encoders_plain alg enc).
Qed.

Lemma upper_ascii s : ascii_text s -> upper s = ascii_upper s.
Proof.
  induction 1 as [|c r Hc _ IH]; [reflexivity|].
  unfold upper in *. cbn [Unicode.upper flat_map ascii_upper map].
  unfold Unicode.upper, ascii_upper in IH. rewrite IH. unfold Unicode.toupper.
  destruct ((97 <=? c) && (c <=? 122)); [reflexivity|].
  unfold is_ascii in Hc. apply andb_prop in Hc as [_ ->]. reflexivity.
Qed.

Lemma ascii_upper_ascii s : ascii_text s -> ascii_text (ascii_upper s).
Proof. apply text_facts.bytes_upper_ascii. Qed.

Lemma ascii_upper_twice s : ascii_upper (ascii_upper s) = ascii_upper s.
Proof.
  unfold ascii_upper. rewrite map_map. apply map_ext. intros c.
  destruct (Z.leb_spec 97 c); destruct (Z.leb_spec c 122); cbn [andb];
    try reflexivity;
    repeat match goal with
           | |- context [?a <=? ?b] => destruct (Z.leb_spec a b); try lia
           end;
    try reflexivity.
Qed.

Lemma upper_key alg :
  ascii_text alg ->
  upper alg = ascii_upper alg /\ upper (ascii_upper alg) = ascii_upper alg.
Proof.
  intros H. split; [now apply upper_ascii|].
  rewrite upper_ascii by now apply ascii_upper_ascii. apply ascii_upper_twice.
Qed.

(** X16: the names of the algorithms are matched without regard to the case
    of ASCII letters: an argument of ASCII characters whose upper-case form
    is a key of the table runs the encode, decode or hash command as that
    key does. *)
Theorem X16_algorithm_names_ignore_case name text alg :
  ascii_text alg ->
  (In (ascii_upper alg) (keys EncodeCommand_ALGORITHMS) ->
   EncodeCommand_execute name [text; alg]
   = EncodeCommand_execute name [text; ascii_upper alg]
   /\ DecodeCommand_execute name [text; alg]
      = DecodeCommand_execute name [text; ascii_upper alg])
  /\ (In (ascii_upper alg) (keys HashCommand_ALGORITHMS) ->
      HashCommand_execute name [text; alg]
      = HashCommand_execute name [text; ascii_upper alg]).
Proof.
  intros Ha. destruct (upper_key alg Ha) as [U1 U2]. split.
  - intros Hk. pose proof (encode_keys_stripped _ Hk) as Hs.
    assert (C : contains (keys EncodeCommand_ALGORITHMS) (ascii_upper alg) = true)
      by now apply contains_In.
    split.
    + rewrite !Encode_valid by (rewrite ?U1, ?U2, Hs; exact C).
      now rewrite U1, U2.
    + rewrite !Decode_valid by (rewrite ?U1, ?U2, Hs; exact C).
      now rewrite U1, U2.
  - intros Hk.
    assert (C : contains (keys HashCommand_ALGORITHMS) (ascii_upper alg) = true)
      by now apply contains_In.
    rewrite !Hash_valid by (rewrite ?U1, ?U2; exact C).
    now rewrite U1, U2.
Qed.

Lemma stripped_ends s :
  Unicode.strip s = s <-> starts_clean s /\ starts_clean (rev s).
Proof.
  split.
  - intros H. split.
    + rewrite <- H. apply rstrip_head, lstrip_head.
    + rewrite <- H. unfold Unicode.strip, Unicode.rstrip.
      rewrite rev_involutive. apply lstrip_head.
  - intros [H1 H2]. unfold Unicode.strip. rewrite lstrip_fixed by exact H1.
    unfold Unicode.rstrip. rewrite lstrip_fixed by exact H2. apply rev_involutive.
Qed.

Lemma ascii_upper_isspace c :
  Unicode.isspace (if (97 <=? c) && (c <=? 122) then c - 32 else c)
  = Unicode.isspace c.
Proof.
  destruct (Z.leb_spec 97 c); destruct (Z.leb_spec c 122); cbn [andb];
    try reflexivity.
  unfold Unicode.isspace.
  repeat match goal with
         | |- context [?a <=? ?b] => destruct (Z.leb_spec a b); try lia
         | |- context [?a =? ?b] => destruct (Z.eqb_spec a b); try lia
         end.
  all: reflexivity.
Qed.

Lemma ascii_upper_clean s : starts_clean s -> starts_clean (ascii_upper s).
Proof.
  destruct s as [|c r]; [easy|]. cbn [ascii_upper map starts_clean].
  now rewrite ascii_upper_isspace.
Qed.

Lemma ascii_upper_stripped s :
  Unicode.strip s = s -> Unicode.strip (ascii_upper s) = ascii_upper s.
Proof.
  rewrite !stripped_ends. intros [H1 H2]. split.
  - now apply ascii_upper_clean.
  - unfold ascii_upper. rewrite <- map_rev. now apply ascii_upper_clean.
Qed.

(** X17: an argument that [_parse_cmd] returns is stripped, and the
    upper-case form of a stripped ASCII text is stripped as well. So for an
    ASCII algorithm argument that comes from a line of the shell, the
    membership test of [HashCommand._validate_argv], on the upper-case
    form, and the lookup of [HashCommand.execute], on the upper-case form
    stripped, use the same key: for such a line the hash command rejects
    exactly the names that the lookup would not find, as the encode and the
    decode command do. *)
Theorem X17_arguments_of_a_line_are_stripped line name argv :
  _parse_cmd line = Ok (name, argv) ->
  Forall (fun alg =>
            ascii_text alg ->
            Unicode.strip (upper alg) = upper alg
            /\ contains (keys HashCommand_ALGORITHMS) (upper alg)
               = contains (keys HashCommand_ALGORITHMS) (Unicode.strip (upper alg)))
    argv.
Proof.
  intros H. apply parse_cmd_Ok in H as [_ ->].
  pose proof (parse_argv_elements line) as He. revert He.
  apply Forall_impl. intros alg [_ Hs] Ha.
  assert (E : Unicode.strip (upper alg) = upper alg)
    by (rewrite upper_ascii by exact Ha; now apply ascii_upper_stripped).
  split; [exact E | now rewrite E].
Qed.

(** X18: a line without a space has no argument, so it runs the bare
    command that its token names, in whatever case and with whatever white
    space other than spaces around it: [help] prints the documentation,
    [exit] prints [Exiting...] and raises [SystemExit(0)], and [encode],
    [decode] and [hash] print their syntax line. *)
Theorem X18_lines_without_a_space shell line name argv :
  Shell_init = Ok shell ->
  _parse_cmd line = Ok (name, argv) ->
  spaces line = 0%nat ->
  argv = []
  /\ execute_command shell line
     = match name with
       | HELP => ([HelpCommand_DOCUMENTATION ++ [10]], Ok tt)
       | EXIT => ([pystr "Exiting..." ++ [10]], Raise (SystemExit 0))
       | ENCODE => ([EncodeCommand_DOCUMENTATION ++ [10]], Ok tt)
       | DECODE => ([DecodeCommand_DOCUMENTATION ++ [10]], Ok tt)
       | HASH => ([HashCommand_DOCUMENTATION ++ [10]], Ok tt)
       end.
Proof.
  intros Hs H H0. rewrite (dispatch shell line name argv Hs H).
  apply parse_cmd_Ok in H as [_ ->].
  pose proof (parse_argv_length line) as Hl. rewrite H0 in Hl.
  destruct (parse_argv line) as [|a r]; [|discriminate Hl].
  split; [reflexivity|]. now destruct name.
Qed.

End Extras.

(** ** The properties at concrete inputs *)

Lemma X1_double_space_witness :
  @_parse_cmd ascii_interpreter (pystr "encode  hello BASE64")
  = Ok (ENCODE, [pystr ""; pystr "hello"; pystr "BASE64"])
  /\ spaces (pystr "encode  hello BASE64") = 3%nat
  /\ List.length [pystr ""; pystr "hello"; pystr "BASE64"]
     = spaces (pystr "encode  hello BASE64").
Proof.
  assert (H : @_parse_cmd ascii_interpreter (pystr "encode  hello BASE64")
              = Ok (ENCODE, [pystr ""; pystr "hello"; pystr "BASE64"]))
    by reflexivity.
  split; [exact H|]. split; [reflexivity|].
  exact (proj1 (@X1_one_argument_for_each_space ascii_interpreter _ _ _ H)).
Defined.

Lemma X2_tokens_witness :
  spaceless (pystr "Decode")
  /\ Forall spaceless [pystr "aGVsbG8="; pystr "base64"]
  /\ @_parse_cmd ascii_interpreter (pystr "Decode aGVsbG8= base64")
     = Ok (DECODE, [pystr "aGVsbG8="; pystr "base64"]).
Proof.
  assert (H1 : spaceless (pystr "Decode")) by spaceless_literal.
  assert (H2 : Forall spaceless [pystr "aGVsbG8="; pystr "base64"])
    by (repeat constructor; spaceless_literal).
  split; [exact H1|]. split; [exact H2|].
  exact (@X2_line_of_tokens ascii_interpreter _ _ H1 H2).
Defined.

Lemma X3_unknown_command_witness :
  contains (keys CommandName_members)
    (@upper ascii_interpreter (@binary ascii_interpreter (pystr "foo bar baz")))
  = false
  /\ @execute_command ascii_interpreter session_shell (pystr "foo bar baz")
     = ([], Raise (CommandNameConversionError (pystr "Invalid command name: FOO"))).
Proof.
  assert (H : contains (keys CommandName_members)
                (@upper ascii_interpreter
                   (@binary ascii_interpreter (pystr "foo bar baz"))) = false)
    by reflexivity.
  split; [exact H|].
  exact (proj1 (@X3_unknown_command ascii_interpreter session_shell
                  (pystr "foo bar baz") [] H)).
Defined.

Lemma X5_text_with_a_space_witness :
  Shell_init = Ok session_shell
  /\ @_parse_cmd ascii_interpreter (pystr "encode hello world BASE64")
     = Ok (ENCODE, [pystr "hello"; pystr "world"; pystr "BASE64"])
  /\ spaces (pystr "encode hello world BASE64") <> 0%nat
  /\ spaces (pystr "encode hello world BASE64") <> 2%nat
  /\ @execute_command ascii_interpreter session_shell
       (pystr "encode hello world BASE64")
     = ([], Raise (ValueError
                     (pystr "This command takes exactly 2 arguments: CommandName.ENCODE"))).
Proof.
  assert (Hs : Shell_init = Ok session_shell) by reflexivity.
  assert (H : @_parse_cmd ascii_interpreter (pystr "encode hello world BASE64")
              = Ok (ENCODE, [pystr "hello"; pystr "world"; pystr "BASE64"]))
    by reflexivity.
  assert (H0 : spaces (pystr "encode hello world BASE64") <> 0%nat)
    by discriminate.
  assert (H2 : spaces (pystr "encode hello world BASE64") <> 2%nat)
    by discriminate.
  split; [exact Hs|]. split; [exact H|]. split; [exact H0|]. split; [exact H2|].
  exact (proj2 (@X5_argument_count_errors ascii_interpreter _ _ _ _ Hs H H0)
           (or_introl eq_refl) H2).
Defined.

Lemma X6_two_lines_witness :
  Shell_init = Ok session_shell
  /\ List.length
       (fst (@enter_command_to_execute ascii_interpreter session_shell
               [pystr "help"; pystr "foo"]))
     = 5%nat.
Proof.
  assert (Hs : Shell_init = Ok session_shell) by reflexivity.
  split; [exact Hs|].
  refine (proj2 (proj2 (@X6_one_answer_for_each_line ascii_interpreter _ Hs))
            [pystr "help"; pystr "foo"] _).
  repeat constructor.
Defined.

Lemma X8_tab_and_line_feed_witness :
  blank [9] /\ spaceless [9] /\ blank [10] /\ spaceless [10]
  /\ @_parse_cmd ascii_interpreter ([9] ++ pystr "hash hello md5" ++ [10])
     = Ok (HASH, [pystr "hello"; pystr "md5"]).
Proof.
  assert (B1 : blank [9]) by (repeat constructor).
  assert (S1 : spaceless [9]) by spaceless_literal.
  assert (B2 : blank [10]) by (repeat constructor).
  assert (S2 : spaceless [10]) by spaceless_literal.
  split; [exact B1|]. split; [exact S1|]. split; [exact B2|]. split; [exact S2|].
  exact (proj1 (@X8_white_space_at_the_ends ascii_interpreter [9]
                  (pystr "hash hello md5") [10] B1 S1 B2 S2)).
Defined.

Lemma X9_encode_hello_witness :
  getitem EncodeCommand_ALGORITHMS
    (Unicode.strip (@upper ascii_interpreter (pystr "base64")))
  = Ok base64.b64encode
  /\ utf8.encode (pystr "hello") = Ok (pystr "hello")
  /\ @EncodeCommand_execute ascii_interpreter ENCODE [pystr "hello"; pystr "base64"]
     = ([pystr "b'aGVsbG8='" ++ [10]], Ok tt).
Proof.
  assert (H : getitem EncodeCommand_ALGORITHMS
                (Unicode.strip (@upper ascii_interpreter (pystr "base64")))
              = Ok base64.b64encode) by reflexivity.
  assert (Hr : utf8.encode (pystr "hello") = Ok (pystr "hello")) by reflexivity.
  split; [exact H|]. split; [exact Hr|].
  exact (proj1 (@X9_encode_prints_a_bytes_literal ascii_interpreter ENCODE
                  _ _ _ _ H Hr)).
Defined.

Lemma X10_not_utf8_witness :
  getitem EncodeCommand_ALGORITHMS (pystr "HEXLIFY") = Ok binascii.hexlify
  /\ octets [255]
  /\ @DecodeCommand_execute ascii_interpreter DECODE [pystr "ff"; pystr "HEXLIFY"]
     = ([], Raise (UnicodeDecodeError utf8.codec_name [255] 0 1
                     (pystr "invalid start byte"))).
Proof.
  assert (H : getitem EncodeCommand_ALGORITHMS (pystr "HEXLIFY")
              = Ok binascii.hexlify) by reflexivity.
  assert (Ho : octets [255]) by (repeat constructor; unfold octet; lia).
  split; [exact H|]. split; [exact Ho|].
  exact (@X10_decode_of_encoded_octets ascii_interpreter DECODE _ _ [255] H Ho).
Defined.

Lemma X11_text_with_a_space_witness :
  Shell_init = Ok session_shell
  /\ getitem EncodeCommand_ALGORITHMS (pystr "BASE64") = Ok base64.b64encode
  /\ utf8.encode (pystr "hello world") = Ok (pystr "hello world")
  /\ @execute_command ascii_interpreter session_shell
       (pystr "decode aGVsbG8gd29ybGQ= BASE64")
     = ([pystr "hello world" ++ [10]], Ok tt).
Proof.
  assert (Hs : Shell_init = Ok session_shell) by reflexivity.
  assert (H : getitem EncodeCommand_ALGORITHMS (pystr "BASE64")
              = Ok base64.b64encode) by reflexivity.
  assert (Hr : utf8.encode (pystr "hello world") = Ok (pystr "hello world"))
    by reflexivity.
  split; [exact Hs|]. split; [exact H|]. split; [exact Hr|].
  exact (proj1 (@X11_decode_and_encode_lines ascii_interpreter _ _ _ _ _ Hs H Hr)).
Defined.

Lemma X14_accented_letter_witness :
  contains (keys DecodeCommand_ALGORITHMS)
    (Unicode.strip (@upper ascii_interpreter (pystr "base64"))) = true
  /\ forallb is_ascii [233] = false
  /\ @DecodeCommand_execute ascii_interpreter DECODE [[233]; pystr "base64"]
     = ([], Raise (ValueError
                     (pystr "string argument should contain only ASCII characters"))).
Proof.
  assert (H : contains (keys DecodeCommand_ALGORITHMS)
                (Unicode.strip (@upper ascii_interpreter (pystr "base64"))) = true)
    by reflexivity.
  assert (Hp : forallb is_ascii [233] = false) by reflexivity.
  split; [exact H|]. split; [exact Hp|].
  exact (@X14_payload_of_ascii_only ascii_interpreter DECODE _ _ H Hp).
Defined.

Lemma X15_same_line_witness :
  getitem EncodeCommand_ALGORITHMS (pystr "A85") = Ok base64.a85encode
  /\ utf8.encode (pystr "hello") = Ok (pystr "hello")
  /\ (base64.a85encode (pystr "hello") = base64.a85encode (pystr "hello") ->
      pystr "hello" = pystr "hello").
Proof.
  assert (H : getitem EncodeCommand_ALGORITHMS (pystr "A85") = Ok base64.a85encode)
    by reflexivity.
  assert (Hr : utf8.encode (pystr "hello") = Ok (pystr "hello")) by reflexivity.
  split; [exact H|]. split; [exact Hr|].
  exact (proj1 (@X15_encoders_are_injective ascii_interpreter _ _ _ _ _ _ H Hr Hr)).
Defined.

Lemma X16_lower_case_name_witness :
  ascii_text (pystr "base64")
  /\ In (ascii_upper (pystr "base64")) (keys EncodeCommand_ALGORITHMS)
  /\ @EncodeCommand_execute ascii_interpreter ENCODE [pystr "hello"; pystr "base64"]
     = @EncodeCommand_execute ascii_interpreter ENCODE [pystr "hello"; pystr "BASE64"].
Proof.
  assert (Ha : ascii_text (pystr "base64")) by (repeat constructor).
  assert (Hk : In (ascii_upper (pystr "base64")) (keys EncodeCommand_ALGORITHMS))
    by (cbn; tauto).
  split; [exact Ha|]. split; [exact Hk|].
  exact (proj1 (proj1 (@X16_algorithm_names_ignore_case ascii_interpreter ENCODE
                         (pystr "hello") _ Ha) Hk)).
Defined.

Lemma X17_hash_line_witness :
  @_parse_cmd ascii_interpreter (pystr "hash hello md5")
  = Ok (HASH, [pystr "hello"; pystr "md5"])
  /\ Forall
       (fun alg =>
          ascii_text alg ->
          Unicode.strip (@upper ascii_interpreter alg) = @upper ascii_interpreter alg
          /\ contains (keys HashCommand_ALGORITHMS) (@upper ascii_interpreter alg)
             = contains (keys HashCommand_ALGORITHMS)
                 (Unicode.strip (@upper ascii_interpreter alg)))
       [pystr "hello"; pystr "md5"].
Proof.
  assert (H : @_parse_cmd ascii_interpreter (pystr "hash hello md5")
              = Ok (HASH, [pystr "hello"; pystr "md5"])) by reflexivity.
  split; [exact H|].
  exact (@X17_arguments_of_a_line_are_stripped ascii_interpreter _ _ _ H).
Defined.

Lemma X18_bare_command_witness :
  Shell_init = Ok session_shell
  /\ @_parse_cmd ascii_interpreter (pystr "HeLp") = Ok (HELP, [])
  /\ spaces (pystr "HeLp") = 0%nat
  /\ @execute_command ascii_interpreter session_shell (pystr "HeLp")
     = ([HelpCommand_DOCUMENTATION ++ [10]], Ok tt).
Proof.
  assert (Hs : Shell_init = Ok session_shell) by reflexivity.
  assert (H : @_parse_cmd ascii_interpreter (pystr "HeLp") = Ok (HELP, []))
    by reflexivity.
  assert (H0 : spaces (pystr "HeLp") = 0%nat) by reflexivity.
  split; [exact Hs|]. split; [exact H|]. split; [exact H0|].
  exact (proj2 (@X18_lines_without_a_space ascii_interpreter _ _ _ _ Hs H H0)).
Defined.

(** ** The model on known values *)

Example utf8_encode_example :
  utf8.encode [104; 233; 8364; 128512]
  = Ok [104; 195; 169; 226; 130; 172; 240; 159; 152; 128].
Proof. reflexivity. Qed.

Example utf8_decode_example :
  utf8.decode [104; 195; 169; 226; 130; 172; 240; 159; 152; 128]
  = Ok [104; 233; 8364; 128512].
Proof. reflexivity. Qed.

Example utf8_surrogate_example :
  utf8.encode [97; 55296]
  = Raise (UnicodeEncodeError (pystr "utf-8") [97; 55296] 1 2
             (pystr "surrogates not allowed")).
Proof. reflexivity. Qed.

Example split_example :
  Unicode.split 32 (pystr "a  b ") = [pystr "a"; []; pystr "b"; []].
Proof. reflexivity. Qed.

(** The test vectors of RFC 4648. *)
Example rfc4648_base64 :
  map base64.b64encode (map pystr [""; "f"; "fo"; "foo"; "foob"; "fooba"; "foobar"]%string)
  = map pystr [""; "Zg=="; "Zm8="; "Zm9v"; "Zm9vYg=="; "Zm9vYmE="; "Zm9vYmFy"]%string.
Proof. reflexivity. Qed.

Example rfc4648_base32 :
  map base64.b32encode (map pystr [""; "f"; "fo"; "foo"; "foob"; "fooba"; "foobar"]%string)
  = map pystr [""; "MY======"; "MZXQ===="; "MZXW6==="; "MZXW6YQ="; "MZXW6YTB";
               "MZXW6YTBOI======"]%string.
Proof. reflexivity. Qed.

Example rfc4648_base32hex :
  map base64.b32hexencode (map pystr [""; "f"; "fo"; "foo"; "foob"; "fooba"; "foobar"]%string)
  = map pystr [""; "CO======"; "CPNG===="; "CPNMU==="; "CPNMUOG="; "CPNMUOJ1";
               "CPNMUOJ1E8======"]%string.
Proof. reflexivity. Qed.

Example rfc4648_base16 :
  base64.b16encode (pystr "foobar") = pystr "666F6F626172"
  /\ binascii.hexlify (pystr "foobar") = pystr "666f6f626172".
Proof. split; reflexivity. Qed.

Example base85_examples :
  base64.a85encode (pystr "hello world!") = pystr "BOu!rD]j7BEbo80"
  /\ base64.b85encode (pystr "hello world!") = pystr "Xk~0{Zy<MXa%^NF"
  /\ base64.a85encode [0; 0; 0; 0; 1] = pystr "z!<".
Proof. repeat split; reflexivity. Qed.

Example decoding_examples :
  base64.b64decode (Str (pystr "Zm9vYmFy")) = Ok (pystr "foobar")
  /\ base64.b64decode (Str (pystr "Zm9v!YmFy")) = Ok (pystr "foobar")
  /\ base64.b64decode (Str (pystr "Zm9vYmF"))
     = Raise (binascii_Error (pystr "Incorrect padding"))
  /\ base64.b32decode (Str (pystr "MZXW6YTBOI======")) = Ok (pystr "foobar")
  /\ base64.b32decode (Str (pystr "mzxw6ytboi======"))
     = Raise (binascii_Error (pystr "Non-base32 digit found"))
  /\ base64.b16decode (Str (pystr "666f6f"))
     = Raise (binascii_Error (pystr "Non-base16 digit found"))
  /\ binascii.unhexlify (Str (pystr "666f6F")) = Ok (pystr "foo")
  /\ binascii.unhexlify (Str (pystr "666"))
     = Raise (binascii_Error (pystr "Odd-length string"))
  /\ base64.a85decode (Str (pystr "BOu!rD]j7BEbo80")) = Ok (pystr "hello world!")
  /\ base64.b85decode (Str (pystr "Xk~0{Zy<MXa%^NF")) = Ok (pystr "hello world!").
Proof. repeat split; reflexivity. Qed.

Example rejected_payloads :
  base64.b64decode (Str (pystr "abcde"))
  = Raise (binascii_Error
             (pystr "Invalid base64-encoded string: number of data characters (5) cannot be 1 more than a multiple of 4"))
  /\ base64.b64decode (Str (pystr "abcdef"))
     = Raise (binascii_Error (pystr "Incorrect padding"))
  /\ base64.b64decode (Str (pystr "!!!!")) = Ok []
  /\ base64.b32decode (Str (pystr "MZXW6"))
     = Raise (binascii_Error (pystr "Incorrect padding"))
  /\ base64.b32decode (Str (pystr "MZXW6Y=="))
     = Raise (binascii_Error (pystr "Incorrect padding"))
  /\ base64.b32hexdecode (Str (pystr "CPNMUOJ1E8======")) = Ok (pystr "foobar")
  /\ base64.b32hexdecode (Str (pystr "CPNMUOJ1EW======"))
     = Raise (binascii_Error (pystr "Non-base32 digit found"))
  /\ base64.b16decode (Str (pystr "666"))
     = Raise (binascii_Error (pystr "Odd-length string"))
  /\ binascii.unhexlify (Str (pystr "66zz"))
     = Raise (binascii_Error (pystr "Non-hexadecimal digit found"))
  /\ base64.a85decode (Str (pystr "BOu!rD]j7BEbo8~"))
     = Raise (ValueError (pystr "Non-Ascii85 digit found: ~"))
  /\ base64.a85decode (Str (pystr "BOzu!"))
     = Raise (ValueError (pystr "z inside Ascii85 5-tuple"))
  /\ base64.b85decode (Str (pystr "Xk~0{Zy<MXa%^N "))
     = Raise (ValueError (pystr "bad base85 character at position 14"))
  /\ base64.b64decode (Str [233])
     = Raise (ValueError
                (pystr "string argument should contain only ASCII characters")).
Proof. repeat split; reflexivity. Qed.

(** The test suite of RFC 1321. *)
Example rfc1321_md5 :
  map (fun m => binascii.hexlify (hashlib.md5_digest (pystr m)))
    [""; "a"; "abc"; "message digest"; "abcdefghijklmnopqrstuvwxyz"]%string
  = map pystr
      ["d41d8cd98f00b204e9800998ecf8427e"; "0cc175b9c0f1b6a831c399e269772661";
       "900150983cd24fb0d6963f7d28e17f72"; "f96b697d7cb7938d525a2f31aaf161d0";
       "c3fcd3d76192e4007dfb496cca67e13b"]%string.
Proof. vm_compute. reflexivity. Qed.

Section Session.
Context {python : Interpreter}.

(** The scenarios of the specification, typed in one session. *)
Example session_example :
  main (map pystr ["hash hello MD5"; "encode hello BASE64";
                   "decode aGVsbG8= BASE64"; "foo"; "exit"; "help"]%string)
  = ([DOC ++ [10];
      prompt; pystr "5d41402abc4b2a76b9719d911017c592" ++ [10];
      prompt; pystr "b'aGVsbG8='" ++ [10];
      prompt; pystr "hello" ++ [10];
      prompt; pystr "Invalid command name: FOO" ++ [10];
      prompt; pystr "Exiting..." ++ [10]],
     SystemExit 0).
Proof. vm_compute. reflexivity. Qed.

Example end_of_input_example :
  main [pystr "help"] = ([DOC ++ [10]; prompt; HelpCommand_DOCUMENTATION ++ [10]; prompt],
                         EOFError).
Proof. vm_compute. reflexivity. Qed.

End Session.
